(** * agent-base: configuration resolution and skill-plugin governance

    A shallow embedding of the configuration loader ([src/agent/config.py])
    and of the skill management commands ([src/agent/cli/skill_commands.py]),
    together with models of the collaborators those files import but that
    live elsewhere ([agent.config.schema], [agent.config.manager],
    [agent.skills.security], [agent.skills.manager]).

    Conventions
    - the process environment is a finite map from variable names to values;
    - a Python exception that derives from [Exception] is a value of type
      [exn]; a command that may raise returns a [result];
    - Python objects that are mutated in place and then saved are threaded
      explicitly: a list element updated through a reference is replaced at
      its index. *)

From Stdlib Require Import String Ascii ZArith NArith List Bool Lia.
From Stdlib Require Import DecimalString.
From stdpp Require Import base option list gmap strings fin_maps pretty.

Local Open Scope string_scope.

(** ** Exceptions and results *)

(** [Exit] is [typer.Exit] (an alias of [click.exceptions.Exit], which derives
    from [RuntimeError] and therefore from [Exception]); [ValueError] is the
    builtin; [ConfigurationError] is the one of [agent.config];
    [SkillNotFoundError] is the one of the skill manager; [Raised] stands for
    any other exception coming out of a collaborator (git, filesystem),
    carrying its message. *)
Inductive exn : Type :=
  | Exit (code : nat)
  | ValueError (msg : string)
  | ConfigurationError (msg : string)
  | SkillNotFoundError (skill : string)
  | Raised (msg : string).

(** [str(e)]: an [Exit] carries its code as sole argument. *)
Definition exn_str (e : exn) : string :=
  match e with
  | Exit code => pretty code
  | ValueError msg => msg
  | ConfigurationError msg => msg
  | SkillNotFoundError skill => "Skill '" ++ skill ++ "' not found"
  | Raised msg => msg
  end.

(** A call returns, raises an [Exception], or is left by an exception that
    does not derive from [Exception] ([KeyboardInterrupt], [SystemExit]),
    which no [except Exception] clause catches; [Abort] carries the name of
    its class. *)
Inductive result (A : Type) : Type :=
  | Ok (a : A)
  | Err (e : exn)
  | Abort (signal : string).
Arguments Ok {A} a.
Arguments Err {A} e.
Arguments Abort {A} signal.

Definition is_ok {A} (r : result A) : bool :=
  match r with Ok _ => true | _ => false end.

(** ** [src/agent/config.py] *)

Module Config.

(** [os.environ] *)
Abbreviation Env := (gmap string string).

(** [os.getenv(key)] and [os.getenv(key, default)] *)
Definition getenv (env : Env) (key : string) : option string := env !! key.
Definition getenv_default (env : Env) (key dflt : string) : string :=
  default dflt (env !! key).

Record AgentConfig : Type := mkAgentConfig {
  llm_provider : string;
  openai_api_key : option string;
  openai_model : string;
  anthropic_api_key : option string;
  anthropic_model : string;
  azure_project_endpoint : option string;
  azure_model_deployment : option string;
  agent_data_dir : option string;
  agent_session_dir : option string
}.

(** [AgentConfig.from_env].  [env] is [os.environ] once [load_dotenv()] has
    run; [home] is [Path.home()] and [expanduser] is [Path.expanduser]; paths
    are kept as strings and [/] joins them. *)
Definition from_env (home : string) (expanduser : string → string)
    (env : Env) : AgentConfig :=
  let llm_provider := getenv_default env "LLM_PROVIDER" "openai" in
  let data_dir := getenv_default env "AGENT_DATA_DIR" (home ++ "/.agent") in
  let agent_data_dir := expanduser data_dir in
  {| llm_provider := llm_provider;
     openai_api_key := getenv env "OPENAI_API_KEY";
     openai_model := getenv_default env "OPENAI_MODEL" "gpt-5-mini";
     anthropic_api_key := getenv env "ANTHROPIC_API_KEY";
     anthropic_model :=
       getenv_default env "ANTHROPIC_MODEL" "claude-sonnet-4-5-20250929";
     azure_project_endpoint := getenv env "AZURE_PROJECT_ENDPOINT";
     azure_model_deployment := getenv env "AZURE_MODEL_DEPLOYMENT";
     agent_data_dir := Some agent_data_dir;
     agent_session_dir := Some (agent_data_dir ++ "/sessions") |}.

(** Python truthiness of an [str | None]: [None] and [""] are falsy. *)
Definition truthy (o : option string) : bool :=
  match o with
  | None => false
  | Some s => negb (String.eqb s "")
  end.

(** [AgentConfig.validate]: [Ok ()] or the [ValueError] it raises. *)
Definition validate (c : AgentConfig) : result unit :=
  if String.eqb (llm_provider c) "openai" then
    if negb (truthy (openai_api_key c)) then
      Err (ValueError
        "OpenAI provider requires API key. Set OPENAI_API_KEY environment variable.")
    else Ok ()
  else if String.eqb (llm_provider c) "anthropic" then
    if negb (truthy (anthropic_api_key c)) then
      Err (ValueError
        "Anthropic provider requires API key. Set ANTHROPIC_API_KEY environment variable.")
    else Ok ()
  else if String.eqb (llm_provider c) "azure_ai_foundry" then
    if negb (truthy (azure_project_endpoint c)) then
      Err (ValueError
        "Azure AI Foundry requires project endpoint. Set AZURE_PROJECT_ENDPOINT environment variable.")
    else if negb (truthy (azure_model_deployment c)) then
      Err (ValueError
        "Azure AI Foundry requires model deployment name. Set AZURE_MODEL_DEPLOYMENT environment variable.")
    else Ok ()
  else
    Err (ValueError
      ("Unknown LLM provider: " ++ llm_provider c
       ++ ". Supported providers: openai, anthropic, azure_ai_foundry")).

(** The providers [validate] accepts. *)
Definition supported_providers : list string :=
  ["openai"; "anthropic"; "azure_ai_foundry"].

(** [AgentConfig.get_model_display_name] *)
Definition get_model_display_name (c : AgentConfig) : string :=
  if String.eqb (llm_provider c) "openai" then "OpenAI/" ++ openai_model c
  else if String.eqb (llm_provider c) "anthropic" then
    "Anthropic/" ++ anthropic_model c
  else if String.eqb (llm_provider c) "azure_ai_foundry" then
    "Azure AI Foundry/" ++
      match azure_model_deployment c with Some d => d | None => "None" end
  else "Unknown".

End Config.

(** ** Skill name canonicalisation ([agent.skills.security]) *)

Module NameCanonicalizer.

(** The character classes the canonical form is built from. *)
Definition is_upper (c : ascii) : bool :=
  let n := N_of_ascii c in (N.leb 65 n && N.leb n 90)%bool.

Definition is_lower (c : ascii) : bool :=
  let n := N_of_ascii c in (N.leb 97 n && N.leb n 122)%bool.

Definition is_digit (c : ascii) : bool :=
  let n := N_of_ascii c in (N.leb 48 n && N.leb n 57)%bool.

Definition hyphen : ascii := "-"%char.

(** ASCII whitespace (tab, LF, VT, FF, CR, space) and the underscore. *)
Definition is_separator (c : ascii) : bool :=
  let n := N_of_ascii c in
  ((N.leb 9 n && N.leb n 13) || N.eqb n 32 || N.eqb n 95)%bool.

(** Characters allowed in a path segment: [a-z0-9-]. *)
Definition is_safe (c : ascii) : bool :=
  (is_lower c || is_digit c || Ascii.eqb c hyphen)%bool.

Definition lower (c : ascii) : ascii :=
  if is_upper c then ascii_of_N (N_of_ascii c + 32) else c.

(** Every maximal run of separators becomes one hyphen. *)
Fixpoint collapse (l : list ascii) : list ascii :=
  match l with
  | [] => []
  | c :: rest =>
      if is_separator c then
        match rest with
        | c' :: _ => if is_separator c' then collapse rest
                     else hyphen :: collapse rest
        | [] => [hyphen]
        end
      else c :: collapse rest
  end.

Definition canonical_chars (max_len : nat) (l : list ascii) : list ascii :=
  take max_len (List.filter is_safe (collapse (List.map lower l))).

(** Modelled from the spec: [normalize_skill_name] of [agent.skills.security]
    is not among the sources.  Section 4.1 asks for: lowercase; collapse
    whitespace and underscores to a single hyphen; strip the characters that
    are unsafe in a path segment; trim to a bounded maximum length
    ([max_len], which the spec leaves open). *)
Definition canonicalize (max_len : nat) (raw : string) : string :=
  string_of_list_ascii (canonical_chars max_len (list_ascii_of_string raw)).

End NameCanonicalizer.

(** ** The persisted settings document ([agent.config.schema]) *)

Module Schema.

(** A JSON value; an object keeps its members in document order. *)
#[local] Set Warnings "-register-all".
Inductive json : Type :=
  | JNull
  | JBool (b : bool)
  | JNum (n : Z)
  | JStr (s : string)
  | JArr (items : list json)
  | JObj (members : list (string * json)).

Abbreviation members := (list (string * json)).

Record ProviderConfig : Type := mkProviderConfig {
  provider_enabled : bool;
  api_key : option string;
  model : option string;
  endpoint : option string;
  provider_extra : members
}.

Record ProvidersConfig : Type := mkProvidersConfig {
  providers_enabled : list string;
  providers_table : list (string * ProviderConfig)
}.

Record PluginSkillSource : Type := mkPluginSkillSource {
  name : string;
  git_url : string;
  branch : string;
  enabled : bool;
  installed_path : option string;
  plugin_extra : members
}.

Record SkillsConfig : Type := mkSkillsConfig {
  bundled_dir : option string;
  disabled_bundled : list string;
  plugins : list PluginSkillSource;
  skills_extra : members
}.

Record TelemetryConfig : Type := mkTelemetryConfig {
  telemetry_enabled : option bool;
  otlp_endpoint : option string;
  telemetry_extra : members
}.

Record MemoryConfig : Type := mkMemoryConfig {
  memory_type : option string;
  history_limit : option Z;
  memory_extra : members
}.

(** Modelled from the spec: [AgentSettings] of [agent.config.schema] is not
    among the sources.  Section 3 lists a provider table (an ordered list of
    enabled providers and one sub-object per provider), a skills table, a
    telemetry table and a memory table; section 6 asks that unknown fields
    survive a round trip, so every table carries the members it does not
    know ([*_extra]), and that any field may be absent, so a setting that
    is null or unset in the document is [None], whatever its type. *)
Record AgentSettings : Type := mkAgentSettings {
  version : string;
  providers : ProvidersConfig;
  skills : SkillsConfig;
  telemetry : TelemetryConfig;
  memory : MemoryConfig;
  extra : members
}.

(** Functional record updates used by the commands. *)
Definition with_plugins (l : list PluginSkillSource) (s : AgentSettings)
    : AgentSettings :=
  {| version := version s; providers := providers s;
     skills := {| bundled_dir := bundled_dir (skills s);
                  disabled_bundled := disabled_bundled (skills s);
                  plugins := l;
                  skills_extra := skills_extra (skills s) |};
     telemetry := telemetry s; memory := memory s; extra := extra s |}.

Definition with_disabled_bundled (l : list string) (s : AgentSettings)
    : AgentSettings :=
  {| version := version s; providers := providers s;
     skills := {| bundled_dir := bundled_dir (skills s);
                  disabled_bundled := l;
                  plugins := plugins (skills s);
                  skills_extra := skills_extra (skills s) |};
     telemetry := telemetry s; memory := memory s; extra := extra s |}.

Definition with_enabled (b : bool) (p : PluginSkillSource)
    : PluginSkillSource :=
  {| name := name p; git_url := git_url p; branch := branch p;
     enabled := b; installed_path := installed_path p;
     plugin_extra := plugin_extra p |}.

End Schema.

(** ** Reading and writing the document ([agent.config.manager]) *)

Module ConfigStore.
Import Schema.

(** *** Members of an object *)

(** First member with the given key. *)
Fixpoint member (k : string) (ms : members) : option json :=
  match ms with
  | [] => None
  | (k', v) :: rest => if String.eqb k k' then Some v else member k rest
  end.

Definition is_known (known : list string) (k : string) : bool :=
  existsb (String.eqb k) known.

(** The members a table does not know, in document order. *)
Definition unknown (known : list string) (ms : members) : members :=
  List.filter (fun kv => negb (is_known known (fst kv))) ms.

(** A missing member takes the compiled default (partial specification). *)
Definition field {A} (parse : json → option A) (dflt : A) (k : string)
    (ms : members) : option A :=
  match member k ms with
  | None => Some dflt
  | Some j => parse j
  end.

(** A member without default: its absence makes the document malformed. *)
Definition required {A} (parse : json → option A) (k : string)
    (ms : members) : option A :=
  member k ms ≫= parse.

(** *** Scalars and arrays *)

Definition as_bool (j : json) : option bool :=
  match j with JBool b => Some b | _ => None end.
Definition as_num (j : json) : option Z :=
  match j with JNum n => Some n | _ => None end.
Definition as_str (j : json) : option string :=
  match j with JStr s => Some s | _ => None end.
Definition as_opt_str (j : json) : option (option string) :=
  match j with JStr s => Some (Some s) | JNull => Some None | _ => None end.
Definition as_opt_bool (j : json) : option (option bool) :=
  match j with JBool b => Some (Some b) | JNull => Some None | _ => None end.
Definition as_opt_num (j : json) : option (option Z) :=
  match j with JNum n => Some (Some n) | JNull => Some None | _ => None end.
Definition as_list {A} (parse : json → option A) (j : json)
    : option (list A) :=
  match j with JArr items => mapM parse items | _ => None end.

Definition of_opt_str (o : option string) : json :=
  match o with Some s => JStr s | None => JNull end.
Definition of_opt_bool (o : option bool) : json :=
  match o with Some b => JBool b | None => JNull end.
Definition of_opt_num (o : option Z) : json :=
  match o with Some n => JNum n | None => JNull end.
Definition of_list {A} (enc : A → json) (l : list A) : json :=
  JArr (List.map enc l).

(** *** Compiled defaults *)

Definition default_provider : ProviderConfig :=
  {| provider_enabled := false; api_key := None; model := None;
     endpoint := None; provider_extra := [] |}.

Definition known_providers : list string :=
  ["local"; "openai"; "anthropic"; "azure"; "foundry"; "gemini"; "github"].

(** Modelled from the spec: [get_default_config] of [agent.config.manager]
    is not among the sources.  Section 4.3: compiled-in defaults with zero
    enabled providers; the bundled directory is unset, nothing is disabled,
    no plugin is installed, and no telemetry or memory setting is set: the
    values these take when nothing sets them are those of
    [ConfigResolver.compiled_default]. *)
Definition get_default_config : AgentSettings :=
  {| version := "1.0";
     providers :=
       {| providers_enabled := [];
          providers_table :=
            List.map (fun n => (n, default_provider)) known_providers |};
     skills := {| bundled_dir := None; disabled_bundled := [];
                  plugins := []; skills_extra := [] |};
     telemetry := {| telemetry_enabled := None; otlp_endpoint := None;
                     telemetry_extra := [] |};
     memory := {| memory_type := None; history_limit := None;
                  memory_extra := [] |};
     extra := [] |}.

(** *** One encoder and one decoder per table *)

Definition provider_keys : list string :=
  ["enabled"; "api_key"; "model"; "endpoint"].

Definition encode_provider (p : ProviderConfig) : json :=
  JObj ([("enabled", JBool (provider_enabled p));
         ("api_key", of_opt_str (api_key p));
         ("model", of_opt_str (model p));
         ("endpoint", of_opt_str (endpoint p))] ++ provider_extra p).

Definition decode_provider (j : json) : option ProviderConfig :=
  match j with
  | JObj ms =>
      e ← field as_bool false "enabled" ms;
      k ← field as_opt_str None "api_key" ms;
      m ← field as_opt_str None "model" ms;
      p ← field as_opt_str None "endpoint" ms;
      Some {| provider_enabled := e; api_key := k; model := m;
              endpoint := p; provider_extra := unknown provider_keys ms |}
  | _ => None
  end.

(** The provider table is open: every member other than [enabled] is the
    sub-object of the provider it names. *)
Definition encode_providers (p : ProvidersConfig) : json :=
  JObj (("enabled", of_list JStr (providers_enabled p))
        :: List.map (fun kv => (fst kv, encode_provider (snd kv)))
             (providers_table p)).

Definition decode_entry (kv : string * json)
    : option (string * ProviderConfig) :=
  c ← decode_provider (snd kv); Some (fst kv, c).

Definition decode_providers (j : json) : option ProvidersConfig :=
  match j with
  | JObj ms =>
      en ← field (as_list as_str) [] "enabled" ms;
      tb ← mapM decode_entry (unknown ["enabled"] ms);
      Some {| providers_enabled := en; providers_table := tb |}
  | _ => None
  end.

Definition plugin_keys : list string :=
  ["name"; "git_url"; "branch"; "enabled"; "installed_path"].

Definition encode_plugin (p : PluginSkillSource) : json :=
  JObj ([("name", JStr (name p));
         ("git_url", JStr (git_url p));
         ("branch", JStr (branch p));
         ("enabled", JBool (enabled p));
         ("installed_path", of_opt_str (installed_path p))]
        ++ plugin_extra p).

Definition decode_plugin (j : json) : option PluginSkillSource :=
  match j with
  | JObj ms =>
      n ← required as_str "name" ms;
      u ← required as_str "git_url" ms;
      b ← field as_str "main" "branch" ms;
      e ← field as_bool true "enabled" ms;
      p ← field as_opt_str None "installed_path" ms;
      Some {| name := n; git_url := u; branch := b; enabled := e;
              installed_path := p; plugin_extra := unknown plugin_keys ms |}
  | _ => None
  end.

Definition skills_keys : list string :=
  ["bundled_dir"; "disabled_bundled"; "plugins"].

Definition encode_skills (s : SkillsConfig) : json :=
  JObj ([("bundled_dir", of_opt_str (bundled_dir s));
         ("disabled_bundled", of_list JStr (disabled_bundled s));
         ("plugins", of_list encode_plugin (plugins s))]
        ++ skills_extra s).

Definition decode_skills (j : json) : option SkillsConfig :=
  match j with
  | JObj ms =>
      d ← field as_opt_str None "bundled_dir" ms;
      off ← field (as_list as_str) [] "disabled_bundled" ms;
      ps ← field (as_list decode_plugin) [] "plugins" ms;
      Some {| bundled_dir := d; disabled_bundled := off; plugins := ps;
              skills_extra := unknown skills_keys ms |}
  | _ => None
  end.

Definition telemetry_keys : list string := ["enabled"; "otlp_endpoint"].

Definition encode_telemetry (t : TelemetryConfig) : json :=
  JObj ([("enabled", of_opt_bool (telemetry_enabled t));
         ("otlp_endpoint", of_opt_str (otlp_endpoint t))]
        ++ telemetry_extra t).

Definition decode_telemetry (j : json) : option TelemetryConfig :=
  match j with
  | JObj ms =>
      e ← field as_opt_bool None "enabled" ms;
      o ← field as_opt_str None "otlp_endpoint" ms;
      Some {| telemetry_enabled := e; otlp_endpoint := o;
              telemetry_extra := unknown telemetry_keys ms |}
  | _ => None
  end.

Definition memory_keys : list string := ["type"; "history_limit"].

Definition encode_memory (m : MemoryConfig) : json :=
  JObj ([("type", of_opt_str (memory_type m));
         ("history_limit", of_opt_num (history_limit m))]
        ++ memory_extra m).

Definition decode_memory (j : json) : option MemoryConfig :=
  match j with
  | JObj ms =>
      t ← field as_opt_str None "type" ms;
      h ← field as_opt_num None "history_limit" ms;
      Some {| memory_type := t; history_limit := h;
              memory_extra := unknown memory_keys ms |}
  | _ => None
  end.

Definition settings_keys : list string :=
  ["version"; "providers"; "skills"; "telemetry"; "memory"].

Definition encode (s : AgentSettings) : json :=
  JObj ([("version", JStr (version s));
         ("providers", encode_providers (providers s));
         ("skills", encode_skills (skills s));
         ("telemetry", encode_telemetry (telemetry s));
         ("memory", encode_memory (memory s))]
        ++ extra s).

Definition decode (j : json) : option AgentSettings :=
  match j with
  | JObj ms =>
      v ← field as_str (version get_default_config) "version" ms;
      p ← field decode_providers (providers get_default_config)
            "providers" ms;
      s ← field decode_skills (skills get_default_config) "skills" ms;
      t ← field decode_telemetry (telemetry get_default_config)
            "telemetry" ms;
      m ← field decode_memory (memory get_default_config) "memory" ms;
      Some {| version := v; providers := p; skills := s; telemetry := t;
              memory := m; extra := unknown settings_keys ms |}
  | _ => None
  end.

(** *** The store *)

(** The files of the configuration directory: path to parsed content. *)
Abbreviation Files := (gmap string json).

Definition temp_path (path : string) : string := path ++ ".tmp".

(** Modelled from the spec: [save_config] of [agent.config.manager] is not
    among the sources.  Section 4.3: the whole document is written to a
    temporary file, which is then renamed over the target. *)
Definition save_config (settings : AgentSettings) (path : string)
    (files : Files) : Files :=
  let written := <[temp_path path := encode settings]> files in
  match written !! temp_path path with
  | Some doc => <[path := doc]> (delete (temp_path path) written)
  | None => written
  end.

(** Modelled from the spec: [load_config] of [agent.config.manager] is not
    among the sources.  Section 4.3: a missing file yields the compiled
    defaults, a malformed document fails with [ConfigurationError]. *)
Definition load_config (path : string) (files : Files)
    : result AgentSettings :=
  match files !! path with
  | None => Ok get_default_config
  | Some doc =>
      match decode doc with
      | Some s => Ok s
      | None => Err (ConfigurationError "invalid settings document")
      end
  end.

(** *** Well-formed documents *)

(** The unknown members of a table do not reuse one of its known keys. *)
Definition fresh (known : list string) (ms : members) : bool :=
  forallb (fun kv => negb (is_known known (fst kv))) ms.

Definition wf_provider (kv : string * ProviderConfig) : bool :=
  negb (String.eqb (fst kv) "enabled")
  && fresh provider_keys (provider_extra (snd kv)).

Definition wf_plugin (p : PluginSkillSource) : bool :=
  fresh plugin_keys (plugin_extra p).

Definition wf_settings (s : AgentSettings) : bool :=
  forallb wf_provider (providers_table (providers s))
  && forallb wf_plugin (plugins (skills s))
  && fresh skills_keys (skills_extra (skills s))
  && fresh telemetry_keys (telemetry_extra (telemetry s))
  && fresh memory_keys (memory_extra (memory s))
  && fresh settings_keys (extra s).

End ConfigStore.

(** ** Layered resolution ([AgentConfig.from_combined]) *)

Module ConfigResolver.
Import Schema ConfigStore.

(** The layer that supplied a value. *)
Inductive source : Type := FromCli | FromFile | FromEnv | FromDefault.

(** Modelled from the spec: the fallback chain of section 4.4, which
    [AgentConfig.from_combined] applies to each field and which is not among
    the sources.  Highest precedence first: command line, settings file,
    environment, compiled default.  A layer is absent when it holds [None];
    the compiled default may itself be Python's [None]. *)
Definition resolve_field {V : Type} (cli file env dflt : option V)
    : option V * source :=
  match cli with
  | Some v => (Some v, FromCli)
  | None =>
      match file with
      | Some v => (Some v, FromFile)
      | None =>
          match env with
          | Some v => (Some v, FromEnv)
          | None => (dflt, FromDefault)
          end
      end
  end.

(** The value of a configuration field. *)
Inductive setting : Type :=
  | SStr (s : string)
  | SBool (b : bool)
  | SInt (n : Z)
  | SNames (names : list string)
  | SPlugins (sources : list PluginSkillSource).

(** Modelled from the spec: the fields of the effective configuration,
    as section 3 lists them: the selected provider, the credentials, model
    and endpoint of every provider, the telemetry flag and endpoint, the
    memory type and history limit, and the skill settings. *)
Inductive Field : Type :=
  | LlmProvider
  | ApiKey (provider : string)
  | Model (provider : string)
  | Endpoint (provider : string)
  | EnableOtel
  | OtlpEndpoint
  | MemoryType
  | MemoryHistoryLimit
  | BundledDir
  | DisabledBundled
  | Plugins.

(** The entry of a key in a table. *)
Definition table_entry {A} (key : string) (table : list (string * A))
    : option A :=
  snd <$> List.find (fun kv => String.eqb (fst kv) key) table.

(** The environment variable each field falls back to, if it has one: the
    variables the sources read for the providers, and one per telemetry and
    memory setting (section 6); the skill settings have none. *)
Definition env_var (f : Field) : option string :=
  match f with
  | LlmProvider => Some "LLM_PROVIDER"
  | ApiKey p =>
      table_entry p
        [("openai", "OPENAI_API_KEY"); ("anthropic", "ANTHROPIC_API_KEY");
         ("azure", "AZURE_OPENAI_API_KEY"); ("gemini", "GEMINI_API_KEY")]
  | Model p =>
      table_entry p
        [("openai", "OPENAI_MODEL"); ("anthropic", "ANTHROPIC_MODEL");
         ("azure", "AZURE_OPENAI_DEPLOYMENT_NAME");
         ("foundry", "AZURE_MODEL_DEPLOYMENT"); ("gemini", "GEMINI_MODEL")]
  | Endpoint p =>
      table_entry p
        [("azure", "AZURE_OPENAI_ENDPOINT");
         ("foundry", "AZURE_PROJECT_ENDPOINT")]
  | EnableOtel => Some "ENABLE_OTEL"
  | OtlpEndpoint => Some "OTLP_ENDPOINT"
  | MemoryType => Some "MEMORY_TYPE"
  | MemoryHistoryLimit => Some "MEMORY_HISTORY_LIMIT"
  | BundledDir | DisabledBundled | Plugins => None
  end.

(** A decimal numeral. *)
Definition parse_int (raw : string) : option Z :=
  if String.eqb raw "" then None
  else Z.of_int <$> NilEmpty.int_of_string raw.

(** The value a field reads from the text of its variable: the flag is on
    when the text is [true], the limit is a decimal numeral, every other
    field takes the text as it is.  [None] when the text cannot be read. *)
Definition read_env (f : Field) (raw : string) : option setting :=
  match f with
  | EnableOtel => Some (SBool (String.eqb raw "true"))
  | MemoryHistoryLimit => SInt <$> parse_int raw
  | _ => Some (SStr raw)
  end.

(** The compiled defaults: the models of the [AgentConfig] dataclass;
    telemetry is off, memory is kept in the process with 20 messages of
    history, nothing is disabled and nothing is installed. *)
Definition compiled_default (f : Field) : option setting :=
  match f with
  | Model p =>
      SStr <$> table_entry p
                 [("openai", "gpt-5-mini");
                  ("anthropic", "claude-sonnet-4-5-20250929")]
  | EnableOtel => Some (SBool false)
  | MemoryType => Some (SStr "in_memory")
  | MemoryHistoryLimit => Some (SInt 20)
  | DisabledBundled => Some (SNames [])
  | Plugins => Some (SPlugins [])
  | _ => None
  end.

Definition provider_entry (s : AgentSettings) (p : string)
    : option ProviderConfig :=
  table_entry p (providers_table (providers s)).

(** Where each field lives in the settings document: a field is absent
    when the document holds [None] for it.  The selected provider is the
    first entry of the enabled list. *)
Definition file_layer (s : AgentSettings) (f : Field) : option setting :=
  match f with
  | LlmProvider => SStr <$> head (providers_enabled (providers s))
  | ApiKey p => SStr <$> (provider_entry s p ≫= api_key)
  | Model p => SStr <$> (provider_entry s p ≫= model)
  | Endpoint p => SStr <$> (provider_entry s p ≫= endpoint)
  | EnableOtel => SBool <$> telemetry_enabled (telemetry s)
  | OtlpEndpoint => SStr <$> otlp_endpoint (telemetry s)
  | MemoryType => SStr <$> memory_type (memory s)
  | MemoryHistoryLimit => SInt <$> history_limit (memory s)
  | BundledDir => SStr <$> bundled_dir (skills s)
  | DisabledBundled => Some (SNames (disabled_bundled (skills s)))
  | Plugins => Some (SPlugins (plugins (skills s)))
  end.

Definition env_layer (env : Config.Env) (f : Field) : option setting :=
  var ← env_var f; raw ← Config.getenv env var; read_env f raw.

(** The variable of the field is set to a text that cannot be read. *)
Definition malformed (env : Config.Env) (f : Field) : bool :=
  match env_var f ≫= Config.getenv env with
  | Some raw => bool_decide (read_env f raw = None)
  | None => false
  end.

Definition lookup (cli : Field → option setting) (s : AgentSettings)
    (env : Config.Env) (f : Field) : option setting * source :=
  resolve_field (cli f) (file_layer s f) (env_layer env f)
    (compiled_default f).

(** The snapshot: the selected provider, the enabled providers in the
    order of the file, and for every field its resolved value and the layer
    that supplied it. *)
Record EffectiveConfig : Type := mkEffectiveConfig {
  llm_provider : string;
  enabled_providers : list string;
  value : Field → option setting;
  config_source : Field → source
}.

(** The fields a provider cannot run without: its credential or its
    endpoint. *)
Definition mandatory (provider : string) : list Field :=
  if String.eqb provider "openai" then [ApiKey "openai"]
  else if String.eqb provider "anthropic" then [ApiKey "anthropic"]
  else if String.eqb provider "gemini" then [ApiKey "gemini"]
  else if String.eqb provider "azure" then [Endpoint "azure"]
  else if String.eqb provider "foundry" then [Endpoint "foundry"]
  else [].

(** Modelled from the spec: [AgentConfig.from_combined] (section 4.4,
    [resolve(cli_overrides, file_path)]) is not among the sources.  The
    file is loaded through the store, every field goes through the fallback
    chain, and resolution fails when a variable of the environment cannot
    be read (section 7: malformed input), when no provider is selected, or
    when a mandatory field of the selected provider is still absent. *)
Definition resolve (cli : Field → option setting) (path : string)
    (files : Files) (env : Config.Env) : result EffectiveConfig :=
  match load_config path files with
  | Err e => Err e
  | Abort signal => Abort signal
  | Ok s =>
      let get f := fst (lookup cli s env f) in
      if malformed env EnableOtel || malformed env MemoryHistoryLimit then
        Err (ConfigurationError "malformed environment value")
      else
        match get LlmProvider with
        | Some (SStr p) =>
            if forallb (fun f => bool_decide (is_Some (get f))) (mandatory p)
            then Ok {| llm_provider := p;
                       enabled_providers := providers_enabled (providers s);
                       value := get;
                       config_source := fun f => snd (lookup cli s env f) |}
            else Err (ConfigurationError "missing mandatory provider field")
        | _ => Err (ConfigurationError "no provider enabled")
        end
  end.

End ConfigResolver.

(** ** [src/agent/cli/skill_commands.py] *)

Module SkillCommands.
Import Schema.

(** The skill directories on disk: a directory that exists is mapped to the
    names of the skill directories [SkillLoader.scan_skill_directory] finds
    in it, in scan order. *)
Abbreviation Disk := (gmap string (list string)).

(** What [SkillManager.install] returns for one discovered unit. *)
Record SkillEntry : Type := mkSkillEntry {
  entry_name : string;
  name_canonical : string;
  entry_installed_path : string
}.

(** The collaborators the commands import.  [normalize_skill_name] is
    [agent.skills.security.normalize_skill_name]; the three [manager_*]
    fields are the methods of [agent.skills.manager.SkillManager], which
    work on the disk and may raise or be interrupted; [repo_skills_core] is the auto-detected
    [repo_root / "skills" / "core"]. *)
Class Host : Type := mkHost {
  normalize_skill_name : string → string;
  repo_skills_core : string;
  manager_install :
    string → option string → string → Disk → result (list SkillEntry) * Disk;
  manager_update : string → Disk → result string * Disk;
  manager_remove : string → Disk → result unit * Disk
}.

(** What the console receives.  Rich markup is dropped from the lines; a
    table keeps, per row, the name, the status ([true] for enabled) and, for
    plugins, the branch. *)
Inductive output : Type :=
  | Line (text : string)
  | BundledTable (rows : list (string * bool))
  | PluginTable (rows : list (string * bool * string)).

(** The state the commands act on: the persisted settings document as
    [load_config()] finds it ([None] when it is malformed), the skill
    directories, and what was printed so far. *)
Record World : Type := mkWorld {
  stored : option AgentSettings;
  disk : Disk;
  console : list output
}.

(** A command: it may raise, and it keeps the effects it had until then. *)
Definition Cmd (A : Type) : Type := World → result A * World.

#[global] Instance cmd_ret : MRet Cmd := λ A a w, (Ok a, w).
#[global] Instance cmd_bind : MBind Cmd := λ A B k c w,
  match c w with
  | (Ok a, w') => k a w'
  | (Err e, w') => (Err e, w')
  | (Abort signal, w') => (Abort signal, w')
  end.

Definition raise {A} (e : exn) : Cmd A := λ w, (Err e, w).

(** [try: body except Exception as e: handler(e)]; what does not derive
    from [Exception] passes through. *)
Definition try_except {A} (body : Cmd A) (handler : exn → Cmd A) : Cmd A :=
  λ w, match body w with
       | (Ok a, w') => (Ok a, w')
       | (Err e, w') => handler e w'
       | (Abort signal, w') => (Abort signal, w')
       end.

Definition print (text : string) : Cmd unit :=
  λ w, (Ok (), {| stored := stored w; disk := disk w;
                  console := console w ++ [Line text] |}).

Definition show (o : output) : Cmd unit :=
  λ w, (Ok (), {| stored := stored w; disk := disk w;
                  console := console w ++ [o] |}).

Definition load_config : Cmd AgentSettings :=
  λ w, match stored w with
       | Some s => (Ok s, w)
       | None => (Err (ConfigurationError "invalid settings document"), w)
       end.

Definition save_config (settings : AgentSettings) : Cmd unit :=
  λ w, (Ok (), {| stored := Some settings; disk := disk w;
                  console := console w |}).

(** Runs a method of the skill manager against the disk. *)
Definition on_disk {A} (f : Disk → result A * Disk) : Cmd A :=
  λ w, let '(r, d) := f (disk w) in
       (r, {| stored := stored w; disk := d; console := console w |}).

Definition read_disk : Cmd Disk := λ w, (Ok (disk w), w).

Section Commands.
Context `{Host}.

(** [next((p for p in plugins if normalize_skill_name(p.name) == c), None)],
    with the position of the plugin found, through which it is mutated. *)
Definition find_plugin (canonical_name : string)
    (ps : list PluginSkillSource) : option (nat * PluginSkillSource) :=
  list_find (λ p, normalize_skill_name (name p) = canonical_name) ps.

(** *** [list_skills] *)

(** Lines 41-58: the bundled directory and its scan. *)
Definition bundled_skills (settings : AgentSettings) (d : Disk)
    : list string :=
  let bundled_dir :=
    match bundled_dir (skills settings) with
    | None => repo_skills_core
    | Some dir => dir
    end in
  match d !! bundled_dir with
  | Some found => found
  | None => []
  end.

Definition bundled_rows (settings : AgentSettings) (found : list string)
    : list (string * bool) :=
  let disabled :=
    List.map normalize_skill_name (disabled_bundled (skills settings)) in
  List.map (λ skill_name,
    (skill_name,
     negb (bool_decide (normalize_skill_name skill_name ∈ disabled))))
    found.

Definition summary (settings : AgentSettings) (found : list string)
    : string :=
  let total_bundled := Z.of_nat (length found) in
  let total_plugins := length (plugins (skills settings)) in
  let enabled_bundled :=
    (total_bundled
     - Z.of_nat (length (disabled_bundled (skills settings))))%Z in
  let enabled_plugins :=
    length (List.filter enabled (plugins (skills settings))) in
  "Summary: " ++ pretty enabled_bundled ++ "/" ++ pretty total_bundled
  ++ " bundled enabled, " ++ pretty enabled_plugins ++ "/"
  ++ pretty total_plugins ++ " plugins enabled".

Definition list_skills : Cmd unit :=
  print "Agent Skills";;
  try_except
    (settings ← load_config;
     d ← read_disk;
     let found := bundled_skills settings d in
     (if bool_decide (found = []) then print "No bundled skills found"
      else show (BundledTable (bundled_rows settings found));;
           print "");;
     (if bool_decide (plugins (skills settings) = [])
      then print "No plugin skills installed"
      else show (PluginTable
             (List.map (λ p, (name p, enabled p, branch p))
                (plugins (skills settings))));;
           print "");;
     print (summary settings found);;
     print "")
    (λ e, print ("Error listing skills: " ++ exn_str e);;
          raise (Exit 1)).

(** *** [install_skill] *)

(** Lines 156-179: one turn of the loop on the plugin list. *)
Definition record_entry (git_url branch : string) (entry : SkillEntry)
    (ps : list PluginSkillSource) : list PluginSkillSource :=
  let canonical_name := name_canonical entry in
  match find_plugin canonical_name ps with
  | Some (i, existing) =>
      <[i := {| name := name existing;
                git_url := git_url;
                branch := branch;
                enabled := true;
                installed_path := Some (entry_installed_path entry);
                plugin_extra := plugin_extra existing |}]> ps
  | None =>
      ps ++ [{| name := canonical_name;
                git_url := git_url;
                branch := branch;
                enabled := true;
                installed_path := Some (entry_installed_path entry);
                plugin_extra := [] |}]
  end.

(** Lines 155-179: the loop, on the settings object loaded before. *)
Fixpoint add_to_config (git_url branch : string)
    (entries : list SkillEntry) (settings : AgentSettings)
    : Cmd AgentSettings :=
  match entries with
  | [] => mret settings
  | entry :: rest =>
      match find_plugin (name_canonical entry)
              (plugins (skills settings)) with
      | Some _ => print ("Skill '" ++ entry_name entry
                         ++ "' already in config, updating...")
      | None => mret ()
      end;;
      add_to_config git_url branch rest
        (with_plugins
           (record_entry git_url branch entry (plugins (skills settings)))
           settings)
  end.

Definition show_installed (entries : list SkillEntry) : Cmd unit :=
  match entries with
  | [entry] =>
      print ("Installed skill: " ++ entry_name entry);;
      print ("Location: " ++ entry_installed_path entry)
  | _ =>
      print ("Installed " ++ pretty (length entries) ++ " skills:");;
      foldr (λ entry rest,
               print ("  " ++ entry_name entry);;
               print ("    " ++ entry_installed_path entry);;
               rest)
            (print "") entries
  end.

Definition install_skill (git_url : string) (name : option string)
    (branch : string) : Cmd unit :=
  print ("Installing skill(s) from: " ++ git_url);;
  try_except
    (settings ← load_config;
     print "Cloning repository...";;
     installed_entries ← on_disk (manager_install git_url name branch);
     show_installed installed_entries;;
     settings ← add_to_config git_url branch installed_entries settings;
     save_config settings;;
     print "Configuration updated";;
     match installed_entries with
     | [entry] =>
         print ("Skill '" ++ entry_name entry
                ++ "' is now enabled. Restart agent to load.")
     | _ =>
         print ("All " ++ pretty (length installed_entries)
                ++ " skills are now enabled. Restart agent to load.")
     end)
    (λ e, print ("Error installing skill: " ++ exn_str e);;
          raise (Exit 1)).

(** *** [update_skill] *)

Definition not_found (skill : string) : Cmd unit :=
  print ("Error: Skill '" ++ skill ++ "' not found in plugin list");;
  print "Run 'agent skill list' to see installed skills";;
  raise (Exit 1).

Definition update_skill (skill : string) : Cmd unit :=
  print ("Updating skill: " ++ skill);;
  try_except
    (settings ← load_config;
     let canonical_name := normalize_skill_name skill in
     match find_plugin canonical_name (plugins (skills settings)) with
     | None => not_found skill
     | Some (_, plugin) =>
         print ("Pulling latest changes from " ++ branch plugin
                ++ " branch...");;
         updated_path ← on_disk (manager_update canonical_name);
         print ("Updated skill: " ++ skill);;
         print ("Location: " ++ updated_path);;
         print "Restart agent to load updated version."
     end)
    (λ e, print ("Error updating skill: " ++ exn_str e);;
          raise (Exit 1)).

(** *** [remove_skill] *)

(** [confirm] is the answer [Confirm.ask] gets from the user. *)
Definition remove_skill (skill : string) (keep_files : bool)
    (confirm : bool) : Cmd unit :=
  print ("Removing skill: " ++ skill);;
  try_except
    (settings ← load_config;
     let canonical_name := normalize_skill_name skill in
     match find_plugin canonical_name (plugins (skills settings)) with
     | None => not_found skill
     | Some _ =>
         if negb confirm then print "Cancelled"
         else
           (if negb keep_files then
              print "Deleting skill files...";;
              on_disk (manager_remove canonical_name);;
              print "Deleted skill files"
            else mret ());;
           save_config
             (with_plugins
                (filter (λ p, normalize_skill_name (name p)
                              ≠ canonical_name)
                   (plugins (skills settings)))
                settings);;
           print ("Removed '" ++ skill ++ "' from configuration")
     end)
    (λ e, print ("Error removing skill: " ++ exn_str e);;
          raise (Exit 1)).

(** *** [enable_skill] and [disable_skill] *)

Definition enable_skill (skill : string) : Cmd unit :=
  print ("Enabling skill: " ++ skill);;
  try_except
    (settings ← load_config;
     let canonical_name := normalize_skill_name skill in
     match find_plugin canonical_name (plugins (skills settings)) with
     | Some (i, plugin) =>
         if enabled plugin
         then print ("Skill '" ++ skill ++ "' is already enabled")
         else
           save_config
             (with_plugins
                (<[i := with_enabled true plugin]>
                   (plugins (skills settings)))
                settings);;
           print ("Enabled plugin skill: " ++ skill);;
           print "Restart agent to load skill.";;
           print ""
     | None =>
         (if bool_decide
               (canonical_name
                ∈ List.map normalize_skill_name
                    (disabled_bundled (skills settings)))
          then
            save_config
              (with_disabled_bundled
                 (filter (λ s, normalize_skill_name s ≠ canonical_name)
                    (disabled_bundled (skills settings)))
                 settings);;
            print ("Enabled bundled skill: " ++ skill);;
            print "Restart agent to load skill."
          else
            print ("Bundled skill '" ++ skill
                   ++ "' is already enabled (not in disabled list)"));;
         print ""
     end)
    (λ e, print ("Error enabling skill: " ++ exn_str e);;
          raise (Exit 1)).

Definition disable_skill (skill : string) : Cmd unit :=
  print ("Disabling skill: " ++ skill);;
  try_except
    (settings ← load_config;
     let canonical_name := normalize_skill_name skill in
     match find_plugin canonical_name (plugins (skills settings)) with
     | Some (i, plugin) =>
         if negb (enabled plugin)
         then print ("Skill '" ++ skill ++ "' is already disabled")
         else
           save_config
             (with_plugins
                (<[i := with_enabled false plugin]>
                   (plugins (skills settings)))
                settings);;
           print ("Disabled plugin skill: " ++ skill);;
           print ""
     | None =>
         (if bool_decide
               (canonical_name
                ∉ List.map normalize_skill_name
                    (disabled_bundled (skills settings)))
          then
            save_config
              (with_disabled_bundled
                 (disabled_bundled (skills settings) ++ [canonical_name])
                 settings);;
            print ("Disabled bundled skill: " ++ skill)
          else
            print ("Bundled skill '" ++ skill ++ "' is already disabled"));;
         print ""
     end)
    (λ e, print ("Error disabling skill: " ++ exn_str e);;
          raise (Exit 1)).

(** *** Vocabulary of the properties *)

(** The identity under which a plugin is looked up. *)
Definition canonical_key (p : PluginSkillSource) : string :=
  normalize_skill_name (name p).

(** A name the canonicaliser leaves alone. *)
Definition is_canonical (n : string) : Prop :=
  normalize_skill_name n = n.

(** The plugin list after the loop of [install_skill] has run. *)
Definition recorded (git_url branch : string) (entries : list SkillEntry)
    (ps : list PluginSkillSource) : list PluginSkillSource :=
  foldl (λ acc entry, record_entry git_url branch entry acc) ps entries.

(** The entry [install_skill] writes over an existing one. *)
Definition overwritten (git_url branch : string) (entry : SkillEntry)
    (existing : PluginSkillSource) : PluginSkillSource :=
  {| name := name existing;
     git_url := git_url;
     branch := branch;
     enabled := true;
     installed_path := Some (entry_installed_path entry);
     plugin_extra := plugin_extra existing |}.

(** The plugin [p] is the record of the discovered unit [entry]: it is the
    one the duplicate check of [install_skill] matches or the one created
    under the canonical name of the unit, and it carries the source of this
    install, enabled. *)
Definition registers (git_url' branch' : string) (entry : SkillEntry)
    (p : PluginSkillSource) : Prop :=
  (canonical_key p = name_canonical entry ∨ name p = name_canonical entry)
  ∧ enabled p = true ∧ git_url p = git_url' ∧ branch p = branch'.

(** What auto-detection finds, whatever the settings say. *)
Definition auto_detected (d : Disk) : list string :=
  match d !! repo_skills_core with
  | Some found => found
  | None => []
  end.

End Commands.

(** A command that only prints: it returns, and leaves the settings document
    and the disk as they are. *)
Definition only_prints (c : Cmd unit) : Prop :=
  ∀ w, ∃ out,
    c w = (Ok (), {| stored := stored w; disk := disk w;
                     console := (console w ++ out)%list |}).

(** *** A host to run the commands on

    Names are canonicalised as section 4.1 asks, with at most 64
    characters; a clone discovers the units it is told to, under the
    managed root; an update needs the directory of the skill; a removal
    deletes it. *)
Definition managed_root : string := "/home/agent/.agent/skills".

Definition managed_path (canonical_name : string) : string :=
  managed_root ++ "/" ++ canonical_name.

Definition scripted_host (discovered : list SkillEntry) : Host :=
  {| normalize_skill_name := NameCanonicalizer.canonicalize 64;
     repo_skills_core := "/opt/agent/skills/core";
     manager_install := λ _ _ _ d,
       (Ok discovered,
        foldr (λ entry acc,
                 <[entry_installed_path entry := [entry_name entry]]> acc)
              d discovered);
     manager_update := λ canonical_name d,
       match d !! managed_path canonical_name with
       | Some _ => (Ok (managed_path canonical_name), d)
       | None => (Err (SkillNotFoundError canonical_name), d)
       end;
     manager_remove := λ canonical_name d,
       (Ok (), delete (managed_path canonical_name) d) |}.

End SkillCommands.

(** ** Documents and environments used as examples *)

Module Examples.
Import Schema ConfigStore.

(** A settings document with members no table knows. *)
Definition annotated_settings : AgentSettings :=
  {| version := "1.0";
     providers :=
       {| providers_enabled := ["local"; "openai"];
          providers_table :=
            [("local", default_provider);
             ("openai",
              {| provider_enabled := true; api_key := Some "sk-test";
                 model := None; endpoint := None;
                 provider_extra := [("organization", JStr "acme")] |})] |};
     skills :=
       {| bundled_dir := None; disabled_bundled := ["web-search"];
          plugins :=
            [{| name := "kalshi-markets";
                git_url := "https://host/repo.git"; branch := "main";
                enabled := false; installed_path := None;
                plugin_extra := [("pinned", JBool true)] |}];
          skills_extra := [("user_dir", JNull)] |};
     telemetry := {| telemetry_enabled := Some true;
                     otlp_endpoint := Some "http://custom:4318";
                     telemetry_extra := [] |};
     memory := {| memory_type := Some "mem0"; history_limit := Some 10%Z;
                  memory_extra := [("mem0", JObj [("org_id", JStr "org-123")])] |};
     extra := [("theme", JStr "dark"); ("retries", JNum 3)] |}.

(** The example of section 8: the file enables [openai] with its key, the
    environment holds another key. *)
Definition file_settings : AgentSettings :=
  {| version := "1.0";
     providers :=
       {| providers_enabled := ["openai"];
          providers_table :=
            [("openai",
              {| provider_enabled := true; api_key := Some "file-key";
                 model := None; endpoint := None; provider_extra := [] |})] |};
     skills := skills get_default_config;
     telemetry := telemetry get_default_config;
     memory := memory get_default_config;
     extra := [] |}.

Definition settings_path : string := "/home/agent/.agent/settings.json".

Definition example_files : Files := save_config file_settings settings_path ∅.

(** The environment of the examples: another key, and the variables of
    [test_file_priority_over_env]. *)
Definition example_env : Config.Env :=
  {[ "OPENAI_API_KEY" := "env-key"; "OTLP_ENDPOINT" := "http://env:4318";
     "ENABLE_OTEL" := "true"; "MEMORY_HISTORY_LIMIT" := "50" ]}.

Definition example_cli (f : ConfigResolver.Field)
    : option ConfigResolver.setting :=
  match f with
  | ConfigResolver.Model p =>
      if String.eqb p "openai" then Some (ConfigResolver.SStr "gpt-4o")
      else None
  | _ => None
  end.

(** The document of [test_file_priority_over_env]: [local] is enabled,
    telemetry is explicitly off and the history limit is 10. *)
Definition priority_settings : AgentSettings :=
  {| version := "1.0";
     providers :=
       {| providers_enabled := ["local"];
          providers_table := providers_table (providers get_default_config) |};
     skills := skills get_default_config;
     telemetry := {| telemetry_enabled := Some false; otlp_endpoint := None;
                     telemetry_extra := [] |};
     memory := {| memory_type := None; history_limit := Some 10%Z;
                  memory_extra := [] |};
     extra := [] |}.

Definition priority_files : Files :=
  save_config priority_settings settings_path ∅.

(** No provider is selected without opt-in: when [LLM_PROVIDER] is unset,
    [AgentConfig.from_env] names none of the providers [validate]
    supports. *)
Definition from_env_requires_opt_in : Prop :=
  ∀ home expanduser (env : Config.Env),
    Config.getenv env "LLM_PROVIDER" = None →
    Config.llm_provider (Config.from_env home expanduser env)
    ∉ Config.supported_providers.

(** The host of most examples clones nothing. *)
Definition host : SkillCommands.Host := SkillCommands.scripted_host [].

(** A checkout whose bundled directory holds one skill. *)
Definition bundled_disk : SkillCommands.Disk :=
  {[ "/opt/agent/skills/core" := ["test-skill"] ]}.

(** The settings of [test_show_skills_with_nonexistent_bundled_dir_...]: the
    configured bundled directory does not exist. *)
Definition stale_settings : AgentSettings :=
  {| version := "1.0";
     providers := providers get_default_config;
     skills := {| bundled_dir := Some "/nonexistent/path/to/skills";
                  disabled_bundled := []; plugins := [];
                  skills_extra := [] |};
     telemetry := telemetry get_default_config;
     memory := memory get_default_config;
     extra := [] |}.

Definition stale_world : SkillCommands.World :=
  {| SkillCommands.stored := Some stale_settings;
     SkillCommands.disk := bundled_disk;
     SkillCommands.console := [] |}.

Definition fresh_world : SkillCommands.World :=
  {| SkillCommands.stored := Some get_default_config;
     SkillCommands.disk := bundled_disk;
     SkillCommands.console := [] |}.

(** A plugin recorded under a raw name, and switched off. *)
Definition my_skill : PluginSkillSource :=
  {| name := "My_Skill";
     git_url := "https://host/old.git";
     branch := "dev";
     enabled := false;
     installed_path := Some (SkillCommands.managed_path "my-skill");
     plugin_extra := [] |}.

Definition plugin_settings : AgentSettings :=
  with_plugins [my_skill] get_default_config.

Definition plugin_world : SkillCommands.World :=
  {| SkillCommands.stored := Some plugin_settings;
     SkillCommands.disk :=
       <[SkillCommands.managed_path "my-skill" := ["my-skill"]]> bundled_disk;
     SkillCommands.console := [] |}.

(** The unit a clone of the repository of [my_skill] discovers. *)
Definition my_skill_entry : SkillCommands.SkillEntry :=
  {| SkillCommands.entry_name := "My Skill";
     SkillCommands.name_canonical := "my-skill";
     SkillCommands.entry_installed_path :=
       SkillCommands.managed_path "my-skill" |}.

Definition cloning_host : SkillCommands.Host :=
  SkillCommands.scripted_host [my_skill_entry].

End Examples.

(** ** Python strings *)

Module Text.

(** A Python [str] is a sequence of code points, and [len] and slices count
    code points.  A [string] holds the UTF-8 encoding of the text: every code
    point is one byte that is no continuation byte, followed by its
    continuation bytes (the bytes [10xxxxxx]). *)
Definition is_continuation (c : ascii) : bool :=
  match c with Ascii _ _ _ _ _ _ b6 b7 => b7 && negb b6 end.

(** [len(s)] *)
Fixpoint text_len (s : string) : nat :=
  match s with
  | EmptyString => 0
  | String c rest =>
      if is_continuation c then text_len rest else S (text_len rest)
  end.

(** [s[:n]] *)
Fixpoint text_take (n : nat) (s : string) : string :=
  match s with
  | EmptyString => EmptyString
  | String c rest =>
      if is_continuation c then String c (text_take n rest)
      else
        match n with
        | 0 => EmptyString
        | S n' => String c (text_take n' rest)
        end
  end.

(** [s[n:]] *)
Fixpoint text_drop (n : nat) (s : string) : string :=
  match s with
  | EmptyString => EmptyString
  | String c rest =>
      if is_continuation c then text_drop n rest
      else
        match n with
        | 0 => s
        | S n' => text_drop n' rest
        end
  end.

(** [s[-n:]], for [n] above 0: the last [n] code points of [s], [s] itself
    when it has fewer. *)
Definition text_last (n : nat) (s : string) : string :=
  text_drop (text_len s - n) s.

End Text.

(** ** The settings the toggles leave behind *)

Module Toggles.
Import Schema SkillCommands.

Section Toggles.
Context `{Host}.

(** The document [disable_skill] leaves stored, lines 342-361. *)
Definition disabled_by (skill : string) (s : AgentSettings) : AgentSettings :=
  let canonical_name := normalize_skill_name skill in
  match find_plugin canonical_name (plugins (skills s)) with
  | Some (i, plugin) =>
      if negb (enabled plugin) then s
      else with_plugins
             (<[i := with_enabled false plugin]> (plugins (skills s))) s
  | None =>
      if bool_decide
           (canonical_name
            ∉ List.map normalize_skill_name (disabled_bundled (skills s)))
      then with_disabled_bundled
             (disabled_bundled (skills s) ++ [canonical_name]) s
      else s
  end.

(** The document [enable_skill] leaves stored, lines 293-317. *)
Definition enabled_by (skill : string) (s : AgentSettings) : AgentSettings :=
  let canonical_name := normalize_skill_name skill in
  match find_plugin canonical_name (plugins (skills s)) with
  | Some (i, plugin) =>
      if enabled plugin then s
      else with_plugins
             (<[i := with_enabled true plugin]> (plugins (skills s))) s
  | None =>
      if bool_decide
           (canonical_name
            ∈ List.map normalize_skill_name (disabled_bundled (skills s)))
      then with_disabled_bundled
             (filter (λ n, normalize_skill_name n ≠ canonical_name)
                (disabled_bundled (skills s))) s
      else s
  end.

(** The skill the name stands for is switched on: its plugin is enabled, or,
    when no plugin has the name, no disabled bundled skill has it. *)
Definition switched_on (skill : string) (s : AgentSettings) : Prop :=
  match find_plugin (normalize_skill_name skill) (plugins (skills s)) with
  | Some (_, plugin) => enabled plugin = true
  | None =>
      normalize_skill_name skill
      ∉ List.map normalize_skill_name (disabled_bundled (skills s))
  end.

End Toggles.
End Toggles.

(** ** Hosts whose skill manager fails, is interrupted, or clones a monorepo *)

Module Offline.
Import SkillCommands.

(** Names are canonicalised as before; every operation of the skill manager
    raises and leaves the disk as it is. *)
Definition offline_host : Host :=
  {| normalize_skill_name := NameCanonicalizer.canonicalize 64;
     repo_skills_core := "/opt/agent/skills/core";
     manager_install := λ _ _ _ d, (Err (Raised "git clone failed"), d);
     manager_update := λ _ d, (Err (Raised "git pull failed"), d);
     manager_remove := λ _ d, (Err (Raised "Permission denied"), d) |}.

(** A host whose user interrupts every operation of the skill manager. *)
Definition interrupted_host : Host :=
  {| normalize_skill_name := NameCanonicalizer.canonicalize 64;
     repo_skills_core := "/opt/agent/skills/core";
     manager_install := λ _ _ _ d, (Abort "KeyboardInterrupt", d);
     manager_update := λ _ d, (Abort "KeyboardInterrupt", d);
     manager_remove := λ _ d, (Abort "KeyboardInterrupt", d) |}.

(** A repository that holds two skills, as a clone discovers them. *)
Definition web_search : SkillEntry :=
  {| entry_name := "Web Search";
     name_canonical := "web-search";
     entry_installed_path := managed_path "web-search" |}.

Definition code_review : SkillEntry :=
  {| entry_name := "Code Review";
     name_canonical := "code-review";
     entry_installed_path := managed_path "code-review" |}.

Definition monorepo_host : Host := scripted_host [web_search; code_review].

End Offline.

(** ** [src/agent/agent.py] *)

Module AgentClient.
Import Config.

(** The chat client of the selected provider, with the arguments it is
    built from. *)
Inductive chat_client : Type :=
  | OpenAIChatClient (model_id : string) (api_key : option string)
  | AnthropicClient (model_id : string) (api_key : option string)
  | AzureAIAgentClient (project_endpoint model_deployment_name : option string).

(** [Agent._create_chat_client]: the client, or the [ValueError] raised for
    a provider it does not know. *)
Definition _create_chat_client (config : AgentConfig) : result chat_client :=
  if String.eqb (llm_provider config) "openai" then
    Ok (OpenAIChatClient (openai_model config) (openai_api_key config))
  else if String.eqb (llm_provider config) "anthropic" then
    Ok (AnthropicClient (anthropic_model config) (anthropic_api_key config))
  else if String.eqb (llm_provider config) "azure_ai_foundry" then
    Ok (AzureAIAgentClient (azure_project_endpoint config)
          (azure_model_deployment config))
  else
    Err (ValueError
      ("Unknown provider: " ++ llm_provider config
       ++ ". Supported: openai, anthropic, azure_ai_foundry")).

(** The credentials a client was given are all there. *)
Definition has_credentials (client : chat_client) : bool :=
  match client with
  | OpenAIChatClient _ key => truthy key
  | AnthropicClient _ key => truthy key
  | AzureAIAgentClient endpoint deployment =>
      truthy endpoint && truthy deployment
  end.

End AgentClient.

(** ** [src/agent/cli.py] *)

Module Cli.
Import Config AgentClient Text.

(** [agent.__version__] *)
Definition agent_version : string := "0.1.0".

(** [s[-n:]] *)
Definition last_chars (n : nat) (s : string) : string := text_last n s.

(** [f"{x}"] for an [str | None]. *)
Definition show_optional (o : option string) : string :=
  match o with Some s => s | None => "None" end.

(** How [Agent(config).run_stream(prompt)] ends. *)
Inductive ending : Type :=
  | Finished
  | Interrupted
  | Failed (e : exn).

Section Commands.
(** [Path.home()] and [Path.expanduser], as [AgentConfig.from_env] uses
    them, and the agent built on a chat client: the chunks it yields for a
    prompt and how the stream ends ([Interrupted] is [KeyboardInterrupt]). *)
Variable home : string.
Variable expanduser : string → string.
Variable run_stream : chat_client → string → list string * ending.

(** A command returns or raises, and prints lines on the way; Rich markup
    and the blank lines around a text are left out of the lines. *)

(** [run_health_check] *)
Definition run_health_check (env : Env) : result unit * list string :=
  let banner := "Agent Health Check" in
  let config := from_env home expanduser env in
  match validate config with
  | Ok _ =>
      (Ok (),
       [banner; "Configuration valid";
        "  Provider: " +:+ llm_provider config;
        "  Model: " +:+ get_model_display_name config]
       ++ match agent_data_dir config with
          | Some dir => ["  Data Dir: " +:+ dir]
          | None => []
          end
       ++ ["All checks passed!"])%list
  | Err (ValueError msg) =>
      (Err (Exit 1),
       [banner; "Configuration error: " +:+ msg;
        "See .env.example for configuration template"])
  | Err e => (Err (Exit 1), [banner; "Unexpected error: " +:+ exn_str e])
  | Abort signal => (Abort signal, [banner])
  end.

(** Lines 97-104 of [show_configuration]: the credential line. *)
Definition credential_lines (config : AgentConfig) : list string :=
  if String.eqb (llm_provider config) "openai"
     && truthy (openai_api_key config) then
    [" • API Key: ****" +:+ last_chars 6 (default "" (openai_api_key config))]
  else if String.eqb (llm_provider config) "anthropic"
          && truthy (anthropic_api_key config) then
    [" • API Key: ****" +:+ last_chars 6 (default "" (anthropic_api_key config))]
  else if String.eqb (llm_provider config) "azure_ai_foundry" then
    [" • Endpoint: " +:+ show_optional (azure_project_endpoint config)]
  else [].

(** [show_configuration] *)
Definition show_configuration (env : Env) : result unit * list string :=
  let config := from_env home expanduser env in
  (Ok (),
   ["Agent Configuration"; "LLM Provider:";
    " • Provider: " +:+ llm_provider config;
    " • Model: " +:+ get_model_display_name config]
   ++ credential_lines config
   ++ ["Agent Settings:";
       " • Data Directory: " +:+ show_optional (agent_data_dir config)]
   ++ match agent_session_dir config with
      | Some dir => [" • Session Directory: " +:+ dir]
      | None => []
      end
   ++ [""])%list.

Definition configuration_error (msg : string) : list string :=
  ["Configuration error: " +:+ msg; "Run 'agent --check' to diagnose issues"].

(** What is no [Exception] passes the handlers of [run_single_prompt],
    except [KeyboardInterrupt], which has its own. *)
Definition interrupted (signal : string) (out : list string)
    : result unit * list string :=
  if String.eqb signal "KeyboardInterrupt" then
    (Err (Exit 130), out ++ ["Interrupted by user"])%list
  else (Abort signal, out).

(** [run_single_prompt] *)
Definition run_single_prompt (env : Env) (prompt : string)
    : result unit * list string :=
  let config := from_env home expanduser env in
  match validate config with
  | Err (ValueError msg) => (Err (Exit 1), configuration_error msg)
  | Err e => (Err (Exit 1), ["Error: " +:+ exn_str e])
  | Abort signal => interrupted signal []
  | Ok _ =>
      let head := ["User: " +:+ prompt; "Agent: "] in
      match _create_chat_client config with
      | Err (ValueError msg) =>
          (Err (Exit 1), head ++ configuration_error msg)%list
      | Err e => (Err (Exit 1), head ++ ["Error: " +:+ exn_str e])%list
      | Abort signal => interrupted signal head
      | Ok client =>
          let '(chunks, how) := run_stream client prompt in
          match how with
          | Finished => (Ok (), head ++ chunks ++ [""])%list
          | Interrupted =>
              (Err (Exit 130), head ++ chunks ++ ["Interrupted by user"])%list
          | Failed (ValueError msg) =>
              (Err (Exit 1), head ++ chunks ++ configuration_error msg)%list
          | Failed e =>
              (Err (Exit 1), head ++ chunks ++ ["Error: " +:+ exn_str e])%list
          end
      end
  end.

(** [main]: the options are looked at in a fixed order, and an empty prompt
    counts as none. *)
Definition main (prompt : option string) (check config_flag version : bool)
    (env : Env) : result unit * list string :=
  if version then (Ok (), ["Agent version " ++ agent_version])
  else if check then run_health_check env
  else if config_flag then show_configuration env
  else if truthy prompt then run_single_prompt env (default "" prompt)
  else
    (Ok (),
     ["Interactive mode not implemented yet";
      "Use: agent -p 'your prompt here'";
      "Or: agent --help for more options"]).

End Commands.

(** The environment grants a provider what it needs: the provider named by
    [LLM_PROVIDER] ([openai] when unset) is one of the three supported and
    each variable it requires is set and not empty. *)
Definition environment_ready (env : Env) : Prop :=
  let provider := getenv_default env "LLM_PROVIDER" "openai" in
  (provider = "openai" ∧ truthy (getenv env "OPENAI_API_KEY") = true)
  ∨ (provider = "anthropic" ∧ truthy (getenv env "ANTHROPIC_API_KEY") = true)
  ∨ (provider = "azure_ai_foundry"
     ∧ truthy (getenv env "AZURE_PROJECT_ENDPOINT") = true
     ∧ truthy (getenv env "AZURE_MODEL_DEPLOYMENT") = true).

End Cli.

Module CliExamples.
Import Config AgentClient Cli.

(** An environment that names [anthropic] and holds its key. *)
Definition anthropic_env : Env :=
  {[ "LLM_PROVIDER" := "anthropic"; "ANTHROPIC_API_KEY" := "sk-ant-test" ]}.

(** An agent that yields two chunks and is interrupted. *)
Definition interrupted_stream (client : chat_client) (prompt : string)
    : list string * ending :=
  (["Hel"; "lo"], Interrupted).

End CliExamples.

(** ** [src/agent/config/editor.py] *)

Module Editor.
Import Config.

(** The [EditorError]s [open_in_editor] raises, by cause. *)
Inductive editor_error : Type :=
  | NoEditorFound
  | FileMissing (file_path : string)
  | EditorFailed (editor : string) (returncode : Z)
  | EditorNotInstalled (editor : string).

(** What becomes of the process [subprocess.run] starts: it exits with a
    return code, its executable is not found ([FileNotFoundError]), or the
    call raises something else. *)
Inductive spawned : Type :=
  | Exited (returncode : Z)
  | NotFound
  | Crashed (e : exn).

(** How [open_in_editor] and [edit_and_validate] end; [Aborts] is an
    exception that does not derive from [Exception]. *)
Inductive outcome (A : Type) : Type :=
  | Returns (a : A)
  | RaisesEditorError (e : editor_error)
  | Raises (e : exn)
  | Aborts (signal : string).
Arguments Returns {A} a.
Arguments RaisesEditorError {A} e.
Arguments Raises {A} e.
Arguments Aborts {A} signal.

Definition common_editors : list string := ["code"; "vim"; "nano"; "vi"].

Section System.
(** [which cmd] tells whether [shutil.which(cmd)] finds the command;
    [file_exists] is [Path.exists]; [spawn] is the operating system running
    the argument list. *)
Variable which : string → bool.
Variable file_exists : string → bool.
Variable spawn : list string → spawned.

(** [detect_editor] *)
Definition detect_editor (env : Env) : option string :=
  if truthy (getenv env "EDITOR") then getenv env "EDITOR"
  else if truthy (getenv env "VISUAL") then getenv env "VISUAL"
  else List.find which common_editors.

(** Lines 84-91: the argument list; [file_path] is [str(file_path)]. *)
Definition editor_args (editor : string) (wait : bool) (file_path : string)
    : list string :=
  if String.eqb editor "code" then
    List.filter (λ arg, negb (String.eqb arg ""))
      [editor; if wait then "--wait" else ""; file_path]
  else [editor; file_path].

(** [open_in_editor]; [subprocess.run] is called with [check=True], so a
    return code other than 0 raises [CalledProcessError]. *)
Definition open_in_editor (env : Env) (file_path : string) (wait : bool)
    : outcome bool :=
  match detect_editor env with
  | None => RaisesEditorError NoEditorFound
  | Some editor =>
      if negb (file_exists file_path) then
        RaisesEditorError (FileMissing file_path)
      else
        match spawn (editor_args editor wait file_path) with
        | Exited returncode =>
            if Z.eqb returncode 0 then Returns (Z.eqb returncode 0)
            else RaisesEditorError (EditorFailed editor returncode)
        | NotFound => RaisesEditorError (EditorNotInstalled editor)
        | Crashed e => Raises e
        end
  end.

(** [load_config] and [validate_config] of [agent.config.manager], as
    [validate_after_edit] calls them, on any type of settings. *)
Context {Settings : Type}.
Variable load_config : string → result Settings.
Variable validate_config : Settings → result (list string).

(** The verdict for an exception raised under the [try]. *)
Definition rejected (e : exn) : bool * list string :=
  match e with
  | ConfigurationError msg => (false, [msg])
  | _ => (false, ["Unexpected error: " +:+ exn_str e])
  end.

(** [validate_after_edit]: the verdict, unless [load_config] or
    [validate_config] is left by an exception that is no [Exception]. *)
Definition validate_after_edit (file_path : string)
    : result (bool * list string) :=
  match load_config file_path with
  | Err e => Ok (rejected e)
  | Abort signal => Abort signal
  | Ok settings =>
      match validate_config settings with
      | Err e => Ok (rejected e)
      | Abort signal => Abort signal
      | Ok validation_errors =>
          match validation_errors with
          | [] => Ok (true, [])
          | _ => Ok (false, validation_errors)
          end
      end
  end.

(** [edit_and_validate] *)
Definition edit_and_validate (env : Env) (file_path : string)
    : outcome (bool * list string) :=
  match open_in_editor env file_path true with
  | Returns _ =>
      match validate_after_edit file_path with
      | Ok verdict => Returns verdict
      | Err e => Raises e
      | Abort signal => Aborts signal
      end
  | RaisesEditorError e => RaisesEditorError e
  | Raises e => Raises e
  | Aborts signal => Aborts signal
  end.

End System.
End Editor.

(** ** [src/agent/memory/mem0_utils.py] *)

Module Mem0.
Import Config (truthy).

(** A [pathlib.Path] of a POSIX system: whether it is absolute, and its
    parts below the root or the current directory. *)
Record Path : Type := mkPath {
  absolute : bool;
  parts : list string
}.

(** [p / part], for a [part] that is one relative name. *)
Definition joinpath (p : Path) (part : string) : Path :=
  {| absolute := absolute p; parts := parts p ++ [part] |}.

(** [p.parent]: the root and the current directory are their own parent. *)
Definition parent (p : Path) : Path :=
  {| absolute := absolute p; parts := removelast (parts p) |}.

(** [str(p)] *)
Fixpoint join_parts (ps : list string) : string :=
  match ps with
  | [] => ""
  | [part] => part
  | part :: rest => part +:+ "/" +:+ join_parts rest
  end.

Definition path_str (p : Path) : string :=
  if absolute p then "/" +:+ join_parts (parts p)
  else match parts p with
       | [] => "."
       | ps => join_parts ps
       end.

(** The attributes of the configuration object this module reads; each may
    be [None].  A path that is not [None] is truthy. *)
Record MemoryConfig : Type := mkMemoryConfig {
  llm_provider : string;
  openai_model : option string;
  openai_api_key : option string;
  anthropic_model : option string;
  anthropic_api_key : option string;
  azure_model_deployment : option string;
  azure_openai_api_key : option string;
  azure_openai_endpoint : option string;
  azure_openai_api_version : option string;
  gemini_model : option string;
  gemini_api_key : option string;
  local_model : option string;
  local_base_url : option string;
  mem0_storage_path : option Path;
  memory_dir : option Path;
  agent_data_dir : option Path;
  mem0_api_key : option string;
  mem0_org_id : option string
}.

(** [a or b] on values that may be [None]. *)
Definition or_else (a b : option string) : option string :=
  if truthy a then a else b.

(** The dictionary [{"provider": ..., "config": {...}}]; the entries of
    ["config"] are kept in the order they are written. *)
Record llm_config : Type := mkLlmConfig {
  provider : string;
  config : list (string * option string)
}.

(** [extract_llm_config], with the warning it logs, if any. *)
Definition extract_llm_config (c : MemoryConfig)
    : llm_config * option string :=
  if String.eqb (llm_provider c) "openai" then
    ({| provider := "openai";
        config := [("model", openai_model c);
                   ("api_key", openai_api_key c)] |}, None)
  else if String.eqb (llm_provider c) "anthropic" then
    ({| provider := "anthropic";
        config := [("model", anthropic_model c);
                   ("api_key", anthropic_api_key c)] |}, None)
  else if String.eqb (llm_provider c) "azure" then
    ({| provider := "azure_openai";
        config := [("model",
                    or_else (azure_model_deployment c) (openai_model c));
                   ("api_key", azure_openai_api_key c);
                   ("azure_endpoint", azure_openai_endpoint c);
                   ("api_version",
                    or_else (azure_openai_api_version c)
                      (Some "2024-10-21"))] |}, None)
  else if String.eqb (llm_provider c) "gemini" then
    ({| provider := "gemini";
        config := [("model", gemini_model c);
                   ("api_key", gemini_api_key c)] |}, None)
  else if String.eqb (llm_provider c) "local" then
    ({| provider := "openai";
        config := [("model", local_model c);
                   ("api_key", Some "not-needed");
                   ("base_url",
                    or_else (local_base_url c)
                      (Some "http://localhost:11434/v1"))] |}, None)
  else
    ({| provider := "openai";
        config := [("model", openai_model c);
                   ("api_key",
                    or_else (openai_api_key c) (Some "not-needed"))] |},
     Some ("Provider '" +:+ llm_provider c
           +:+ "' not explicitly supported by mem0, "
           +:+ "defaulting to OpenAI configuration")).

(** The entry of a key in a dictionary. *)
Definition entry (key : string) (d : list (string * option string))
    : option (option string) :=
  snd <$> List.find (λ kv, String.eqb (fst kv) key) d.

(** [get_storage_path]; [home] is [Path.home()]. *)
Definition get_storage_path (home : Path) (c : MemoryConfig) : Path :=
  match mem0_storage_path c with
  | Some path => path
  | None =>
      match memory_dir c with
      | Some dir => joinpath dir "chroma_db"
      | None =>
          match agent_data_dir c with
          | Some dir => joinpath (joinpath dir "mem0_data") "chroma_db"
          | None =>
              joinpath (joinpath (joinpath home ".agent") "mem0_data")
                "chroma_db"
          end
      end
  end.

(** The vector store of the configuration handed to mem0. *)
Inductive vector_store : Type :=
  | CloudStore (api_key org_id : option string)
  | ChromaStore (path collection_name : string).

Record mem0_config : Type := mkMem0Config {
  llm : llm_config;
  store : vector_store
}.

Section Instance.
(** [installed] tells whether [from mem0 import Memory] succeeds;
    [from_config] is [Memory.from_config], which returns the instance or
    raises. *)
Variable home : Path.
Variable installed : bool.
Context {Memory : Type}.
Variable from_config : mem0_config → result Memory.

(** Lines 151-184: the mode and the configuration built for it. *)
Definition is_cloud_mode (c : MemoryConfig) : bool :=
  truthy (mem0_api_key c) && truthy (mem0_org_id c).

Definition build_config (c : MemoryConfig) : mem0_config :=
  if is_cloud_mode c then
    {| llm := (extract_llm_config c).1;
       store := CloudStore (mem0_api_key c) (mem0_org_id c) |}
  else
    {| llm := (extract_llm_config c).1;
       store :=
         ChromaStore (path_str (get_storage_path home c))
           "agent_memories" |}.

(** [create_memory_instance]: the instance or the exception raised, and the
    directories it made sure exist. *)
Definition create_memory_instance (c : MemoryConfig)
    : result Memory * list Path :=
  if negb installed then
    (Err (Raised "mem0ai package not installed. Install with: uv pip install -e '.[mem0]' (or pip install -e '.[mem0]')"),
     [])
  else
    let made :=
      if is_cloud_mode c then [] else [parent (get_storage_path home c)] in
    match from_config (build_config c) with
    | Ok memory => (Ok memory, made)
    | Err e =>
        (Err (ValueError ("Failed to initialize mem0 Memory: " +:+ exn_str e)),
         made)
    | Abort signal => (Abort signal, made)
    end.

End Instance.
End Mem0.

(** ** [src/agent/cli/session.py] *)

Module Session.
Import Config Text.

(** What a call into the prompt, the persistence or the agent can raise, as
    far as the handlers tell exceptions apart: [KeyboardInterrupt] is no
    [Exception]; [Other] is any [Exception] of the kinds of [exn]. *)
Inductive raised : Type :=
  | EOFError (msg : string)
  | FileNotFoundError (msg : string)
  | KeyboardInterrupt
  | Other (e : exn).

(** [str(e)] *)
Definition raised_str (r : raised) : string :=
  match r with
  | EOFError msg => msg
  | FileNotFoundError msg => msg
  | KeyboardInterrupt => ""
  | Other e => exn_str e
  end.

(** [isinstance(e, Exception)] *)
Definition is_exception (r : raised) : bool :=
  match r with KeyboardInterrupt => false | _ => true end.

(** A call returns or raises. *)
Inductive attempt (A : Type) : Type :=
  | Done (a : A)
  | Throws (r : raised).
Arguments Done {A} a.
Arguments Throws {A} r.

(** A tracked message, [{"role": ..., "content": ...}]. *)
Record message : Type := mkMessage {
  role : string;
  content : string
}.

(** The agent's response: an object with a [text] attribute, or any other
    object, given by its [str]. *)
Inductive response : Type :=
  | WithText (text : string)
  | Plain (str : string).

(** [track_conversation]: the list after the two appends. *)
Definition track_conversation (messages : list message)
    (user_input : string) (r : response) : list message :=
  let messages := (messages ++ [mkMessage "user" user_input])%list in
  let response_text :=
    match r with WithText text => text | Plain str => str end in
  (messages ++ [mkMessage "assistant" response_text])%list.

(** An entry of [persistence.list_sessions()]: a dictionary with a [name]
    and, possibly, [created_at] and [first_message]. *)
Record SessionInfo : Type := mkSessionInfo {
  name : string;
  created_at : option string;
  first_message : option string
}.

(** Lines 107-109: the preview of the first message. *)
Definition preview (first_msg : string) : string :=
  if (50 <? text_len first_msg)%nat then
    text_take 47 first_msg +:+ "..."
  else first_msg.

Definition quote : string := String (ascii_of_nat 34) EmptyString.

Definition newline : string := String (ascii_of_nat 10) EmptyString.

(** The text [pick_session] prompts with. *)
Definition selection_prompt (sessions : list SessionInfo) : string :=
  newline +:+ "Select session [1-" +:+ pretty (List.length sessions)
  +:+ "]: ".

Section Picker.
(** [time_ago created] is the text lines 93-104 compute from the clock
    (["unknown"] when [created] is no ISO date); [prompt_async] is what the
    prompt gives for a prompt text; [int_of text] is [int(text.strip())],
    [None] when it raises [ValueError].  Rich markup, the check marks and
    the blank lines around a text are left out of the printed lines. *)
Variable time_ago : string → string.
Variable prompt_async : string → attempt string.
Variable int_of : string → option Z.

(** Line 111: the line of the [i]-th session. *)
Definition session_line (i : nat) (sess : SessionInfo) : string :=
  "  " +:+ pretty i +:+ ". " +:+ name sess
  +:+ " (" +:+ time_ago (default "" (created_at sess)) +:+ ") "
  +:+ quote +:+ preview (default "" (first_message sess)) +:+ quote.

Definition listing (sessions : list SessionInfo) : list string :=
  "Available Sessions:" :: imap (λ i sess, session_line (S i) sess) sessions.

(** [pick_session], on the list [persistence.list_sessions()] returned: the
    name picked (the first component of the tuple; the other two are always
    [None]) and the lines printed. *)
Definition pick_session (sessions : list SessionInfo)
    : attempt (option string) * list string :=
  match sessions with
  | [] => (Done None, ["No saved sessions available"])
  | _ =>
      match prompt_async (selection_prompt sessions) with
      | Done choice =>
          match int_of choice with
          | Some choice_num =>
              if (1 <=? choice_num)%Z
                 && (choice_num <=? Z.of_nat (List.length sessions))%Z then
                match sessions !! Z.to_nat (choice_num - 1) with
                | Some sess => (Done (Some (name sess)), listing sessions)
                | None =>
                    (Throws (Other (Raised "list index out of range")),
                     listing sessions)
                end
              else
                (Done None, listing sessions ++ ["Invalid selection"])%list
          | None => (Done None, listing sessions ++ ["Cancelled"])%list
          end
      | Throws (EOFError _) | Throws KeyboardInterrupt
      | Throws (Other (ValueError _)) =>
          (Done None, listing sessions ++ ["Cancelled"])%list
      | Throws r => (Throws r, listing sessions)
      end
  end.

(** [persistence.load_thread(agent, name)] gives the thread, which may be
    [None], and the context summary; [agent_run prompt thread] is
    [agent.run(prompt, thread=thread)], whose response is dropped. *)
Context {Thread : Type}.
Variable load_thread : string → attempt (option Thread * option string).
Variable agent_run : string → option Thread → attempt unit.

(** The two handlers of [restore_session_context]. *)
Definition not_restored (session_name : string) (r : raised)
    : attempt (option Thread * option string * nat) * list string :=
  match r with
  | FileNotFoundError _ =>
      (Done (None, None, 0%nat),
       ["Session '" +:+ session_name
        +:+ "' not found. Starting new session."])
  | KeyboardInterrupt => (Throws KeyboardInterrupt, [])
  | _ =>
      (Done (None, None, 0%nat),
       ["Failed to resume session: " +:+ raised_str r
        +:+ ". Starting new session."])
  end.

(** [restore_session_context]: the tuple [(thread, context_summary,
    message_count)] and the lines printed (the rule under "Ready" is left
    out). *)
Definition restore_session_context (session_name : string) (quiet : bool)
    : attempt (option Thread * option string * nat) * list string :=
  let ready := if quiet then [] else ["Ready"] in
  match load_thread session_name with
  | Throws r => not_restored session_name r
  | Done (thread, context_summary) =>
      if truthy context_summary then
        match agent_run (default "" context_summary) thread with
        | Done _ => (Done (thread, context_summary, 1%nat), ready)
        | Throws r => not_restored session_name r
        end
      else (Done (thread, context_summary, 0%nat), ready)
  end.

End Picker.

Section Saving.
(** The saved threads are kept in a [Store];
    [save_thread thread name description messages] is
    [persistence.save_thread].  The marker of the last session is a file
    kept in a map from paths to contents; [writable path] tells whether making the directory and
    opening the file for writing succeed, [readable path] whether opening it
    for reading does.  [timestamp] is
    [datetime.now().strftime("%Y-%m-%d-%H-%M-%S")], [strip] is
    [str.strip]. *)
Context {Store Thread : Type}.
Variable home : string.
Variable timestamp : string.
Variable strip : string → string.
Variable writable readable : string → bool.
Variable save_thread :
  option Thread → string → string → option (list message) → Store →
  attempt unit * Store.

Definition last_session_file : string := home +:+ "/.agent/last_session".

(** [_save_last_session]: a failure is logged and dropped. *)
Definition _save_last_session (session_name : string) (files : gmap string string)
    : gmap string string :=
  if writable last_session_file then
    <[last_session_file := session_name]> files
  else files.

(** [get_last_session] *)
Definition get_last_session (files : gmap string string)
    : option string :=
  match files !! last_session_file with
  | Some text =>
      if readable last_session_file then Some (strip text) else None
  | None => None
  end.

(** What [auto_save_session] leaves behind. *)
Record saved : Type := mkSaved {
  ended : attempt unit;
  printed : list string;
  threads : Store;
  markers : gmap string string
}.

(** [auto_save_session]; [console] tells whether a console was given. *)
Definition auto_save_session (thread : option Thread) (message_count : Z)
    (quiet : bool) (messages : option (list message)) (console : bool)
    (store : Store) (files : gmap string string) : saved :=
  if (0 <? message_count)%Z then
    let session_name := timestamp in
    match
      save_thread thread session_name "Auto-saved session" messages store
    with
    | (Done _, store') =>
        {| ended := Done ();
           printed :=
             if negb quiet && console then
               ["Session auto-saved as '" +:+ session_name +:+ "'"]
             else [];
           threads := store';
           markers := _save_last_session session_name files |}
    | (Throws r, store') =>
        if is_exception r then
          {| ended := Done ();
             printed :=
               if negb quiet && console then
                 ["Failed to auto-save session: " +:+ raised_str r]
               else [];
             threads := store';
             markers := files |}
        else
          {| ended := Throws r; printed := [];
             threads := store'; markers := files |}
    end
  else
    {| ended := Done (); printed := [];
       threads := store; markers := files |}.

End Saving.
End Session.

(** ** [src/agent/cli/commands.py] *)

Module Commands.
Import Config Session.

Section Commands.
(** The collaborators are those of [Session]; [delete_session] is
    [persistence.delete_session] on the [Store] of saved threads, [strip]
    and [lower] are [str.strip] and [str.lower]. *)
Context {Store Thread : Type}.
Variable time_ago : string → string.
Variable prompt_async : string → attempt string.
Variable int_of : string → option Z.
Variable strip lower : string → string.
Variable load_thread : string → attempt (option Thread * option string).
Variable agent_run : string → option Thread → attempt unit.
Variable delete_session : string → Store → attempt unit * Store.

(** [handle_continue_command]: the pair [(thread, message_count)]. *)
Definition handle_continue_command (sessions : list SessionInfo)
    : attempt (option Thread * nat) * list string :=
  match pick_session time_ago prompt_async int_of sessions with
  | (Throws r, out) => (Throws r, out)
  | (Done session_name, out) =>
      if truthy session_name then
        match
          restore_session_context load_thread agent_run
            (default "" session_name) false
        with
        | (Done (thread, _, message_count), out') =>
            (Done (thread, message_count), out ++ out')%list
        | (Throws r, out') => (Throws r, out ++ out')%list
        end
      else (Done (None, 0%nat), out)
  end.

(** Lines 121-127: the loop over the sessions.  The count is [None] when a
    [KeyboardInterrupt] ended the loop; every [Exception] is reported and
    the loop goes on. *)
Fixpoint delete_all (sessions : list SessionInfo) (deleted : nat)
    (store : Store) : option nat * list string * Store :=
  match sessions with
  | [] => (Some deleted, [], store)
  | sess :: rest =>
      match delete_session (name sess) store with
      | (Done _, store') => delete_all rest (S deleted) store'
      | (Throws r, store') =>
          if is_exception r then
            let '(count, out, store'') := delete_all rest deleted store' in
            (count,
             ("Failed to delete " +:+ name sess +:+ ": " +:+ raised_str r)
             :: out,
             store'')
          else (None, [], store')
      end
  end.

(** [handle_purge_command], on the list [persistence.list_sessions()]
    returned. *)
Definition handle_purge_command (sessions : list SessionInfo)
    (store : Store) : attempt unit * list string * Store :=
  match sessions with
  | [] => (Done (), ["No sessions to purge"], store)
  | _ =>
      let warning :=
        "This will delete ALL " +:+ pretty (List.length sessions)
        +:+ " saved sessions." in
      match prompt_async "Continue? (y/n): " with
      | Done confirm =>
          if String.eqb (lower (strip confirm)) "y" then
            match delete_all sessions 0 store with
            | (Some deleted, out, store') =>
                (Done (),
                 (warning :: out
                  ++ ["Deleted " +:+ pretty deleted +:+ " sessions"])%list,
                 store')
            | (None, out, store') =>
                (Done (), (warning :: out ++ ["Cancelled"])%list, store')
            end
          else (Done (), [warning; "Cancelled"], store)
      | Throws (EOFError _) | Throws KeyboardInterrupt =>
          (Done (), [warning; "Cancelled"], store)
      | Throws r => (Throws r, [warning], store)
      end
  end.

End Commands.
End Commands.

(** ** [src/agent/config/providers/] *)

Module ProviderSetup.
Import Config Session.

(** The values of a credentials dictionary. *)
Inductive value : Type :=
  | Str (s : string)
  | Bool (b : bool).

(** A dictionary, in insertion order. *)
Definition dict : Type := list (string * value).

(** [d[key] = v]: a new key goes last, a key already there keeps its
    place. *)
Fixpoint set_item (key : string) (v : value) (d : dict) : dict :=
  match d with
  | [] => [(key, v)]
  | (k, x) :: rest =>
      if String.eqb k key then (k, v) :: rest
      else (k, x) :: set_item key v rest
  end.

(** [d.get(key)] *)
Definition get_item (key : string) (d : dict) : option value :=
  snd <$> List.find (λ kv, String.eqb kv.1 key) d.

(** [if x: credentials[key] = x], for an [x] read from the environment. *)
Definition set_if_found (key : string) (x : option string)
    (credentials : dict) : dict :=
  match x with
  | Some s => if truthy x then set_item key (Str s) credentials
              else credentials
  | None => credentials
  end.

(** [x or fallback] *)
Definition or_default (x : option string) (fallback : string) : string :=
  match x with
  | Some s => if truthy x then s else fallback
  | None => fallback
  end.

(** The prompt texts that start with a line feed. *)
Definition model_prompt : string := newline +:+ "Model".

Definition vertex_prompt : string :=
  newline +:+ "Use Vertex AI instead of Gemini API?".

Module FoundrySetup.

(** [FoundrySetup.detect_credentials] *)
Definition detect_credentials (env : Env) : dict :=
  let credentials := [] in
  let credentials :=
    set_if_found "project_endpoint" (getenv env "AZURE_PROJECT_ENDPOINT")
      credentials in
  let credentials :=
    set_if_found "model_deployment" (getenv env "AZURE_MODEL_DEPLOYMENT")
      credentials in
  credentials.

Section Prompts.
(** [ask prompt default] is [Prompt.ask(prompt, default=default)]: what the
    user enters, or what the call raises. *)
Variable ask : string → option string → attempt string.

(** [FoundrySetup.prompt_user]: the configuration and the lines printed. *)
Definition prompt_user (env : Env) (detected : dict)
    : attempt dict * list string :=
  let env_endpoint := getenv env "AZURE_PROJECT_ENDPOINT" in
  let env_deployment := getenv env "AZURE_MODEL_DEPLOYMENT" in
  if truthy env_endpoint && truthy env_deployment then
    (Done [("project_endpoint", Str (default "" env_endpoint));
           ("model_deployment", Str (default "" env_deployment));
           ("enabled", Bool true)],
     ["Found Azure AI Foundry config in environment";
      "  Endpoint: " +:+ default "" env_endpoint;
      "  Deployment: " +:+ default "" env_deployment])
  else
    match ask "Enter your Azure AI Foundry project endpoint" None with
    | Throws r => (Throws r, [])
    | Done endpoint =>
        match ask "Enter your model deployment name" None with
        | Throws r => (Throws r, [])
        | Done deployment =>
            (Done [("project_endpoint", Str endpoint);
                   ("model_deployment", Str deployment);
                   ("enabled", Bool true)],
             [])
        end
    end.

(** [FoundrySetup.configure] *)
Definition configure (env : Env) : attempt dict * list string :=
  let detected := detect_credentials env in
  prompt_user env detected.

End Prompts.
End FoundrySetup.

Module GeminiSetup.

Section Prompts.
(** [ask] is [Prompt.ask] as for Foundry; [confirm prompt default] is
    [Confirm.ask(prompt, default=default)]; [lower] is [str.lower]. *)
Variable lower : string → string.
Variable ask : string → option string → attempt string.
Variable confirm : string → bool → attempt bool.

(** [os.getenv("GEMINI_USE_VERTEXAI", "false").lower() == "true"] *)
Definition use_vertex (env : Env) : bool :=
  String.eqb (lower (getenv_default env "GEMINI_USE_VERTEXAI" "false"))
    "true".

(** [GeminiSetup.detect_credentials] *)
Definition detect_credentials (env : Env) : dict :=
  let credentials := [] in
  let credentials :=
    if use_vertex env then
      let credentials := set_item "use_vertexai" (Bool true) credentials in
      let credentials :=
        set_if_found "project_id" (getenv env "GEMINI_PROJECT_ID")
          credentials in
      set_if_found "location" (getenv env "GEMINI_LOCATION") credentials
    else credentials in
  let credentials :=
    set_if_found "api_key" (getenv env "GEMINI_API_KEY") credentials in
  let credentials :=
    set_if_found "model" (getenv env "GEMINI_MODEL") credentials in
  credentials.

(** The prompt for the model, asked on every path, and what becomes of the
    configuration once it is answered. *)
Definition with_model (build : string → dict) (out : list string)
    : attempt dict * list string :=
  match ask model_prompt (Some "gemini-2.0-flash-exp") with
  | Done model => (Done (build model), out)
  | Throws r => (Throws r, out)
  end.

(** [GeminiSetup.prompt_user]: the configuration and the lines printed. *)
Definition prompt_user (env : Env) (detected : dict)
    : attempt dict * list string :=
  let env_use_vertex := use_vertex env in
  let env_key := getenv env "GEMINI_API_KEY" in
  let env_project := getenv env "GEMINI_PROJECT_ID" in
  let env_location := getenv env "GEMINI_LOCATION" in
  if env_use_vertex && truthy env_project then
    with_model
      (λ model,
         [("use_vertexai", Bool true);
          ("project_id", Str (default "" env_project));
          ("location", Str (or_default env_location "us-central1"));
          ("model", Str model);
          ("enabled", Bool true)])
      ["Found Gemini Vertex AI config in environment";
       "  Project: " +:+ default "" env_project;
       "  Location: " +:+ or_default env_location "us-central1"]
  else if truthy env_key then
    with_model
      (λ model,
         [("api_key", Str (default "" env_key));
          ("model", Str model);
          ("enabled", Bool true)])
      ["Found GEMINI_API_KEY in environment";
       "  Using: [from environment]"]
  else
    match confirm vertex_prompt false with
    | Throws r => (Throws r, [])
    | Done true =>
        match ask "Enter your GCP project ID" None with
        | Throws r => (Throws r, [])
        | Done project_id =>
            match ask "Enter your GCP location" (Some "us-central1") with
            | Throws r => (Throws r, [])
            | Done location =>
                with_model
                  (λ model,
                     [("use_vertexai", Bool true);
                      ("project_id", Str project_id);
                      ("location", Str location);
                      ("model", Str model);
                      ("enabled", Bool true)])
                  []
            end
        end
    | Done false =>
        match ask "Enter your Gemini API key" None with
        | Throws r => (Throws r, [])
        | Done api_key =>
            with_model
              (λ model,
                 [("api_key", Str api_key);
                  ("model", Str model);
                  ("enabled", Bool true)])
              []
        end
    end.

(** [GeminiSetup.configure] *)
Definition configure (env : Env) : attempt dict * list string :=
  let detected := detect_credentials env in
  prompt_user env detected.

End Prompts.

(** The keys of the two configurations [prompt_user] builds. *)
Definition vertex_keys : list string :=
  ["use_vertexai"; "project_id"; "location"; "model"; "enabled"].

Definition api_key_keys : list string := ["api_key"; "model"; "enabled"].

End GeminiSetup.

(** The keys of a dictionary. *)
Definition keys (d : dict) : list string := d.*1.

End ProviderSetup.

(** * Properties *)

(** ** Configuration from the environment *)

Section ConfigProperties.
Import Config.

Lemma from_env_llm_provider home expanduser (env : Env) :
  llm_provider (from_env home expanduser env)
  = default "openai" (env !! "LLM_PROVIDER").
Proof. reflexivity. Qed.

Lemma validate_openai_without_key c :
  llm_provider c = "openai" → truthy (openai_api_key c) = false →
  ∃ msg, validate c = Err (ValueError msg).
Proof.
  intros Hp Hk. unfold validate. rewrite Hp, Hk. simpl. eauto.
Qed.

End ConfigProperties.

(** ** The fallback chain *)

Section ResolverProperties.
Import Schema ConfigStore ConfigResolver.

Lemma resolve_field_cli {V} (v : V) file env dflt :
  resolve_field (Some v) file env dflt = (Some v, FromCli).
Proof. reflexivity. Qed.

Lemma resolve_field_file {V} (v : V) env dflt :
  resolve_field None (Some v) env dflt = (Some v, FromFile).
Proof. reflexivity. Qed.

Lemma resolve_field_env {V} (v : V) dflt :
  resolve_field None None (Some v) dflt = (Some v, FromEnv).
Proof. reflexivity. Qed.

Lemma resolve_field_default {V} (dflt : option V) :
  resolve_field None None None dflt = (dflt, FromDefault).
Proof. reflexivity. Qed.

(** A snapshot holds, for every field, what the chain found. *)
Lemma resolve_value cli path files env s c f :
  load_config path files = Ok s →
  resolve cli path files env = Ok c →
  (value c f, config_source c f) = lookup cli s env f.
Proof.
  intros Hload. unfold resolve. rewrite Hload.
  case_match; [discriminate|].
  destruct (lookup cli s env LlmProvider).1 as [[p| | | |]|];
    try discriminate.
  case_match; [|discriminate].
  intros [= <-]. simpl. symmetry. apply surjective_pairing.
Qed.

(** The provider of a snapshot is what the chain found for it. *)
Lemma resolve_provider cli path files env s c :
  load_config path files = Ok s →
  resolve cli path files env = Ok c →
  (lookup cli s env LlmProvider).1 = Some (SStr (llm_provider c))
  ∧ enabled_providers c = providers_enabled (providers s).
Proof.
  intros Hload. unfold resolve. rewrite Hload.
  case_match; [discriminate|].
  destruct (lookup cli s env LlmProvider).1 as [[p| | | |]|];
    try discriminate.
  case_match; [|discriminate].
  by intros [= <-].
Qed.

(** Resolution returns as soon as the environment can be read, a provider
    is selected and its mandatory fields are found. *)
Lemma resolve_returns cli path files env s p :
  load_config path files = Ok s →
  malformed env EnableOtel = false →
  malformed env MemoryHistoryLimit = false →
  (lookup cli s env LlmProvider).1 = Some (SStr p) →
  Forall (λ f, is_Some (lookup cli s env f).1) (mandatory p) →
  ∃ c, resolve cli path files env = Ok c.
Proof.
  intros Hload Ho Hl Hp Hm. unfold resolve. rewrite Hload, Ho, Hl, Hp.
  simpl.
  assert (forallb (λ f, bool_decide (is_Some (lookup cli s env f).1))
            (mandatory p) = true) as ->; [|eauto].
  apply forallb_forall. intros f Hf. apply bool_decide_eq_true.
  rewrite Forall_forall in Hm. by apply Hm, list_elem_of_In.
Qed.

(** Without a provider on the command line, in the file or in the
    environment, resolution fails. *)
Lemma resolve_without_provider cli path files env s :
  load_config path files = Ok s →
  cli LlmProvider = None →
  providers_enabled (providers s) = [] →
  Config.getenv env "LLM_PROVIDER" = None →
  ∃ msg, resolve cli path files env = Err (ConfigurationError msg).
Proof.
  intros Hload Hcli Hfile Henv. unfold resolve. rewrite Hload.
  case_match; [eauto|].
  unfold lookup, file_layer, env_layer. rewrite Hcli, Hfile. simpl.
  rewrite Henv. simpl. eauto.
Qed.

End ResolverProperties.

(** ** Round trip through the store *)

Section StoreProperties.
Import Schema ConfigStore.

Lemma unknown_app known (ms1 ms2 : members) :
  unknown known (ms1 ++ ms2) = (unknown known ms1 ++ unknown known ms2)%list.
Proof. apply List.filter_app. Qed.

Lemma unknown_known known k v (ms : members) :
  is_known known k = true →
  unknown known ((k, v) :: ms) = unknown known ms.
Proof. intros Hk. unfold unknown. simpl. by rewrite Hk. Qed.

Lemma unknown_fresh known (ms : members) :
  fresh known ms = true → unknown known ms = ms.
Proof.
  unfold fresh, unknown. induction ms as [|kv ms IH]; simpl; [done|].
  intros [Hkv Hms]%andb_prop. rewrite Hkv. f_equal. by apply IH.
Qed.

(** What a decoder puts aside is fresh by construction. *)
Lemma fresh_unknown known (ms : members) :
  fresh known (unknown known ms) = true.
Proof.
  unfold fresh, unknown. apply forallb_forall.
  by intros kv [_ Hkv]%filter_In.
Qed.

Lemma mapM_roundtrip {A B} (dec : B → option A) (enc : A → B) (l : list A) :
  Forall (λ x, dec (enc x) = Some x) l →
  mapM dec (List.map enc l) = Some l.
Proof.
  induction 1 as [|x l Hx _ IH]; simpl; [done|].
  by rewrite Hx, IH.
Qed.

Lemma as_opt_str_roundtrip o : as_opt_str (of_opt_str o) = Some o.
Proof. by destruct o. Qed.

Lemma as_opt_bool_roundtrip o : as_opt_bool (of_opt_bool o) = Some o.
Proof. by destruct o. Qed.

Lemma as_opt_num_roundtrip o : as_opt_num (of_opt_num o) = Some o.
Proof. by destruct o. Qed.

Lemma as_str_list_roundtrip l : as_list as_str (of_list JStr l) = Some l.
Proof. apply mapM_roundtrip. by apply Forall_forall. Qed.

(** Looks the known members up in an encoded table, leaving the codecs of
    the nested tables folded. *)
Ltac lookup_members :=
  unfold field, required;
  cbn -[unknown as_list of_list as_opt_str of_opt_str as_opt_bool
        of_opt_bool as_opt_num of_opt_num mapM
        decode_provider encode_provider decode_providers encode_providers
        decode_plugin encode_plugin decode_skills encode_skills
        decode_telemetry encode_telemetry decode_memory encode_memory].

Ltac keep_unknown Hx :=
  rewrite !unknown_known by reflexivity; rewrite (unknown_fresh _ _ Hx).

Lemma provider_roundtrip p :
  fresh provider_keys (provider_extra p) = true →
  decode_provider (encode_provider p) = Some p.
Proof.
  intros Hx. destruct p as [e k m ep x]. simpl in Hx.
  unfold decode_provider, encode_provider. lookup_members.
  rewrite !as_opt_str_roundtrip. lookup_members.
  by keep_unknown Hx.
Qed.

Lemma providers_roundtrip p :
  forallb wf_provider (providers_table p) = true →
  decode_providers (encode_providers p) = Some p.
Proof.
  intros Hwf. destruct p as [en tb]. simpl in Hwf.
  unfold decode_providers, encode_providers. lookup_members.
  rewrite as_str_list_roundtrip. lookup_members.
  rewrite unknown_known by reflexivity.
  assert (unknown ["enabled"]
            (List.map (λ kv, (kv.1, encode_provider kv.2)) tb)
          = List.map (λ kv, (kv.1, encode_provider kv.2)) tb) as ->.
  { apply unknown_fresh. unfold fresh.
    apply forallb_forall. intros kv [kc [<- Hkc]]%in_map_iff.
    rewrite forallb_forall in Hwf. specialize (Hwf kc Hkc).
    apply andb_prop in Hwf as [Hk _]. unfold is_known. simpl.
    by rewrite orb_false_r. }
  rewrite (mapM_roundtrip decode_entry
             (λ kv, (kv.1, encode_provider kv.2))); [done|].
  apply Forall_forall. intros [k c] Hkv%list_elem_of_In.
  rewrite forallb_forall in Hwf. specialize (Hwf _ Hkv).
  apply andb_prop in Hwf as [_ Hc]. unfold decode_entry.
  cbn [fst snd] in *. by rewrite provider_roundtrip.
Qed.

Lemma plugin_roundtrip p :
  wf_plugin p = true → decode_plugin (encode_plugin p) = Some p.
Proof.
  unfold wf_plugin. intros Hx. destruct p as [n u b e ip x]. simpl in Hx.
  unfold decode_plugin, encode_plugin. lookup_members.
  rewrite as_opt_str_roundtrip. lookup_members.
  by keep_unknown Hx.
Qed.

Lemma skills_roundtrip s :
  forallb wf_plugin (plugins s) = true →
  fresh skills_keys (skills_extra s) = true →
  decode_skills (encode_skills s) = Some s.
Proof.
  intros Hps Hx. destruct s as [d off ps x]. simpl in Hps, Hx.
  unfold decode_skills, encode_skills. lookup_members.
  rewrite as_opt_str_roundtrip, as_str_list_roundtrip. lookup_members.
  unfold as_list, of_list.
  rewrite (mapM_roundtrip decode_plugin encode_plugin). 2:{
    apply Forall_forall. intros p Hp%list_elem_of_In.
    apply plugin_roundtrip. by apply (proj1 (forallb_forall _ _) Hps). }
  lookup_members. by keep_unknown Hx.
Qed.

Lemma telemetry_roundtrip t :
  fresh telemetry_keys (telemetry_extra t) = true →
  decode_telemetry (encode_telemetry t) = Some t.
Proof.
  intros Hx. destruct t as [e o x]. simpl in Hx.
  unfold decode_telemetry, encode_telemetry. lookup_members.
  rewrite as_opt_bool_roundtrip. lookup_members.
  rewrite as_opt_str_roundtrip. lookup_members.
  by keep_unknown Hx.
Qed.

Lemma memory_roundtrip m :
  fresh memory_keys (memory_extra m) = true →
  decode_memory (encode_memory m) = Some m.
Proof.
  intros Hx. destruct m as [t h x]. simpl in Hx.
  unfold decode_memory, encode_memory. lookup_members.
  rewrite as_opt_str_roundtrip. lookup_members.
  rewrite as_opt_num_roundtrip. lookup_members.
  by keep_unknown Hx.
Qed.

Lemma decode_encode s :
  wf_settings s = true → decode (encode s) = Some s.
Proof.
  unfold wf_settings.
  intros [[[[[Hp Hpl]%andb_prop Hsk]%andb_prop Ht]%andb_prop
            Hm]%andb_prop Hx]%andb_prop.
  destruct s as [v p sk t m x]. simpl in Hp, Hpl, Hsk, Ht, Hm, Hx.
  unfold decode, encode. lookup_members.
  rewrite providers_roundtrip by done. lookup_members.
  rewrite skills_roundtrip by done. lookup_members.
  rewrite telemetry_roundtrip by done. lookup_members.
  rewrite memory_roundtrip by done. lookup_members.
  by keep_unknown Hx.
Qed.

(** After a save the target holds the encoded document and the temporary
    file is gone or is the target itself. *)
Lemma save_config_target s path (files : Files) :
  save_config s path files !! path = Some (encode s).
Proof.
  unfold save_config. rewrite lookup_insert_eq. apply lookup_insert_eq.
Qed.

Lemma load_config_save_config s path (files : Files) :
  wf_settings s = true →
  load_config path (save_config s path files) = Ok s.
Proof.
  intros Hwf. unfold load_config.
  by rewrite save_config_target, decode_encode.
Qed.

Lemma save_config_other s path path' (files : Files) :
  path' ≠ path → path' ≠ temp_path path →
  save_config s path files !! path' = files !! path'.
Proof.
  intros Hp Ht. unfold save_config. rewrite lookup_insert_eq.
  rewrite lookup_insert_ne, lookup_delete_ne, lookup_insert_ne; done.
Qed.

End StoreProperties.

Section StoreTheorems.
Import Schema ConfigStore Examples.

(** Whatever the decoder accepts is well formed: the round trip below
    applies to every document that was ever loaded. *)
Lemma decode_provider_wf j p :
  decode_provider j = Some p → fresh provider_keys (provider_extra p) = true.
Proof.
  destruct j; try discriminate. unfold decode_provider.
  intros H. repeat (apply bind_Some in H as (? & _ & H)).
  injection H as <-. apply fresh_unknown.
Qed.

Lemma decode_plugin_wf j p : decode_plugin j = Some p → wf_plugin p = true.
Proof.
  destruct j; try discriminate. unfold decode_plugin.
  intros H. repeat (apply bind_Some in H as (? & _ & H)).
  injection H as <-. apply fresh_unknown.
Qed.

Lemma field_inv {A} (P : A → Prop) parse dflt k ms a :
  field parse dflt k ms = Some a →
  P dflt → (∀ j, parse j = Some a → P a) → P a.
Proof.
  unfold field. destruct (member k ms); [eauto|]. by intros [= <-].
Qed.

Lemma decode_list_wf {A} (dec : json → option A) (wf : A → bool) j l :
  (∀ j a, dec j = Some a → wf a = true) →
  as_list dec j = Some l → forallb wf l = true.
Proof.
  intros Hdec. destruct j; try discriminate. simpl.
  intros Hl%mapM_Some. induction Hl; simpl; [done|].
  apply andb_true_intro. eauto.
Qed.

Lemma decode_skills_wf j s :
  decode_skills j = Some s →
  forallb wf_plugin (plugins s) = true
  ∧ fresh skills_keys (skills_extra s) = true.
Proof.
  destruct j; try discriminate. unfold decode_skills. intros H.
  apply bind_Some in H as (d & _ & H).
  apply bind_Some in H as (off & _ & H).
  apply bind_Some in H as (ps & Hps & H).
  injection H as <-. simpl. split; [|apply fresh_unknown].
  apply (field_inv (λ l, forallb wf_plugin l = true) _ _ _ _ _ Hps);
    [done|]. intros j. apply decode_list_wf, decode_plugin_wf.
Qed.

Lemma decode_providers_wf j p :
  decode_providers j = Some p →
  forallb wf_provider (providers_table p) = true.
Proof.
  destruct j as [| | | | |ms]; try discriminate.
  unfold decode_providers. intros H.
  apply bind_Some in H as (en & _ & H).
  apply bind_Some in H as (tb & Htb & H).
  injection H as <-. simpl. apply mapM_Some in Htb.
  pose proof (fresh_unknown ["enabled"] ms) as Hfr. unfold fresh in Hfr.
  induction Htb as [|[k j] [k' c] l l' Hkc _ IH]; simpl; [done|].
  simpl in Hfr. apply andb_prop in Hfr as [Hk Hfr].
  unfold decode_entry in Hkc. simpl in Hkc.
  apply bind_Some in Hkc as (c0 & Hc & [= <- <-]).
  apply andb_true_intro. split; [|by apply IH].
  unfold wf_provider. simpl. apply andb_true_intro. split.
  - unfold is_known in Hk. simpl in Hk. by rewrite orb_false_r in Hk.
  - by eapply decode_provider_wf.
Qed.

Lemma decode_wf j s : decode j = Some s → wf_settings s = true.
Proof.
  destruct j; try discriminate. unfold decode. intros H.
  apply bind_Some in H as (v & _ & H).
  apply bind_Some in H as (p & Hp & H).
  apply bind_Some in H as (sk & Hsk & H).
  apply bind_Some in H as (t & Ht & H).
  apply bind_Some in H as (m & Hm & H).
  injection H as <-. unfold wf_settings. simpl.
  assert (forallb wf_provider (providers_table p) = true) as ->.
  { apply (field_inv (λ p, forallb wf_provider (providers_table p) = true)
             _ _ _ _ _ Hp); [done|]. intros j. apply decode_providers_wf. }
  assert (forallb wf_plugin (plugins sk) = true
          ∧ fresh skills_keys (skills_extra sk) = true) as [-> ->].
  { apply (field_inv (λ sk, forallb wf_plugin (plugins sk) = true
                       ∧ fresh skills_keys (skills_extra sk) = true)
             _ _ _ _ _ Hsk); [done|]. intros j. apply decode_skills_wf. }
  assert (fresh telemetry_keys (telemetry_extra t) = true) as ->.
  { apply (field_inv (λ t, fresh telemetry_keys (telemetry_extra t) = true)
             _ _ _ _ _ Ht); [done|]. intros [] Hj; try discriminate.
    unfold decode_telemetry in Hj.
    repeat (apply bind_Some in Hj as (? & _ & Hj)).
    injection Hj as <-. apply fresh_unknown. }
  assert (fresh memory_keys (memory_extra m) = true) as ->.
  { apply (field_inv (λ m, fresh memory_keys (memory_extra m) = true)
             _ _ _ _ _ Hm); [done|]. intros [] Hj; try discriminate.
    unfold decode_memory in Hj.
    repeat (apply bind_Some in Hj as (? & _ & Hj)).
    injection Hj as <-. apply fresh_unknown. }
  simpl. apply fresh_unknown.
Qed.

(** C2: loading a path right after saving a settings document to it returns
    the document that was saved, unknown members included.  A document is
    well formed when the members it carries as unknown do not reuse a key
    its table knows. *)
Theorem load_after_save (s : AgentSettings) (path : string) (files : Files) :
  wf_settings s = true →
  load_config path (save_config s path files) = Ok s.
Proof.
  intros Hwf. unfold load_config.
  rewrite save_config_target. by rewrite (decode_encode s Hwf).
Qed.

Lemma load_after_save_witness :
  wf_settings annotated_settings = true
  ∧ load_config "/home/agent/.agent/settings.json"
      (save_config annotated_settings "/home/agent/.agent/settings.json" ∅)
    = Ok annotated_settings.
Proof.
  split; [reflexivity|]. apply load_after_save. reflexivity.
Defined.

End StoreTheorems.

Section ResolverTheorems.
Import Schema ConfigStore ConfigResolver Examples.

(** C1: in a resolved configuration every field (the selected provider,
    the credentials, model and endpoint of a provider, the telemetry flag
    and endpoint, the memory type and history limit, the skill settings)
    holds the value of the first layer that has one, scanning command line,
    settings file, environment and compiled default in this order: a
    command-line override wins over everything, a file value wins over the
    environment, the environment is used when the file holds nothing, and
    the compiled default when neither does.  A file value is absent when it
    is null or unset, not when it equals a default.  The snapshot records
    the winning layer. *)
Theorem resolve_precedence cli path files env s c f :
  load_config path files = Ok s →
  resolve cli path files env = Ok c →
  (∀ v, cli f = Some v →
        value c f = Some v ∧ config_source c f = FromCli)
  ∧ (∀ v, cli f = None → file_layer s f = Some v →
          value c f = Some v ∧ config_source c f = FromFile)
  ∧ (∀ v, cli f = None → file_layer s f = None →
          env_layer env f = Some v →
          value c f = Some v ∧ config_source c f = FromEnv)
  ∧ (cli f = None → file_layer s f = None → env_layer env f = None →
     value c f = compiled_default f ∧ config_source c f = FromDefault).
Proof.
  intros Hload Hres.
  pose proof (resolve_value cli path files env s c f Hload Hres) as Hv.
  unfold lookup in Hv.
  repeat split; intros; repeat match goal with
                               | H : _ = Some _ |- _ => rewrite H in Hv
                               | H : _ = None |- _ => rewrite H in Hv
                               end; simpl in Hv; congruence.
Qed.

Lemma resolve_precedence_witness :
  ∃ c c',
    resolve example_cli settings_path example_files example_env = Ok c
    ∧ resolve (λ _, None) settings_path priority_files example_env = Ok c'
    ∧ (env_layer example_env (ApiKey "openai") = Some (SStr "env-key")
       ∧ value c (ApiKey "openai") = Some (SStr "file-key")
       ∧ config_source c (ApiKey "openai") = FromFile)
    ∧ value c (Model "openai") = Some (SStr "gpt-4o")
    ∧ value c OtlpEndpoint = Some (SStr "http://env:4318")
    ∧ (telemetry_enabled (telemetry file_settings) = None
       ∧ value c EnableOtel = Some (SBool true)
       ∧ config_source c EnableOtel = FromEnv)
    ∧ value c (Model "anthropic") = Some (SStr "claude-sonnet-4-5-20250929")
    ∧ (env_layer example_env EnableOtel = Some (SBool true)
       ∧ value c' EnableOtel = Some (SBool false)
       ∧ config_source c' EnableOtel = FromFile)
    ∧ (env_layer example_env MemoryHistoryLimit = Some (SInt 50)
       ∧ value c' MemoryHistoryLimit = Some (SInt 10)
       ∧ config_source c' MemoryHistoryLimit = FromFile)
    ∧ value c' MemoryType = Some (SStr "in_memory").
Proof.
  assert (load_config settings_path example_files = Ok file_settings)
    as Hload by (apply load_config_save_config; reflexivity).
  assert (load_config settings_path priority_files = Ok priority_settings)
    as Hload' by (apply load_config_save_config; reflexivity).
  destruct (resolve_returns example_cli settings_path example_files
              example_env file_settings "openai" Hload eq_refl eq_refl
              eq_refl)
    as [c Hc].
  { repeat constructor. by eexists. }
  destruct (resolve_returns (λ _, None) settings_path priority_files
              example_env priority_settings "local" Hload' eq_refl eq_refl
              eq_refl)
    as [c' Hc'].
  { constructor. }
  exists c, c'. split; [exact Hc|]. split; [exact Hc'|].
  pose proof (λ f, resolve_precedence example_cli settings_path
                     example_files example_env file_settings c f Hload Hc)
    as Hp.
  pose proof (λ f, resolve_precedence (λ _, None) settings_path
                     priority_files example_env priority_settings c' f
                     Hload' Hc')
    as Hp'.
  split; [|split; [|split; [|split; [|split; [|split; [|split]]]]]].
  - split; [reflexivity|].
    by apply (proj1 (proj2 (Hp (ApiKey "openai"))) (SStr "file-key")).
  - by apply (proj1 (Hp (Model "openai"))).
  - by apply (proj1 (proj2 (proj2 (Hp OtlpEndpoint)))).
  - split; [reflexivity|].
    by apply (proj1 (proj2 (proj2 (Hp EnableOtel))) (SBool true)).
  - by apply (proj2 (proj2 (proj2 (Hp (Model "anthropic"))))).
  - split; [reflexivity|].
    by apply (proj1 (proj2 (Hp' EnableOtel)) (SBool false)).
  - split; [reflexivity|].
    by apply (proj1 (proj2 (Hp' MemoryHistoryLimit)) (SInt 10)).
  - by apply (proj2 (proj2 (proj2 (Hp' MemoryType)))).
Defined.

End ResolverTheorems.

Section DefaultProviderTheorems.
Import Schema ConfigStore Examples.

(** C7, as stated, fails on [AgentConfig.from_env]: with an empty
    environment it selects [openai]. *)
Lemma from_env_selects_openai_unasked :
  Config.llm_provider (Config.from_env "/home/agent" id ∅) = "openai"
  ∧ Config.get_model_display_name (Config.from_env "/home/agent" id ∅)
    = "OpenAI/gpt-5-mini"
  ∧ ¬ from_env_requires_opt_in.
Proof.
  split; [reflexivity|]. split; [reflexivity|].
  intros H. apply (H "/home/agent" id ∅); [reflexivity|].
  apply list_elem_of_here.
Qed.

(** C7, amended: the compiled defaults enable no provider, and resolution
    of the settings file selects no provider unless the file, the
    environment or the command line names one: whatever the file holds,
    the provider of a resolved configuration is the one the command line,
    the head of the enabled list or [LLM_PROVIDER] named, and when none of
    them names one, resolution fails.  [AgentConfig.from_env], however,
    falls back to [openai] when [LLM_PROVIDER] is unset, and it is
    [validate] that then refuses to run without an API key. *)
Theorem providers_need_opt_in_except_from_env :
  providers_enabled (providers get_default_config) = []
  ∧ Forall (λ kv, provider_enabled kv.2 = false)
      (providers_table (providers get_default_config))
  ∧ (∀ cli path (files : Files) (env : Config.Env) s,
       load_config path files = Ok s →
       cli ConfigResolver.LlmProvider = None →
       providers_enabled (providers s) = [] →
       Config.getenv env "LLM_PROVIDER" = None →
       ∃ msg, ConfigResolver.resolve cli path files env
              = Err (ConfigurationError msg))
  ∧ (∀ cli path (files : Files) (env : Config.Env),
       files !! path = None →
       cli ConfigResolver.LlmProvider = None →
       Config.getenv env "LLM_PROVIDER" = None →
       ∃ msg, ConfigResolver.resolve cli path files env
              = Err (ConfigurationError msg))
  ∧ (∀ cli path (files : Files) (env : Config.Env) s c,
       load_config path files = Ok s →
       ConfigResolver.resolve cli path files env = Ok c →
       cli ConfigResolver.LlmProvider
       = Some (ConfigResolver.SStr (ConfigResolver.llm_provider c))
       ∨ (cli ConfigResolver.LlmProvider = None
          ∧ head (providers_enabled (providers s))
            = Some (ConfigResolver.llm_provider c))
       ∨ (cli ConfigResolver.LlmProvider = None
          ∧ providers_enabled (providers s) = []
          ∧ Config.getenv env "LLM_PROVIDER"
            = Some (ConfigResolver.llm_provider c)))
  ∧ (∀ home expanduser (env : Config.Env),
       Config.llm_provider (Config.from_env home expanduser env)
       = default "openai" (Config.getenv env "LLM_PROVIDER"))
  ∧ (∀ home expanduser (env : Config.Env),
       Config.getenv env "LLM_PROVIDER" = None →
       Config.truthy (Config.getenv env "OPENAI_API_KEY") = false →
       ∃ msg, Config.validate (Config.from_env home expanduser env)
              = Err (ValueError msg)).
Proof.
  split; [reflexivity|]. split; [by repeat constructor|].
  split; [|split; [|split; [|split]]].
  - intros cli path files env s. apply resolve_without_provider.
  - intros cli path files env Hfile Hcli Henv.
    apply (resolve_without_provider cli path files env get_default_config);
      try done.
    unfold load_config. by rewrite Hfile.
  - intros cli path files env s c Hload Hres.
    destruct (resolve_provider cli path files env s c Hload Hres)
      as [Hp _].
    unfold ConfigResolver.lookup, ConfigResolver.resolve_field in Hp.
    destruct (cli ConfigResolver.LlmProvider) as [v|] eqn:Hcli.
    { left. by injection Hp as ->. }
    right. unfold ConfigResolver.file_layer in Hp.
    destruct (providers_enabled (providers s)) as [|p ps] eqn:Hen.
    + right. split; [done|]. split; [done|].
      unfold ConfigResolver.env_layer in Hp. simpl in Hp.
      destruct (Config.getenv env "LLM_PROVIDER") as [raw|]; simpl in Hp.
      * by injection Hp as ->.
      * discriminate.
    + left. split; [done|]. simpl in Hp. by injection Hp as ->.
  - intros. apply from_env_llm_provider.
  - intros home xu env Hp Hk. apply validate_openai_without_key; [|done].
    rewrite from_env_llm_provider. unfold Config.getenv in Hp.
    by rewrite Hp.
Qed.

Lemma providers_need_opt_in_except_from_env_witness :
  (∃ msg, ConfigResolver.resolve (λ _, None) "/nonexistent.json" ∅ ∅
          = Err (ConfigurationError msg))
  ∧ (providers_enabled (providers stale_settings) = []
     ∧ ∃ msg, ConfigResolver.resolve (λ _, None) settings_path
                (save_config stale_settings settings_path ∅)
                {[ "OPENAI_API_KEY" := "env-key" ]}
              = Err (ConfigurationError msg))
  ∧ (∃ msg, Config.validate (Config.from_env "/home/agent" id ∅)
            = Err (ValueError msg)).
Proof.
  destruct providers_need_opt_in_except_from_env
    as (_ & _ & Hfile & Hres & _ & _ & Hval).
  split; [apply Hres; reflexivity|]. split; [|apply Hval; reflexivity].
  split; [reflexivity|].
  apply (Hfile _ _ _ _ stale_settings); reflexivity.
Defined.

End DefaultProviderTheorems.

(** ** The skill commands *)

Section SkillProperties.
Import Schema SkillCommands.
Context `{Host}.

(** Unfolds one command down to the state it threads. *)
Ltac run_cmd :=
  unfold try_except, not_found, mbind, cmd_bind, mret, cmd_ret, raise, print,
    show, load_config, save_config, on_disk, read_disk; simpl.

(** *** Looking a plugin up *)

Lemma find_plugin_Some c ps i p :
  find_plugin c ps = Some (i, p) → ps !! i = Some p ∧ canonical_key p = c.
Proof. intros Hf. by apply list_find_Some in Hf as (Hi & Hk & _). Qed.

Lemma find_plugin_None c ps :
  find_plugin c ps = None ↔ c ∉ List.map canonical_key ps.
Proof.
  unfold find_plugin. rewrite list_find_None, Forall_forall.
  change (List.map canonical_key ps) with (canonical_key <$> ps).
  rewrite list_elem_of_fmap. unfold canonical_key. split.
  - intros Hall (p & Hc & Hp). by apply (Hall p).
  - intros Hnone p Hp Hc. apply Hnone. by exists p.
Qed.

Lemma find_plugin_is_Some c ps :
  is_Some (find_plugin c ps) ↔ c ∈ List.map canonical_key ps.
Proof.
  rewrite <- not_eq_None_Some, find_plugin_None.
  split; [apply dec_stable|]. intros Hin Hnot. by apply Hnot.
Qed.

(** *** One turn of the install loop *)

Lemma record_entry_found url br e ps i p :
  find_plugin (name_canonical e) ps = Some (i, p) →
  record_entry url br e ps = <[i := overwritten url br e p]> ps.
Proof. intros Hf. unfold record_entry. by rewrite Hf. Qed.

Lemma record_entry_new url br e ps :
  find_plugin (name_canonical e) ps = None →
  record_entry url br e ps
  = (ps ++ [{| name := name_canonical e; git_url := url; branch := br;
               enabled := true;
               installed_path := Some (entry_installed_path e);
               plugin_extra := [] |}])%list.
Proof. intros Hf. unfold record_entry. by rewrite Hf. Qed.

Lemma overwrite_keeps_names url br e ps i p :
  ps !! i = Some p →
  List.map name (<[i := overwritten url br e p]> ps) = List.map name ps.
Proof.
  intros Hi. change (@List.map) with (@fmap list _).
  rewrite list_fmap_insert. apply list_insert_id.
  by rewrite list_lookup_fmap, Hi.
Qed.

Lemma record_entry_keys url br e ps :
  List.map canonical_key (record_entry url br e ps)
  = (List.map canonical_key ps
     ++ match find_plugin (name_canonical e) ps with
        | Some _ => []
        | None => [normalize_skill_name (name_canonical e)]
        end)%list.
Proof.
  unfold record_entry.
  destruct (find_plugin (name_canonical e) ps) as [[i p]|] eqn:Hf.
  - apply find_plugin_Some in Hf as [Hi _]. rewrite app_nil_r.
    change (@List.map) with (@fmap list _).
    rewrite list_fmap_insert. apply list_insert_id.
    by rewrite list_lookup_fmap, Hi.
  - by rewrite List.map_app.
Qed.

Lemma record_entry_NoDup url br e ps :
  is_canonical (name_canonical e) →
  NoDup (List.map canonical_key ps) →
  NoDup (List.map canonical_key (record_entry url br e ps)).
Proof.
  intros Hc Hnd. rewrite record_entry_keys.
  destruct (find_plugin (name_canonical e) ps) eqn:Hf.
  - by rewrite app_nil_r.
  - apply NoDup_app. split; [done|]. split; [|apply NoDup_singleton].
    intros k Hk Hk'. apply list_elem_of_singleton in Hk'.
    apply find_plugin_None in Hf. by rewrite Hk', Hc in Hk.
Qed.

Lemma recorded_NoDup url br entries ps :
  Forall (λ e, is_canonical (name_canonical e)) entries →
  NoDup (List.map canonical_key ps) →
  NoDup (List.map canonical_key (recorded url br entries ps)).
Proof.
  unfold recorded. intros Hc. revert ps.
  induction Hc as [|e entries He _ IH]; intros ps Hnd; simpl; [done|].
  by apply IH, record_entry_NoDup.
Qed.

(** A name that is on record stays on record, at the same place. *)
Lemma record_entry_keeps_found url br e c ps :
  is_Some (find_plugin c ps) →
  is_Some (find_plugin c (record_entry url br e ps)).
Proof.
  rewrite !find_plugin_is_Some, record_entry_keys. intros Hc.
  apply elem_of_app. by left.
Qed.

Lemma recorded_in_place url br entries ps :
  Forall (λ e, is_Some (find_plugin (name_canonical e) ps)) entries →
  length (recorded url br entries ps) = length ps
  ∧ List.map name (recorded url br entries ps) = List.map name ps.
Proof.
  unfold recorded. revert ps.
  induction entries as [|e entries IH]; intros ps Hall; simpl; [done|].
  apply Forall_cons in Hall as [[[i p] Hf] Hall].
  destruct (IH (record_entry url br e ps)) as [Hlen Hnames].
  { eapply Forall_impl; [exact Hall|]. intros e'.
    apply record_entry_keeps_found. }
  rewrite Hlen, Hnames, (record_entry_found _ _ _ _ _ _ Hf).
  apply find_plugin_Some in Hf as [Hi _].
  split; [apply length_insert|by apply overwrite_keeps_names].
Qed.

(** *** Commands that only print *)

Lemma only_prints_print text : only_prints (print text).
Proof. intros w. by exists [Line text]. Qed.

Lemma only_prints_ret : only_prints (mret ()).
Proof.
  intros [st d out]. exists []. unfold mret, cmd_ret. simpl.
  by rewrite app_nil_r.
Qed.

Lemma only_prints_seq (c1 c2 : Cmd unit) :
  only_prints c1 → only_prints c2 → only_prints (c1 ;; c2).
Proof.
  intros H1 H2 w. destruct (H1 w) as [out1 E1].
  unfold mbind, cmd_bind. rewrite E1.
  destruct (H2 {| stored := stored w; disk := disk w;
                  console := (console w ++ out1)%list |}) as [out2 E2].
  rewrite E2. simpl. exists (out1 ++ out2)%list. by rewrite (assoc_L (++)).
Qed.

Lemma only_prints_show_installed entries :
  only_prints (show_installed entries).
Proof.
  assert (∀ l k, only_prints k →
            only_prints (foldr (λ entry rest,
               print ("  " ++ entry_name entry);;
               print ("    " ++ entry_installed_path entry);; rest) k l))
    as Hloop.
  { induction l as [|e l IH]; intros k Hk; simpl; [done|].
    repeat apply only_prints_seq; auto using only_prints_print. }
  unfold show_installed.
  destruct entries as [|e [|e' rest]];
    repeat first [apply only_prints_print | apply only_prints_seq
                 | apply Hloop].
Qed.

(** The loop of [install_skill] returns the settings with every entry
    recorded; it only prints. *)
Lemma add_to_config_run url br entries s w :
  ∃ out,
    add_to_config url br entries s w
    = (Ok (with_plugins (recorded url br entries (plugins (skills s))) s),
       {| stored := stored w; disk := disk w;
          console := (console w ++ out)%list |}).
Proof.
  revert s w. induction entries as [|e entries IH]; intros s w; simpl.
  - exists []. unfold mret, cmd_ret, recorded. rewrite app_nil_r.
    by destruct s as [? ? [] ? ? ?], w.
  - assert (only_prints
              match find_plugin (name_canonical e) (plugins (skills s)) with
              | Some _ => print ("Skill '" ++ entry_name e
                                 ++ "' already in config, updating...")
              | None => mret ()
              end) as Hp.
    { case_match; auto using only_prints_print, only_prints_ret. }
    destruct (Hp w) as [out1 E1]. unfold mbind, cmd_bind at 1. rewrite E1.
    destruct (IH (with_plugins
                    (record_entry url br e (plugins (skills s))) s)
                {| stored := stored w; disk := disk w;
                   console := (console w ++ out1)%list |}) as [out2 E2].
    rewrite E2. simpl. exists (out1 ++ out2)%list.
    by rewrite (assoc_L (++)).
Qed.

(** A successful clone is followed by the loop and by one save. *)
Lemma install_skill_run url nm br (w : World) s entries d' :
  stored w = Some s →
  manager_install url nm br (disk w) = (Ok entries, d') →
  ∃ out,
    install_skill url nm br w
    = (Ok (),
       {| stored :=
            Some (with_plugins
                    (recorded url br entries (plugins (skills s))) s);
          disk := d';
          console := (console w ++ out)%list |}).
Proof.
  intros Hs Hm. unfold install_skill.
  unfold try_except, mbind, cmd_bind at 1. simpl.
  unfold mbind, cmd_bind at 1. unfold load_config at 1. simpl. rewrite Hs.
  unfold mbind, cmd_bind at 1. simpl.
  unfold mbind, cmd_bind at 1. unfold on_disk at 1. simpl. rewrite Hm.
  unfold mbind, cmd_bind at 1.
  destruct (only_prints_show_installed entries
              {| stored := Some s; disk := d';
                 console := ((console w
                              ++ [Line ("Installing skill(s) from: " ++ url)])
                             ++ [Line "Cloning repository..."])%list |})
    as [out1 E1].
  simpl in E1. rewrite E1.
  unfold mbind, cmd_bind at 1.
  match goal with
  | |- context [add_to_config url br entries s ?w0] =>
      destruct (add_to_config_run url br entries s w0) as [out2 E2]
  end.
  rewrite E2. simpl.
  unfold mbind, cmd_bind, save_config, print. simpl.
  destruct entries as [|e [|e' rest]]; simpl; eexists;
    rewrite <- !(assoc_L (++)); reflexivity.
Qed.

Lemma update_skill_not_found (w : World) s skill :
  stored w = Some s →
  find_plugin (normalize_skill_name skill) (plugins (skills s)) = None →
  update_skill skill w
  = (Err (Exit 1),
     {| stored := stored w; disk := disk w;
        console :=
          console w
          ++ [Line ("Updating skill: " ++ skill);
              Line ("Error: Skill '" ++ skill ++ "' not found in plugin list");
              Line "Run 'agent skill list' to see installed skills";
              Line "Error updating skill: 1"] |}).
Proof.
  intros Hs Hfind. unfold update_skill. run_cmd. rewrite Hs. simpl.
  rewrite Hfind. simpl. by rewrite <- !(assoc_L (++)).
Qed.

(** *** [remove_skill] *)

Lemma find_plugin_filtered c ps :
  find_plugin c (filter (λ p, normalize_skill_name (name p) ≠ c) ps) = None.
Proof.
  apply find_plugin_None. intros Hin.
  change (@List.map) with (@fmap list _) in Hin.
  apply list_elem_of_fmap in Hin as (p & -> & Hp).
  by apply list_elem_of_filter in Hp as [Hne _].
Qed.

Lemma remove_skill_keep_files_run (w : World) s skill ip :
  stored w = Some s →
  find_plugin (normalize_skill_name skill) (plugins (skills s)) = Some ip →
  remove_skill skill true true w
  = (Ok (),
     {| stored :=
          Some (with_plugins
                  (filter (λ p, normalize_skill_name (name p)
                                ≠ normalize_skill_name skill)
                     (plugins (skills s))) s);
        disk := disk w;
        console :=
          console w
          ++ [Line ("Removing skill: " ++ skill);
              Line ("Removed '" ++ skill ++ "' from configuration")] |}).
Proof.
  intros Hs Hfind. unfold remove_skill. run_cmd. rewrite Hs. simpl.
  rewrite Hfind. simpl. by rewrite <- !(assoc_L (++)).
Qed.

Lemma remove_skill_declined (w : World) s skill keep_files ip :
  stored w = Some s →
  find_plugin (normalize_skill_name skill) (plugins (skills s)) = Some ip →
  remove_skill skill keep_files false w
  = (Ok (),
     {| stored := stored w; disk := disk w;
        console :=
          console w
          ++ [Line ("Removing skill: " ++ skill); Line "Cancelled"] |}).
Proof.
  intros Hs Hfind. unfold remove_skill. run_cmd. rewrite Hs. simpl.
  rewrite Hfind. simpl. by rewrite <- !(assoc_L (++)).
Qed.

(** *** [enable_skill] and [disable_skill] on the list of disabled skills *)

Lemma disable_skill_disabled_bundled (w : World) s skill :
  stored w = Some s →
  ∃ s', stored (disable_skill skill w).2 = Some s'
        ∧ disk (disable_skill skill w).2 = disk w
        ∧ (disabled_bundled (skills s') = disabled_bundled (skills s)
           ∨ (find_plugin (normalize_skill_name skill) (plugins (skills s))
              = None
              ∧ (normalize_skill_name skill
                 ∉ List.map normalize_skill_name
                     (disabled_bundled (skills s)))
              ∧ disabled_bundled (skills s')
                = (disabled_bundled (skills s)
                   ++ [normalize_skill_name skill])%list)).
Proof.
  intros Hs. unfold disable_skill. run_cmd. rewrite Hs. simpl.
  destruct (find_plugin _ _) as [[i p]|] eqn:Hf; simpl.
  - destruct (enabled p); simpl; eauto.
  - case_bool_decide as Hin; simpl; eauto 10.
Qed.

Lemma enable_skill_disabled_bundled (w : World) s skill :
  stored w = Some s →
  ∃ s', stored (enable_skill skill w).2 = Some s'
        ∧ disk (enable_skill skill w).2 = disk w
        ∧ (disabled_bundled (skills s') = disabled_bundled (skills s)
           ∨ disabled_bundled (skills s')
             = filter (λ n, normalize_skill_name n
                            ≠ normalize_skill_name skill)
                 (disabled_bundled (skills s))).
Proof.
  intros Hs. unfold enable_skill. run_cmd. rewrite Hs. simpl.
  destruct (find_plugin _ _) as [[i p]|] eqn:Hf; simpl.
  - destruct (enabled p); simpl; eauto.
  - case_bool_decide as Hin; simpl; eauto 10.
Qed.

(** *** The commands look names up by their canonical form *)

Lemma update_skill_by_canonical_name a b (w : World) :
  normalize_skill_name a = normalize_skill_name b →
  (update_skill a w).1 = (update_skill b w).1
  ∧ stored (update_skill a w).2 = stored (update_skill b w).2
  ∧ disk (update_skill a w).2 = disk (update_skill b w).2.
Proof.
  intros Hab. unfold update_skill. run_cmd. rewrite Hab.
  destruct (stored w); simpl; [|done].
  destruct (find_plugin _ _) as [[i p]|]; simpl; [|done].
  by destruct (manager_update _ _) as [[] ?].
Qed.

Lemma remove_skill_by_canonical_name a b keep_files confirm (w : World) :
  normalize_skill_name a = normalize_skill_name b →
  (remove_skill a keep_files confirm w).1
  = (remove_skill b keep_files confirm w).1
  ∧ stored (remove_skill a keep_files confirm w).2
    = stored (remove_skill b keep_files confirm w).2
  ∧ disk (remove_skill a keep_files confirm w).2
    = disk (remove_skill b keep_files confirm w).2.
Proof.
  intros Hab. unfold remove_skill. run_cmd. rewrite Hab.
  destruct (stored w); simpl; [|done].
  destruct (find_plugin _ _) as [[i p]|]; simpl; [|done].
  destruct confirm, keep_files; simpl; try done.
  by destruct (manager_remove _ _) as [[] ?].
Qed.

(** *** What the install loop leaves on record *)

Lemma registers_kept url br e e' ps :
  (∃ p, p ∈ ps ∧ registers url br e p) →
  ∃ p, p ∈ record_entry url br e' ps ∧ registers url br e p.
Proof.
  intros (p & Hin & Hreg). unfold record_entry.
  destruct (find_plugin (name_canonical e') ps) as [[i q]|] eqn:Hf.
  - apply find_plugin_Some in Hf as [Hi _].
    apply list_elem_of_lookup in Hin as [j Hj].
    destruct (decide (i = j)) as [->|Hne].
    + assert (q = p) as -> by congruence.
      eexists. split.
      * apply list_elem_of_lookup. exists j.
        apply list_lookup_insert_eq. by eapply lookup_lt_Some.
      * destruct Hreg as (Hname & _). by repeat split.
    + exists p. split; [|done]. apply list_elem_of_lookup. exists j.
      by rewrite list_lookup_insert_ne.
  - exists p. split; [|done]. apply elem_of_app. by left.
Qed.

Lemma registers_now url br e ps :
  ∃ p, p ∈ record_entry url br e ps ∧ registers url br e p.
Proof.
  unfold record_entry.
  destruct (find_plugin (name_canonical e) ps) as [[i q]|] eqn:Hf.
  - apply find_plugin_Some in Hf as [Hi Hk]. eexists. split.
    + apply list_elem_of_lookup. exists i.
      apply list_lookup_insert_eq. by eapply lookup_lt_Some.
    + repeat split. by left.
  - eexists. split.
    + apply elem_of_app. right. apply list_elem_of_here.
    + repeat split. by right.
Qed.

Lemma recorded_registers url br entries ps e :
  e ∈ entries →
  ∃ p, p ∈ recorded url br entries ps ∧ registers url br e p.
Proof.
  assert (∀ l qs, (∃ p, p ∈ qs ∧ registers url br e p) →
            ∃ p, p ∈ recorded url br l qs ∧ registers url br e p) as Hkeep.
  { unfold recorded. induction l as [|e' l IH]; intros qs Hqs; simpl;
      [done|]. by apply IH, registers_kept. }
  unfold recorded in *. revert ps.
  induction entries as [|e0 entries IH]; intros ps Hin.
  - by apply elem_of_nil in Hin.
  - simpl. apply elem_of_cons in Hin as [->|Hin]; [|by apply IH].
    apply Hkeep, registers_now.
Qed.

(** *** [list_skills] *)

(** A configured directory that is missing yields no bundled skill, whatever
    auto-detection would find. *)
Lemma bundled_skills_stale s (d : Disk) dir :
  bundled_dir (skills s) = Some dir → d !! dir = None →
  bundled_skills s d = [].
Proof. intros Hdir Hd. unfold bundled_skills. by rewrite Hdir, Hd. Qed.

Lemma bundled_skills_unset s (d : Disk) :
  bundled_dir (skills s) = None → bundled_skills s d = auto_detected d.
Proof. intros Hdir. unfold bundled_skills, auto_detected. by rewrite Hdir. Qed.

Lemma find_plugin_elem c ps :
  is_Some (find_plugin c ps)
  ↔ ∃ p, p ∈ ps ∧ normalize_skill_name (name p) = c.
Proof.
  rewrite find_plugin_is_Some.
  change (@List.map) with (@fmap list _). rewrite list_elem_of_fmap.
  unfold canonical_key. split; intros (p & Hp1 & Hp2); by exists p.
Qed.

(** *** What the commands do once the lookup has answered *)

Lemma update_skill_found (w : World) s skill ip :
  stored w = Some s →
  find_plugin (normalize_skill_name skill) (plugins (skills s)) = Some ip →
  disk (update_skill skill w).2
  = (manager_update (normalize_skill_name skill) (disk w)).2
  ∧ ((update_skill skill w).1 = Ok ()
     ↔ ∃ updated_path,
         (manager_update (normalize_skill_name skill) (disk w)).1
         = Ok updated_path).
Proof.
  intros Hs Hf. unfold update_skill. run_cmd. rewrite Hs. simpl.
  rewrite Hf. destruct ip as [i p]. simpl.
  destruct (manager_update _ _) as [[path|e|signal] d]; simpl.
  - split; [done|]. split; [by eauto|done].
  - split; [done|]. split; [discriminate|]. by intros [? ?].
  - split; [done|]. split; [discriminate|]. by intros [? ?].
Qed.

Lemma remove_skill_not_found (w : World) s skill keep_files confirm :
  stored w = Some s →
  find_plugin (normalize_skill_name skill) (plugins (skills s)) = None →
  (remove_skill skill keep_files confirm w).1 = Err (Exit 1)
  ∧ stored (remove_skill skill keep_files confirm w).2 = stored w
  ∧ disk (remove_skill skill keep_files confirm w).2 = disk w.
Proof.
  intros Hs Hf. unfold remove_skill. run_cmd. rewrite Hs. simpl.
  by rewrite Hf.
Qed.

Lemma record_entry_length url br e ps :
  (is_Some (find_plugin (name_canonical e) ps) →
   length (record_entry url br e ps) = length ps)
  ∧ (find_plugin (name_canonical e) ps = None →
     length (record_entry url br e ps) = S (length ps)).
Proof.
  split.
  - intros [[i p] Hf]. rewrite (record_entry_found _ _ _ _ _ _ Hf).
    apply length_insert.
  - intros Hf. rewrite (record_entry_new _ _ _ _ Hf).
    rewrite length_app. simpl. lia.
Qed.

End SkillProperties.

(** ** The canonical form of a name *)

Section CanonicalizerProperties.
Import NameCanonicalizer.

Lemma safe_is_lowered c : is_safe c = true → lower c = c.
Proof. by destruct c as [[] [] [] [] [] [] [] []]. Qed.

Lemma safe_is_no_separator c : is_safe c = true → is_separator c = false.
Proof. by destruct c as [[] [] [] [] [] [] [] []]. Qed.

Lemma canonical_chars_safe max_len l :
  Forall (λ c, is_safe c = true) (canonical_chars max_len l).
Proof.
  unfold canonical_chars. apply Forall_take, Forall_forall.
  intros c Hc%list_elem_of_In. by apply filter_In in Hc as [_ Hc].
Qed.

Lemma canonical_chars_length max_len l :
  (List.length (canonical_chars max_len l) ≤ max_len)%nat.
Proof. unfold canonical_chars. rewrite length_take. lia. Qed.

Lemma collapse_safe l :
  Forall (λ c, is_safe c = true) l → collapse l = l.
Proof.
  induction 1 as [|c l Hc _ IH]; simpl; [done|].
  by rewrite (safe_is_no_separator c Hc), IH.
Qed.

Lemma canonical_chars_fixed max_len l :
  Forall (λ c, is_safe c = true) l → (List.length l ≤ max_len)%nat →
  canonical_chars max_len l = l.
Proof.
  intros Hsafe Hlen. unfold canonical_chars.
  assert (List.map lower l = l) as ->.
  { induction Hsafe as [|c l Hc _ IH]; simpl; [done|].
    simpl in Hlen. rewrite (safe_is_lowered c Hc), IH; [done|lia]. }
  rewrite (collapse_safe l Hsafe).
  assert (List.filter is_safe l = l) as ->.
  { clear Hlen. induction Hsafe as [|c l Hc _ IH]; simpl; [done|].
    by rewrite Hc, IH. }
  by apply take_ge.
Qed.

(** A canonical name is its own canonical form. *)
Lemma canonicalize_idempotent max_len raw :
  canonicalize max_len (canonicalize max_len raw) = canonicalize max_len raw.
Proof.
  unfold canonicalize. rewrite list_ascii_of_string_of_list_ascii.
  f_equal. apply canonical_chars_fixed.
  - apply canonical_chars_safe.
  - apply canonical_chars_length.
Qed.

(** Trimming aside, the canonical form does not depend on the bound. *)
Lemma canonicalize_short max_len raw :
  (List.length
     (List.filter is_safe
        (collapse (List.map lower (list_ascii_of_string raw))))
   ≤ max_len)%nat →
  canonicalize max_len raw
  = string_of_list_ascii
      (List.filter is_safe
         (collapse (List.map lower (list_ascii_of_string raw)))).
Proof.
  intros Hlen. unfold canonicalize, canonical_chars. by rewrite take_ge.
Qed.

End CanonicalizerProperties.

(** ** Theorems on the skill commands *)

Section SkillTheorems.
Import Schema SkillCommands.
Context `{Host}.

(** C4: when the unit a clone discovers has the canonical name of a plugin
    already on record, [install_skill] overwrites that entry where it stands
    and appends nothing; and if the names on record were pairwise distinct
    once canonicalised, they still are after the install (the canonical
    names the manager reports being canonical). *)
Theorem install_updates_in_place url nm br (w : World) s entries d' :
  stored w = Some s →
  manager_install url nm br (disk w) = (Ok entries, d') →
  ∃ s',
    stored (install_skill url nm br w).2 = Some s'
    ∧ plugins (skills s') = recorded url br entries (plugins (skills s))
    ∧ (∀ e ps i p,
         find_plugin (name_canonical e) ps = Some (i, p) →
         record_entry url br e ps = <[i := overwritten url br e p]> ps
         ∧ length (record_entry url br e ps) = length ps)
    ∧ (Forall (λ e, is_Some (find_plugin (name_canonical e)
                               (plugins (skills s)))) entries →
       length (plugins (skills s')) = length (plugins (skills s))
       ∧ List.map name (plugins (skills s'))
         = List.map name (plugins (skills s)))
    ∧ (Forall (λ e, is_canonical (name_canonical e)) entries →
       NoDup (List.map canonical_key (plugins (skills s))) →
       NoDup (List.map canonical_key (plugins (skills s')))).
Proof.
  intros Hs Hm.
  destruct (install_skill_run url nm br w s entries d' Hs Hm) as [out E].
  rewrite E.
  exists (with_plugins (recorded url br entries (plugins (skills s))) s).
  simpl. split; [done|]. split; [done|]. split; [|split].
  - intros e ps i p Hf. rewrite (record_entry_found _ _ _ _ _ _ Hf).
    split; [done|apply length_insert].
  - apply recorded_in_place.
  - apply recorded_NoDup.
Qed.

(** C10: after an install that succeeded, every discovered unit has its
    record in the plugin list, enabled and carrying the URL and branch of
    this install; when the install discovers one unit whose record exists
    and is disabled, that record is overwritten where it stands: same name,
    new URL, branch and path, and enabled. *)
Theorem install_records_enabled url nm br (w : World) s entries d' :
  stored w = Some s →
  manager_install url nm br (disk w) = (Ok entries, d') →
  ∃ s',
    (install_skill url nm br w).1 = Ok ()
    ∧ stored (install_skill url nm br w).2 = Some s'
    ∧ (∀ e, e ∈ entries →
            ∃ p, p ∈ plugins (skills s') ∧ registers url br e p)
    ∧ (∀ e i p,
         entries = [e] →
         find_plugin (name_canonical e) (plugins (skills s)) = Some (i, p) →
         enabled p = false →
         plugins (skills s')
         = <[i := {| name := name p; git_url := url; branch := br;
                     enabled := true;
                     installed_path := Some (entry_installed_path e);
                     plugin_extra := plugin_extra p |}]>
             (plugins (skills s))).
Proof.
  intros Hs Hm.
  destruct (install_skill_run url nm br w s entries d' Hs Hm) as [out E].
  rewrite E.
  exists (with_plugins (recorded url br entries (plugins (skills s))) s).
  simpl. split; [done|]. split; [done|]. split.
  - intros e He. by apply recorded_registers.
  - intros e i p -> Hf _. unfold recorded. simpl.
    by rewrite (record_entry_found _ _ _ _ _ _ Hf).
Qed.

(** C6, amended: when no plugin on record has the canonical form of the
    name, [update_skill] reports the name as not found and leaves with
    [typer.Exit(1)]; the skill manager is not called, and neither the skill
    directories nor the settings document change. *)
Theorem update_unknown_skill_exits_unchanged (w : World) s skill :
  stored w = Some s →
  find_plugin (normalize_skill_name skill) (plugins (skills s)) = None →
  (update_skill skill w).1 = Err (Exit 1)
  ∧ stored (update_skill skill w).2 = stored w
  ∧ disk (update_skill skill w).2 = disk w
  ∧ Line ("Error: Skill '" ++ skill ++ "' not found in plugin list")
    ∈ console (update_skill skill w).2.
Proof.
  intros Hs Hf. rewrite (update_skill_not_found w s skill Hs Hf). simpl.
  repeat split. apply elem_of_app. right.
  apply list_elem_of_further, list_elem_of_here.
Qed.

(** C9, amended: for a plugin on record, [remove_skill] with
    [keep_files = True], once the user confirms the prompt, removes the
    entry from the plugin list and saves the settings, and leaves every
    skill directory as it is; when the user declines, nothing changes. *)
Theorem remove_keep_files_when_confirmed (w : World) s skill ip :
  stored w = Some s →
  find_plugin (normalize_skill_name skill) (plugins (skills s)) = Some ip →
  ((remove_skill skill true true w).1 = Ok ()
   ∧ (∃ s', stored (remove_skill skill true true w).2 = Some s'
            ∧ plugins (skills s')
              = filter (λ p, normalize_skill_name (name p)
                             ≠ normalize_skill_name skill)
                  (plugins (skills s))
            ∧ find_plugin (normalize_skill_name skill) (plugins (skills s'))
              = None)
   ∧ disk (remove_skill skill true true w).2 = disk w)
  ∧ ((remove_skill skill true false w).1 = Ok ()
     ∧ stored (remove_skill skill true false w).2 = stored w
     ∧ disk (remove_skill skill true false w).2 = disk w).
Proof.
  intros Hs Hf. split.
  - rewrite (remove_skill_keep_files_run w s skill ip Hs Hf). simpl.
    split; [done|]. split; [|done]. eexists. split; [done|]. simpl.
    split; [done|]. apply find_plugin_filtered.
  - by rewrite (remove_skill_declined w s skill true ip Hs Hf).
Qed.

End SkillTheorems.

(** ** The commands at work *)

Section SkillExamples.
Import Schema SkillCommands Examples.
Import ConfigStore (get_default_config).

(** C3: [list_skills] does not do what the specification and
    [test_show_skills_with_nonexistent_bundled_dir_falls_back_to_auto_detect]
    ask.  The configured bundled directory does not exist and auto-detection
    would find [test-skill]; the listing reports that no bundled skill was
    found, where it lists [test-skill] once [bundled_dir] is unset. *)
Theorem list_skills_stale_dir_no_fallback :
  bundled_dir (skills stale_settings) = Some "/nonexistent/path/to/skills"
  ∧ disk stale_world !! "/nonexistent/path/to/skills" = None
  ∧ @auto_detected host (disk stale_world) = ["test-skill"]
  ∧ @bundled_skills host stale_settings (disk stale_world) = []
  ∧ console (@list_skills host stale_world).2
    = [Line "Agent Skills";
       Line "No bundled skills found";
       Line "No plugin skills installed";
       Line "Summary: 0/0 bundled enabled, 0/0 plugins enabled";
       Line ""]
  ∧ console (@list_skills host fresh_world).2
    = [Line "Agent Skills";
       BundledTable [("test-skill", true)];
       Line "";
       Line "No plugin skills installed";
       Line "Summary: 1/1 bundled enabled, 0/0 plugins enabled";
       Line ""].
Proof. repeat split; vm_compute; reflexivity. Qed.

Lemma install_updates_in_place_witness :
  ∃ s',
    stored (@install_skill cloning_host "https://host/repo.git" None "main"
              plugin_world).2 = Some s'
    ∧ length (plugins (skills s')) = 1
    ∧ List.map name (plugins (skills s')) = ["My_Skill"]
    ∧ NoDup (List.map (@canonical_key cloning_host) (plugins (skills s'))).
Proof.
  destruct (@install_updates_in_place cloning_host "https://host/repo.git"
              None "main" plugin_world plugin_settings [my_skill_entry]
              (foldr (λ entry acc,
                        <[entry_installed_path entry := [entry_name entry]]>
                          acc)
                 (disk plugin_world) [my_skill_entry])
              eq_refl eq_refl)
    as (s' & Hst & _ & _ & Hlen & Hnd).
  exists s'. split; [exact Hst|].
  destruct Hlen as [Hlen Hnames].
  { repeat constructor. vm_compute. eauto. }
  split; [exact Hlen|]. split; [exact Hnames|].
  apply Hnd.
  - repeat constructor.
  - vm_compute. apply NoDup_singleton.
Defined.

Lemma install_records_enabled_witness :
  ∃ s',
    stored (@install_skill cloning_host "https://host/repo.git" None "main"
              plugin_world).2 = Some s'
    ∧ enabled my_skill = false
    ∧ plugins (skills s')
      = [{| name := "My_Skill"; git_url := "https://host/repo.git";
            branch := "main"; enabled := true;
            installed_path := Some (managed_path "my-skill");
            plugin_extra := [] |}]
    ∧ (∃ p, p ∈ plugins (skills s')
            ∧ @registers cloning_host "https://host/repo.git" "main"
                my_skill_entry p).
Proof.
  destruct (@install_records_enabled cloning_host "https://host/repo.git"
              None "main" plugin_world plugin_settings [my_skill_entry]
              (foldr (λ entry acc,
                        <[entry_installed_path entry := [entry_name entry]]>
                          acc)
                 (disk plugin_world) [my_skill_entry])
              eq_refl eq_refl)
    as (s' & _ & Hst & Hreg & Hover).
  exists s'. split; [exact Hst|]. split; [reflexivity|]. split.
  - apply (Hover my_skill_entry 0 my_skill eq_refl); reflexivity.
  - apply Hreg. apply list_elem_of_here.
Defined.

(** C6, as stated, fails: the command leaves with [typer.Exit(1)], not with
    [SkillNotFoundError]. *)
Lemma update_missing_skill_exits :
  (@update_skill host "missing-skill" fresh_world).1 = Err (Exit 1)
  ∧ (@update_skill host "missing-skill" fresh_world).1
    ≠ Err (SkillNotFoundError "missing-skill")
  ∧ (@update_skill host "missing-skill" fresh_world).1
    ≠ Err (SkillNotFoundError (@normalize_skill_name host "missing-skill")).
Proof. repeat split; vm_compute; discriminate. Qed.

Lemma update_unknown_skill_exits_unchanged_witness :
  (@update_skill host "missing-skill" fresh_world).1 = Err (Exit 1)
  ∧ stored (@update_skill host "missing-skill" fresh_world).2
    = stored fresh_world
  ∧ disk (@update_skill host "missing-skill" fresh_world).2
    = disk fresh_world
  ∧ Line "Error: Skill 'missing-skill' not found in plugin list"
    ∈ console (@update_skill host "missing-skill" fresh_world).2.
Proof.
  apply (@update_unknown_skill_exits_unchanged host fresh_world
           get_default_config "missing-skill"); reflexivity.
Defined.

(** C8: [disable_skill] does not keep the invariant.  Its comment says of
    a name that no plugin has that it "must be a bundled skill", but the
    bundled skills are never consulted: whatever the disk holds, the
    canonical form of every name that no plugin has and the list does not
    hold yet is appended to [disabled_bundled], and the command reports the
    skill as disabled.  With [test-skill] as only bundled skill, disabling
    ["Ghost Skill"] leaves [ghost-skill] on the list. *)
Theorem disable_skill_adds_unknown_name :
  (∀ (H : Host) (w : World) s skill,
     stored w = Some s →
     find_plugin (normalize_skill_name skill) (plugins (skills s)) = None →
     normalize_skill_name skill
     ∉ List.map normalize_skill_name (disabled_bundled (skills s)) →
     disable_skill skill w
     = (Ok (),
        {| stored :=
             Some (with_disabled_bundled
                     (disabled_bundled (skills s)
                      ++ [normalize_skill_name skill]) s);
           disk := disk w;
           console :=
             console w
             ++ [Line ("Disabling skill: " ++ skill);
                 Line ("Disabled bundled skill: " ++ skill);
                 Line ""] |}))
  ∧ @bundled_skills host get_default_config (disk fresh_world)
    = ["test-skill"]
  ∧ (disabled_bundled ∘ skills
     <$> stored (@disable_skill host "Ghost Skill" fresh_world).2)
    = Some ["ghost-skill"]
  ∧ (@disable_skill host "Ghost Skill" fresh_world).1 = Ok ()
  ∧ "ghost-skill"
    ∉ @bundled_skills host get_default_config (disk fresh_world).
Proof.
  split.
  { intros H w s skill Hs Hf Hnot. unfold disable_skill.
    unfold try_except, not_found, mbind, cmd_bind, mret, cmd_ret, raise,
      print, show, load_config, save_config, on_disk, read_disk. simpl.
    rewrite Hs. simpl. rewrite Hf. simpl.
    rewrite bool_decide_eq_true_2 by done. simpl.
    by rewrite <- !(assoc_L (++)). }
  split; [vm_compute; reflexivity|]. split; [vm_compute; reflexivity|].
  split; [vm_compute; reflexivity|].
  assert (@bundled_skills host get_default_config (disk fresh_world)
          = ["test-skill"]) as -> by (vm_compute; reflexivity).
  by intros [=]%list_elem_of_singleton.
Qed.

(** C9, as stated, fails: when the user declines the prompt the entry stays
    on record. *)
Lemma remove_skill_declined_keeps_entry :
  is_Some (@find_plugin host (@normalize_skill_name host "My Skill")
             (plugins (skills plugin_settings)))
  ∧ (@remove_skill host "My Skill" true false plugin_world).1 = Ok ()
  ∧ stored (@remove_skill host "My Skill" true false plugin_world).2
    = Some plugin_settings
  ∧ plugins (skills plugin_settings) = [my_skill].
Proof. repeat split; vm_compute; eauto. Qed.

Lemma remove_keep_files_when_confirmed_witness :
  (∃ s', stored (@remove_skill host "My Skill" true true plugin_world).2
         = Some s'
         ∧ @find_plugin host (@normalize_skill_name host "My Skill")
             (plugins (skills s')) = None)
  ∧ disk (@remove_skill host "My Skill" true true plugin_world).2
    = disk plugin_world
  ∧ stored (@remove_skill host "My Skill" true false plugin_world).2
    = stored plugin_world.
Proof.
  destruct (@remove_keep_files_when_confirmed host plugin_world
              plugin_settings "My Skill" (0, my_skill) eq_refl)
    as [(_ & (s' & Hst & _ & Hnone) & Hdisk) (_ & Hkept & _)].
  { vm_compute. reflexivity. }
  split; [by exists s'|]. by split.
Defined.

End SkillExamples.

Section IdentityTheorems.
Import Schema SkillCommands Examples NameCanonicalizer.

(** C5: two raw names with the same canonical form are the same skill to
    the commands.  [update_skill] and [remove_skill] return the same result
    and leave the same settings and the same disk for either name, and they
    act on a plugin exactly when one on record has the canonical form of the
    name asked for, whatever its raw name: [update_skill] then hands that
    canonical form to the skill manager and returns when the manager does,
    [remove_skill] takes every plugin of that canonical form off the list;
    when no plugin on record has it, both leave with [typer.Exit(1)] and
    change nothing.  The duplicate check of [install_skill] overwrites an
    entry, instead of appending one, exactly when a plugin on record has
    the canonical name of the unit.  And ["My Cool_Skill!!"] and
    ["my-cool-skill"] have the same canonical form. *)
Theorem same_canonical_name_same_skill :
  (∀ (H : Host) a b keep_files confirm (w : World),
     normalize_skill_name a = normalize_skill_name b →
     ((update_skill a w).1 = (update_skill b w).1
      ∧ stored (update_skill a w).2 = stored (update_skill b w).2
      ∧ disk (update_skill a w).2 = disk (update_skill b w).2)
     ∧ ((remove_skill a keep_files confirm w).1
        = (remove_skill b keep_files confirm w).1
        ∧ stored (remove_skill a keep_files confirm w).2
          = stored (remove_skill b keep_files confirm w).2
        ∧ disk (remove_skill a keep_files confirm w).2
          = disk (remove_skill b keep_files confirm w).2))
  ∧ (∀ (H : Host) canonical_name ps,
       is_Some (find_plugin canonical_name ps)
       ↔ ∃ p, p ∈ ps ∧ normalize_skill_name (name p) = canonical_name)
  ∧ (∀ (H : Host) skill (w : World) s p,
       stored w = Some s →
       p ∈ plugins (skills s) →
       normalize_skill_name (name p) = normalize_skill_name skill →
       (disk (update_skill skill w).2
        = (manager_update (normalize_skill_name skill) (disk w)).2
        ∧ ((update_skill skill w).1 = Ok ()
           ↔ ∃ updated_path,
               (manager_update (normalize_skill_name skill) (disk w)).1
               = Ok updated_path))
       ∧ ((remove_skill skill true true w).1 = Ok ()
          ∧ ∃ s', stored (remove_skill skill true true w).2 = Some s'
                  ∧ plugins (skills s')
                    = filter (λ q, normalize_skill_name (name q)
                                   ≠ normalize_skill_name skill)
                        (plugins (skills s))
                  ∧ p ∉ plugins (skills s')))
  ∧ (∀ (H : Host) skill keep_files confirm (w : World) s,
       stored w = Some s →
       (∀ p, p ∈ plugins (skills s) →
             normalize_skill_name (name p) ≠ normalize_skill_name skill) →
       ((update_skill skill w).1 = Err (Exit 1)
        ∧ stored (update_skill skill w).2 = stored w
        ∧ disk (update_skill skill w).2 = disk w)
       ∧ ((remove_skill skill keep_files confirm w).1 = Err (Exit 1)
          ∧ stored (remove_skill skill keep_files confirm w).2 = stored w
          ∧ disk (remove_skill skill keep_files confirm w).2 = disk w))
  ∧ (∀ (H : Host) url br e ps,
       ((∃ p, p ∈ ps ∧ normalize_skill_name (name p) = name_canonical e)
        ↔ length (record_entry url br e ps) = length ps)
       ∧ ((∀ p, p ∈ ps →
                normalize_skill_name (name p) ≠ name_canonical e)
          ↔ length (record_entry url br e ps) = S (length ps)))
  ∧ (∀ (H : Host) url br e1 e2 ps,
       name_canonical e1 = name_canonical e2 →
       entry_installed_path e1 = entry_installed_path e2 →
       record_entry url br e1 ps = record_entry url br e2 ps)
  ∧ (∀ max_len : nat, (13 ≤ max_len)%nat →
       canonicalize max_len "My Cool_Skill!!" = "my-cool-skill"
       ∧ canonicalize max_len "my-cool-skill" = "my-cool-skill").
Proof.
  split; [|split; [|split; [|split; [|split; [|split]]]]].
  - intros H a b keep_files confirm w Hab. split.
    + by apply update_skill_by_canonical_name.
    + by apply remove_skill_by_canonical_name.
  - intros H c ps. apply find_plugin_elem.
  - intros H skill w s p Hs Hp Hc.
    assert (is_Some (find_plugin (normalize_skill_name skill)
                       (plugins (skills s)))) as [ip Hf]
      by (apply find_plugin_elem; by exists p).
    split; [by eapply update_skill_found|].
    rewrite (remove_skill_keep_files_run w s skill ip Hs Hf). simpl.
    split; [done|]. eexists. split; [done|]. simpl. split; [done|].
    intros Hin. apply list_elem_of_filter in Hin as [Hne _]. by apply Hne.
  - intros H skill keep_files confirm w s Hs Hnone.
    assert (find_plugin (normalize_skill_name skill) (plugins (skills s))
            = None) as Hf.
    { apply eq_None_not_Some. intros (p & Hp & Hc)%find_plugin_elem.
      by apply (Hnone p). }
    split.
    + rewrite (update_skill_not_found w s skill Hs Hf). by simpl.
    + by apply (remove_skill_not_found w s).
  - intros H url br e ps.
    destruct (record_entry_length url br e ps) as [Hfound Hnew].
    destruct (find_plugin (name_canonical e) ps) as [ip|] eqn:Hf.
    + assert (∃ p, p ∈ ps ∧ normalize_skill_name (name p) = name_canonical e)
        as Hex by (apply find_plugin_elem; by rewrite Hf).
      split.
      * split; [intros _; by apply Hfound|done].
      * split.
        -- intros Hnone. destruct Hex as (p & Hp & Hc). by destruct (Hnone p).
        -- rewrite Hfound by done. lia.
    + assert (∀ p, p ∈ ps →
                   normalize_skill_name (name p) ≠ name_canonical e)
        as Hnone.
      { intros p Hp Hc.
        assert (is_Some (find_plugin (name_canonical e) ps)) as [? Hs]
          by (apply find_plugin_elem; by exists p).
        congruence. }
      split.
      * split.
        -- intros (p & Hp & Hc). by destruct (Hnone p).
        -- rewrite Hnew by done. lia.
      * split; [intros _; by apply Hnew|done].
  - intros H url br e1 e2 ps Hn Hp. unfold record_entry.
    by rewrite Hn, Hp.
  - intros max_len Hlen.
    split; (rewrite canonicalize_short; [reflexivity|exact Hlen]).
Qed.

Lemma same_canonical_name_same_skill_witness :
  @normalize_skill_name host "My Skill" = @normalize_skill_name host "my_skill"
  ∧ (@update_skill host "My Skill" plugin_world).1
    = (@update_skill host "my_skill" plugin_world).1
  ∧ stored (@remove_skill host "My Skill" false true plugin_world).2
    = stored (@remove_skill host "my_skill" false true plugin_world).2
  ∧ canonicalize 64 "My Cool_Skill!!" = canonicalize 64 "my-cool-skill".
Proof.
  destruct same_canonical_name_same_skill
    as (Hcmd & _ & _ & _ & _ & _ & Hex).
  assert (@normalize_skill_name host "My Skill"
          = @normalize_skill_name host "my_skill") as Hab
    by (vm_compute; reflexivity).
  destruct (Hcmd host "My Skill" "my_skill" false true plugin_world Hab)
    as [(Hu & _ & _) (_ & Hr & _)].
  split; [exact Hab|]. split; [exact Hu|]. split; [exact Hr|].
  destruct (Hex 64) as [-> ->]; [lia|reflexivity].
Defined.

End IdentityTheorems.

(** * Further behaviour of the skill commands *)

Section SkillBehaviour.
Import Schema SkillCommands Toggles.
Context `{Host}.

Ltac run_cmd :=
  unfold try_except, not_found, mbind, cmd_bind, mret, cmd_ret, raise, print,
    show, load_config, save_config, on_disk, read_disk; simpl.

(** X1: an interrupt is not swallowed.  When the skill manager is left by
    an exception that does not derive from [Exception] (a
    [KeyboardInterrupt] during the clone, the pull or the deletion), the
    command is left by the same exception, no error line is printed and
    nothing is saved: the settings document is the one the command found, so
    an interrupted install records no plugin and an interrupted deletion
    keeps the plugin on record. *)
Theorem interrupt_reaches_caller url nm br skill (w : World) s ip signal d' :
  stored w = Some s →
  (manager_install url nm br (disk w) = (Abort signal, d') →
   install_skill url nm br w
   = (Abort signal,
      {| stored := Some s; disk := d';
         console :=
           console w
           ++ [Line ("Installing skill(s) from: " ++ url);
               Line "Cloning repository..."] |}))
  ∧ (find_plugin (normalize_skill_name skill) (plugins (skills s))
     = Some ip →
     (manager_update (normalize_skill_name skill) (disk w)
      = (Abort signal, d') →
      update_skill skill w
      = (Abort signal,
         {| stored := Some s; disk := d';
            console :=
              console w
              ++ [Line ("Updating skill: " ++ skill);
                  Line ("Pulling latest changes from " ++ branch ip.2
                        ++ " branch...")] |}))
     ∧ (manager_remove (normalize_skill_name skill) (disk w)
        = (Abort signal, d') →
        remove_skill skill false true w
        = (Abort signal,
           {| stored := Some s; disk := d';
              console :=
                console w
                ++ [Line ("Removing skill: " ++ skill);
                    Line "Deleting skill files..."] |}))).
Proof.
  intros Hs. split; [|intros Hf; split]; intros Hm.
  - unfold install_skill. run_cmd. rewrite Hs. simpl. rewrite Hm. simpl.
    by rewrite <- !(assoc_L (++)).
  - unfold update_skill. run_cmd. rewrite Hs. simpl. rewrite Hf.
    destruct ip as [i p]. simpl. rewrite Hm. simpl.
    by rewrite <- !(assoc_L (++)).
  - unfold remove_skill. run_cmd. rewrite Hs. simpl. rewrite Hf.
    destruct ip as [i p]. simpl. rewrite Hm. simpl.
    by rewrite <- !(assoc_L (++)).
Qed.

(** X2: [update_skill] never writes the settings document: whatever the
    outcome of the pull, the document is the one it found, so the recorded
    [installed_path], branch and URL stay as they were. *)
Theorem update_skill_keeps_settings skill (w : World) :
  stored (update_skill skill w).2 = stored w.
Proof.
  unfold update_skill. run_cmd.
  destruct (stored w) as [s|] eqn:Hs; simpl; [|done].
  destruct (find_plugin _ _) as [[i p]|]; simpl; [|done].
  by destruct (manager_update _ _) as [[] ?].
Qed.

(** X3: [list_skills] only reads: it leaves the settings document and the
    disk as they are, returns whenever the document loads, and leaves with
    [typer.Exit(1)] when it does not. *)
Theorem list_skills_only_reads (w : World) :
  stored (list_skills w).2 = stored w
  ∧ disk (list_skills w).2 = disk w
  ∧ ((list_skills w).1 = Ok () ↔ is_Some (stored w))
  ∧ ((list_skills w).1 = Err (Exit 1) ↔ stored w = None).
Proof.
  unfold list_skills. run_cmd.
  destruct (stored w) as [s|] eqn:Hs; simpl.
  - repeat case_bool_decide; simpl;
      (split; [done|]; split; [done|]; split; [by eauto|];
       split; intros; discriminate).
  - split; [done|]. split; [done|]. split; [|done].
    split; [discriminate|]. by intros [? ?].
Qed.

(** X4: with [keep_files = False] and the prompt confirmed, the files go
    first: when the skill manager fails to delete them, [remove_skill] leaves
    with [typer.Exit(1)] and the plugin stays on record; when it succeeds,
    every entry of that canonical name is removed from the list and the
    settings are saved. *)
Theorem remove_skill_files_first skill (w : World) s ip :
  stored w = Some s →
  find_plugin (normalize_skill_name skill) (plugins (skills s)) = Some ip →
  (∀ e d',
     manager_remove (normalize_skill_name skill) (disk w) = (Err e, d') →
     (remove_skill skill false true w).1 = Err (Exit 1)
     ∧ stored (remove_skill skill false true w).2 = Some s
     ∧ disk (remove_skill skill false true w).2 = d')
  ∧ (∀ d',
       manager_remove (normalize_skill_name skill) (disk w) = (Ok (), d') →
       (remove_skill skill false true w).1 = Ok ()
       ∧ stored (remove_skill skill false true w).2
         = Some (with_plugins
                   (filter (λ p, normalize_skill_name (name p)
                                 ≠ normalize_skill_name skill)
                      (plugins (skills s))) s)
       ∧ disk (remove_skill skill false true w).2 = d').
Proof.
  intros Hs Hf. split.
  - intros e d' Hm. unfold remove_skill. run_cmd. rewrite Hs. simpl.
    rewrite Hf. simpl. by rewrite Hm.
  - intros d' Hm. unfold remove_skill. run_cmd. rewrite Hs. simpl.
    rewrite Hf. simpl. by rewrite Hm.
Qed.

(** X5: [install_skill] loads the settings before it clones and saves them
    only after the clone: with a malformed settings document nothing is
    cloned, and when the clone fails the settings document is not
    written. *)
Theorem install_skill_failures url nm br (w : World) :
  (stored w = None →
   (install_skill url nm br w).1 = Err (Exit 1)
   ∧ stored (install_skill url nm br w).2 = None
   ∧ disk (install_skill url nm br w).2 = disk w)
  ∧ (∀ s e d',
       stored w = Some s →
       manager_install url nm br (disk w) = (Err e, d') →
       (install_skill url nm br w).1 = Err (Exit 1)
       ∧ stored (install_skill url nm br w).2 = Some s
       ∧ disk (install_skill url nm br w).2 = d').
Proof.
  split.
  - intros Hs. unfold install_skill. run_cmd. by rewrite Hs.
  - intros s e d' Hs Hm. unfold install_skill. run_cmd. rewrite Hs. simpl.
    by rewrite Hm.
Qed.

(** The loop of [install_skill] on units none of which is on record. *)
Lemma recorded_appends url br entries ps :
  Forall (λ e, is_canonical (name_canonical e)) entries →
  NoDup (List.map name_canonical entries) →
  Forall (λ e, find_plugin (name_canonical e) ps = None) entries →
  recorded url br entries ps
  = (ps ++ List.map (λ e, {| name := name_canonical e; git_url := url;
                             branch := br; enabled := true;
                             installed_path := Some (entry_installed_path e);
                             plugin_extra := [] |}) entries)%list.
Proof.
  unfold recorded. intros Hcan. revert ps.
  induction Hcan as [|e entries He _ IH]; intros ps Hnd Hnew; simpl.
  - by rewrite app_nil_r.
  - apply NoDup_cons in Hnd as [Hfresh Hnd].
    apply Forall_cons in Hnew as [Hf Hnew].
    rewrite (record_entry_new url br e ps Hf), IH; [|done|].
    + by rewrite <- (assoc_L (++)).
    + apply Forall_forall. intros e' He'.
      rewrite Forall_forall in Hnew. specialize (Hnew e' He').
      apply find_plugin_None. apply find_plugin_None in Hnew.
      rewrite List.map_app. intros [Hin|Hin]%elem_of_app; [done|].
      simpl in Hin. apply list_elem_of_singleton in Hin.
      unfold canonical_key in Hin. simpl in Hin. rewrite He in Hin.
      apply Hfresh. rewrite <- Hin.
      change (@List.map) with (@fmap list _).
      apply list_elem_of_fmap. by exists e'.
Qed.

(** X6: an install whose units are all new (their canonical names, which
    the canonicaliser leaves alone, are pairwise distinct and match no
    plugin on record) keeps the recorded plugins as they are and where they
    are, and appends one enabled entry per unit, in the order the clone
    discovered them. *)
Theorem install_skill_appends_in_order url nm br (w : World) s entries d' :
  stored w = Some s →
  manager_install url nm br (disk w) = (Ok entries, d') →
  Forall (λ e, is_canonical (name_canonical e)) entries →
  NoDup (List.map name_canonical entries) →
  Forall (λ e, find_plugin (name_canonical e) (plugins (skills s)) = None)
    entries →
  stored (install_skill url nm br w).2
  = Some (with_plugins
            (plugins (skills s)
             ++ List.map
                  (λ e, {| name := name_canonical e; git_url := url;
                           branch := br; enabled := true;
                           installed_path := Some (entry_installed_path e);
                           plugin_extra := [] |}) entries)%list s).
Proof.
  intros Hs Hm Hcan Hnd Hnew.
  destruct (install_skill_run url nm br w s entries d' Hs Hm) as [out E].
  rewrite E. simpl. by rewrite recorded_appends.
Qed.

(** *** Switching skills off and on *)

Lemma disable_skill_stored skill (w : World) s :
  stored w = Some s →
  stored (disable_skill skill w).2 = Some (disabled_by skill s)
  ∧ disk (disable_skill skill w).2 = disk w.
Proof.
  intros Hs. unfold disable_skill, disabled_by. run_cmd. rewrite Hs. simpl.
  destruct (find_plugin _ _) as [[i p]|]; simpl.
  - by destruct (enabled p).
  - by case_bool_decide.
Qed.

Lemma enable_skill_stored skill (w : World) s :
  stored w = Some s →
  stored (enable_skill skill w).2 = Some (enabled_by skill s)
  ∧ disk (enable_skill skill w).2 = disk w.
Proof.
  intros Hs. unfold enable_skill, enabled_by. run_cmd. rewrite Hs. simpl.
  destruct (find_plugin _ _) as [[i p]|]; simpl.
  - by destruct (enabled p).
  - by case_bool_decide.
Qed.

(** Overwriting the plugin found, under its name, keeps it the one found. *)
Lemma find_plugin_insert c ps i p q :
  find_plugin c ps = Some (i, p) → name q = name p →
  find_plugin c (<[i := q]> ps) = Some (i, q).
Proof.
  intros Hf Hname. unfold find_plugin in *.
  apply list_find_Some in Hf as (Hi & Hp & Hfirst).
  apply list_find_Some. split; [|split].
  - apply list_lookup_insert_eq. by eapply lookup_lt_Some.
  - by rewrite Hname.
  - intros j y Hj Hlt. rewrite list_lookup_insert_ne in Hj by lia. eauto.
Qed.

Lemma with_plugins_same s : with_plugins (plugins (skills s)) s = s.
Proof. by destruct s as [? ? [] ? ? ?]. Qed.

Lemma with_plugins_twice l l' s :
  with_plugins l (with_plugins l' s) = with_plugins l s.
Proof. reflexivity. Qed.

Lemma with_disabled_bundled_twice l l' s :
  with_disabled_bundled l (with_disabled_bundled l' s)
  = with_disabled_bundled l s.
Proof. reflexivity. Qed.

Lemma with_disabled_bundled_same s :
  with_disabled_bundled (disabled_bundled (skills s)) s = s.
Proof. by destruct s as [? ? [] ? ? ?]. Qed.

Lemma filter_other_names c (l : list string) :
  c ∉ List.map normalize_skill_name l →
  filter (λ n, normalize_skill_name n ≠ c) l = l.
Proof.
  induction l as [|n l IH]; simpl; [done|]. intros Hc.
  rewrite filter_cons_True.
  - f_equal. apply IH. intros Hin. apply Hc. by apply list_elem_of_further.
  - intros Heq. apply Hc. rewrite Heq. apply list_elem_of_here.
Qed.

Lemma enabled_by_disabled_by skill s :
  is_canonical (normalize_skill_name skill) →
  switched_on skill s →
  enabled_by skill (disabled_by skill s) = s.
Proof.
  unfold is_canonical, switched_on, enabled_by, disabled_by.
  intros Hcan Hon.
  destruct (find_plugin _ (plugins (skills s))) as [[i p]|] eqn:Hf.
  - rewrite Hon. simpl.
    rewrite (find_plugin_insert _ _ i p (with_enabled false p) Hf eq_refl).
    simpl. rewrite with_plugins_twice, list_insert_insert_eq.
    assert (with_enabled true (with_enabled false p) = p) as ->
      by (destruct p; simpl in *; by subst).
    apply find_plugin_Some in Hf as [Hi _].
    rewrite (list_insert_id _ _ _ Hi). apply with_plugins_same.
  - rewrite (bool_decide_eq_true_2 _ Hon). simpl. rewrite Hf.
    rewrite bool_decide_eq_true_2.
    + simpl. rewrite with_disabled_bundled_twice.
      rewrite filter_app, (filter_other_names _ _ Hon).
      rewrite filter_cons_False, filter_nil by (intros Hne; by apply Hne).
      rewrite app_nil_r. apply with_disabled_bundled_same.
    + rewrite List.map_app. apply elem_of_app. right. simpl.
      rewrite Hcan. apply list_elem_of_here.
Qed.

(** X7: switching off and on again is a round trip: when the skill a name
    stands for is switched on (its plugin is enabled or, no plugin having
    the name, it is not among the disabled bundled skills) and the canonical
    form of the name is canonical, [disable_skill] followed by
    [enable_skill] leaves the settings document exactly as it was. *)
Theorem disable_then_enable_restores skill (w : World) s :
  stored w = Some s →
  is_canonical (normalize_skill_name skill) →
  switched_on skill s →
  stored (enable_skill skill (disable_skill skill w).2).2 = Some s.
Proof.
  intros Hs Hcan Hon.
  destruct (disable_skill_stored skill w s Hs) as [Hd _].
  destruct (enable_skill_stored skill _ _ Hd) as [He _].
  by rewrite He, enabled_by_disabled_by.
Qed.

Lemma disabled_by_idempotent skill s :
  is_canonical (normalize_skill_name skill) →
  disabled_by skill (disabled_by skill s) = disabled_by skill s.
Proof.
  unfold is_canonical. intros Hcan.
  destruct (find_plugin (normalize_skill_name skill) (plugins (skills s)))
    as [[i p]|] eqn:Hf.
  - destruct (enabled p) eqn:Hen.
    + assert (disabled_by skill s
              = with_plugins
                  (<[i := with_enabled false p]> (plugins (skills s))) s)
        as -> by (unfold disabled_by; by rewrite Hf, Hen).
      unfold disabled_by. simpl.
      by rewrite (find_plugin_insert _ _ i p (with_enabled false p) Hf
                    eq_refl).
    + assert (disabled_by skill s = s) as ->
        by (unfold disabled_by; by rewrite Hf, Hen).
      unfold disabled_by. by rewrite Hf, Hen.
  - destruct (decide (normalize_skill_name skill
                      ∉ List.map normalize_skill_name
                          (disabled_bundled (skills s)))) as [Hin|Hin].
    + assert (disabled_by skill s
              = with_disabled_bundled
                  (disabled_bundled (skills s)
                   ++ [normalize_skill_name skill]) s)
        as -> by (unfold disabled_by; by rewrite Hf, bool_decide_eq_true_2).
      unfold disabled_by. simpl. rewrite Hf.
      rewrite bool_decide_eq_false_2; [done|].
      intros Hnot. apply Hnot. rewrite List.map_app. apply elem_of_app.
      right. simpl. rewrite Hcan. apply list_elem_of_here.
    + assert (disabled_by skill s = s) as ->
        by (unfold disabled_by; by rewrite Hf, bool_decide_eq_false_2).
      unfold disabled_by. by rewrite Hf, bool_decide_eq_false_2.
Qed.

Lemma enabled_by_idempotent skill s :
  enabled_by skill (enabled_by skill s) = enabled_by skill s.
Proof.
  destruct (find_plugin (normalize_skill_name skill) (plugins (skills s)))
    as [[i p]|] eqn:Hf.
  - destruct (enabled p) eqn:Hen.
    + assert (enabled_by skill s = s) as ->
        by (unfold enabled_by; by rewrite Hf, Hen).
      unfold enabled_by. by rewrite Hf, Hen.
    + assert (enabled_by skill s
              = with_plugins
                  (<[i := with_enabled true p]> (plugins (skills s))) s)
        as -> by (unfold enabled_by; by rewrite Hf, Hen).
      unfold enabled_by. simpl.
      by rewrite (find_plugin_insert _ _ i p (with_enabled true p) Hf
                    eq_refl).
  - destruct (decide (normalize_skill_name skill
                      ∈ List.map normalize_skill_name
                          (disabled_bundled (skills s)))) as [Hin|Hin].
    + assert (enabled_by skill s
              = with_disabled_bundled
                  (filter (λ n, normalize_skill_name n
                                ≠ normalize_skill_name skill)
                     (disabled_bundled (skills s))) s)
        as -> by (unfold enabled_by; by rewrite Hf, bool_decide_eq_true_2).
      unfold enabled_by. simpl. rewrite Hf.
      rewrite bool_decide_eq_false_2; [done|].
      change (@List.map) with (@fmap list _).
      intros (n & Hn & Hin')%list_elem_of_fmap.
      by apply list_elem_of_filter in Hin' as [Hne _].
    + assert (enabled_by skill s = s) as ->
        by (unfold enabled_by; by rewrite Hf, bool_decide_eq_false_2).
      unfold enabled_by. by rewrite Hf, bool_decide_eq_false_2.
Qed.

(** X8: the toggles are idempotent on the settings document: enabling twice
    leaves what enabling once leaves, and so does disabling twice when the
    canonical form of the name is canonical. *)
Theorem toggles_idempotent skill (w : World) s :
  stored w = Some s →
  stored (enable_skill skill (enable_skill skill w).2).2
  = stored (enable_skill skill w).2
  ∧ (is_canonical (normalize_skill_name skill) →
     stored (disable_skill skill (disable_skill skill w).2).2
     = stored (disable_skill skill w).2).
Proof.
  intros Hs. split.
  - destruct (enable_skill_stored skill w s Hs) as [He _].
    destruct (enable_skill_stored skill _ _ He) as [He2 _].
    by rewrite He2, He, enabled_by_idempotent.
  - intros Hcan.
    destruct (disable_skill_stored skill w s Hs) as [Hd _].
    destruct (disable_skill_stored skill _ _ Hd) as [Hd2 _].
    by rewrite Hd2, Hd, disabled_by_idempotent.
Qed.

(** X9: a plugin shadows the bundled skill of the same canonical name: when
    a plugin on record has the canonical form of the name, [disable_skill]
    and [enable_skill] set the [enabled] flag of the first such plugin and
    nothing else: the list of disabled bundled skills, the other plugins
    and the other fields of that plugin stay as they are. *)
Theorem toggles_act_on_the_plugin skill (w : World) s i p :
  stored w = Some s →
  find_plugin (normalize_skill_name skill) (plugins (skills s)) = Some (i, p) →
  stored (disable_skill skill w).2
  = Some (with_plugins (<[i := with_enabled false p]> (plugins (skills s))) s)
  ∧ stored (enable_skill skill w).2
    = Some (with_plugins (<[i := with_enabled true p]> (plugins (skills s))) s).
Proof.
  intros Hs Hf.
  destruct (disable_skill_stored skill w s Hs) as [-> _].
  destruct (enable_skill_stored skill w s Hs) as [-> _].
  unfold disabled_by, enabled_by. rewrite Hf.
  pose proof (find_plugin_Some _ _ _ _ Hf) as [Hi _].
  assert (∀ b, enabled p = b →
            with_plugins (<[i := with_enabled b p]> (plugins (skills s))) s
            = s) as Hsame.
  { intros b Hb. assert (with_enabled b p = p) as ->
      by (destruct p; simpl in *; by subst).
    by rewrite (list_insert_id _ _ _ Hi), with_plugins_same. }
  destruct (enabled p) eqn:Hen; simpl; split; try done.
  - by rewrite (Hsame true).
  - by rewrite (Hsame false).
Qed.

End SkillBehaviour.

Section SkillBehaviourExamples.
Import Schema SkillCommands Toggles Offline Examples.
Import ConfigStore (get_default_config).

Lemma interrupt_reaches_caller_witness :
  ((@install_skill interrupted_host "https://host/repo.git" None "main"
      plugin_world).1 = Abort "KeyboardInterrupt"
   ∧ stored (@install_skill interrupted_host "https://host/repo.git" None
               "main" plugin_world).2 = Some plugin_settings)
  ∧ ((@update_skill interrupted_host "My Skill" plugin_world).1
     = Abort "KeyboardInterrupt")
  ∧ ((@remove_skill interrupted_host "My Skill" false true plugin_world).1
     = Abort "KeyboardInterrupt"
     ∧ stored (@remove_skill interrupted_host "My Skill" false true
                 plugin_world).2 = Some plugin_settings).
Proof.
  destruct (@interrupt_reaches_caller interrupted_host
              "https://host/repo.git" None "main" "My Skill" plugin_world
              plugin_settings (0, my_skill) "KeyboardInterrupt"
              (disk plugin_world) eq_refl) as [Hinstall Hfound].
  destruct Hfound as [Hupdate Hremove]; [vm_compute; reflexivity|].
  rewrite (Hinstall eq_refl), (Hupdate eq_refl), (Hremove eq_refl).
  repeat split.
Defined.

Lemma remove_skill_files_first_witness :
  ((@remove_skill offline_host "My Skill" false true plugin_world).1
   = Err (Exit 1)
   ∧ stored (@remove_skill offline_host "My Skill" false true plugin_world).2
     = Some plugin_settings)
  ∧ ((@remove_skill host "My Skill" false true plugin_world).1 = Ok ()
     ∧ stored (@remove_skill host "My Skill" false true plugin_world).2
       = Some (with_plugins [] plugin_settings)).
Proof.
  split.
  - destruct (@remove_skill_files_first offline_host "My Skill" plugin_world
                plugin_settings (0, my_skill) eq_refl) as [Hfail _].
    { vm_compute. reflexivity. }
    destruct (Hfail (Raised "Permission denied") (disk plugin_world) eq_refl)
      as (Hr & Hst & _).
    by split.
  - destruct (@remove_skill_files_first host "My Skill" plugin_world
                plugin_settings (0, my_skill) eq_refl) as [_ Hdone].
    { vm_compute. reflexivity. }
    destruct (Hdone (delete (managed_path "my-skill") (disk plugin_world))
                eq_refl) as (Hr & Hst & _).
    split; [exact Hr|]. rewrite Hst. vm_compute. reflexivity.
Defined.

Lemma install_skill_failures_witness :
  (@install_skill offline_host "https://host/repo.git" None "main"
     plugin_world).1 = Err (Exit 1)
  ∧ stored (@install_skill offline_host "https://host/repo.git" None "main"
              plugin_world).2 = Some plugin_settings
  ∧ disk (@install_skill cloning_host "https://host/repo.git" None "main"
            {| stored := None; disk := bundled_disk; console := [] |}).2
    = bundled_disk.
Proof.
  destruct (@install_skill_failures offline_host "https://host/repo.git"
              None "main" plugin_world) as [_ Hclone].
  destruct (Hclone plugin_settings (Raised "git clone failed")
              (disk plugin_world) eq_refl eq_refl) as (Hr & Hst & _).
  split; [exact Hr|]. split; [exact Hst|].
  destruct (@install_skill_failures cloning_host "https://host/repo.git"
              None "main"
              {| stored := None; disk := bundled_disk; console := [] |})
    as [Hload _].
  by destruct (Hload eq_refl) as (_ & _ & Hd).
Defined.

Lemma install_skill_appends_in_order_witness :
  plugins (skills plugin_settings) = [my_skill]
  ∧ stored (@install_skill monorepo_host "https://host/mono.git" None "main"
              plugin_world).2
    = Some (with_plugins
              [my_skill;
               {| name := "web-search"; git_url := "https://host/mono.git";
                  branch := "main"; enabled := true;
                  installed_path := Some (managed_path "web-search");
                  plugin_extra := [] |};
               {| name := "code-review"; git_url := "https://host/mono.git";
                  branch := "main"; enabled := true;
                  installed_path := Some (managed_path "code-review");
                  plugin_extra := [] |}] plugin_settings).
Proof.
  split; [reflexivity|].
  apply (@install_skill_appends_in_order monorepo_host
           "https://host/mono.git" None "main" plugin_world plugin_settings
           [web_search; code_review]
           (foldr (λ entry acc,
                     <[entry_installed_path entry := [entry_name entry]]> acc)
              (disk plugin_world) [web_search; code_review])).
  - reflexivity.
  - reflexivity.
  - repeat constructor; vm_compute; reflexivity.
  - apply NoDup_cons. split; [|apply NoDup_singleton].
    by intros [=]%list_elem_of_singleton.
  - repeat constructor; vm_compute; reflexivity.
Defined.

Lemma disable_then_enable_restores_witness :
  stored (@enable_skill host "Test Skill"
            (@disable_skill host "Test Skill" fresh_world).2).2
  = Some get_default_config
  ∧ stored (@disable_skill host "Test Skill" fresh_world).2
    ≠ Some get_default_config.
Proof.
  split.
  - apply (@disable_then_enable_restores host "Test Skill" fresh_world
             get_default_config).
    + reflexivity.
    + vm_compute. reflexivity.
    + vm_compute. by intros ?%elem_of_nil.
  - vm_compute. discriminate.
Defined.

Lemma toggles_idempotent_witness :
  stored (@disable_skill host "Test Skill"
            (@disable_skill host "Test Skill" fresh_world).2).2
  = stored (@disable_skill host "Test Skill" fresh_world).2
  ∧ stored (@enable_skill host "My Skill"
              (@enable_skill host "My Skill" plugin_world).2).2
    = stored (@enable_skill host "My Skill" plugin_world).2.
Proof.
  split.
  - destruct (@toggles_idempotent host "Test Skill" fresh_world
                get_default_config eq_refl) as [_ Hd].
    apply Hd. vm_compute. reflexivity.
  - by destruct (@toggles_idempotent host "My Skill" plugin_world
                   plugin_settings eq_refl) as [He _].
Defined.

Lemma toggles_act_on_the_plugin_witness :
  stored (@enable_skill host "My Skill" plugin_world).2
  = Some (with_plugins [with_enabled true my_skill] plugin_settings)
  ∧ stored (@disable_skill host "My Skill" plugin_world).2
    = Some plugin_settings.
Proof.
  destruct (@toggles_act_on_the_plugin host "My Skill" plugin_world
              plugin_settings 0 my_skill eq_refl) as [Hd He].
  { vm_compute. reflexivity. }
  split; [exact He|]. rewrite Hd. reflexivity.
Defined.

End SkillBehaviourExamples.

(** * Configuration, chat client and command line *)

Section ConfigBehaviour.
Import Config AgentClient Cli.

Lemma validate_Ok c :
  validate c = Ok ()
  ↔ (llm_provider c = "openai" ∧ truthy (openai_api_key c) = true)
    ∨ (llm_provider c = "anthropic" ∧ truthy (anthropic_api_key c) = true)
    ∨ (llm_provider c = "azure_ai_foundry"
       ∧ truthy (azure_project_endpoint c) = true
       ∧ truthy (azure_model_deployment c) = true).
Proof.
  unfold validate.
  destruct (String.eqb_spec (llm_provider c) "openai") as [Ho|Ho].
  { rewrite Ho. destruct (truthy (openai_api_key c)); simpl; split;
      try discriminate; auto.
    intros [[_ ?]|[[? _]|[? _]]]; discriminate. }
  destruct (String.eqb_spec (llm_provider c) "anthropic") as [Ha|Ha].
  { rewrite Ha. destruct (truthy (anthropic_api_key c)); simpl; split;
      try discriminate; auto.
    intros [[? _]|[[_ ?]|[? _]]]; discriminate. }
  destruct (String.eqb_spec (llm_provider c) "azure_ai_foundry") as [Hz|Hz].
  { rewrite Hz.
    destruct (truthy (azure_project_endpoint c)),
      (truthy (azure_model_deployment c)); simpl; split;
      try discriminate; auto.
    all: intros [[? _]|[[? _]|(_ & ? & ?)]]; discriminate. }
  split; [discriminate|]. by intros [[? _]|[[? _]|[? _]]].
Qed.

Lemma validate_raises_ValueError c :
  validate c = Ok () ∨ ∃ msg, validate c = Err (ValueError msg).
Proof.
  unfold validate. repeat case_match; eauto.
Qed.

(** X10: [validate] accepts a configuration exactly when its provider is
    one of the three it supports and every field that provider requires is
    neither [None] nor the empty string; otherwise it raises a
    [ValueError]. *)
Theorem validate_accepts_iff c :
  (validate c = Ok ()
   ↔ (llm_provider c = "openai" ∧ truthy (openai_api_key c) = true)
     ∨ (llm_provider c = "anthropic" ∧ truthy (anthropic_api_key c) = true)
     ∨ (llm_provider c = "azure_ai_foundry"
        ∧ truthy (azure_project_endpoint c) = true
        ∧ truthy (azure_model_deployment c) = true))
  ∧ (validate c = Ok () ∨ ∃ msg, validate c = Err (ValueError msg))
  ∧ (llm_provider c = "openai" → openai_api_key c = Some "" →
     validate c ≠ Ok ()).
Proof.
  split; [apply validate_Ok|]. split; [apply validate_raises_ValueError|].
  intros Hp Hk Hv. apply validate_Ok in Hv as [[_ Ht]|[[Ht _]|[Ht _]]].
  - by rewrite Hk in Ht.
  - by rewrite Hp in Ht.
  - by rewrite Hp in Ht.
Qed.

Lemma validate_from_env home expanduser (env : Env) :
  validate (from_env home expanduser env) = Ok () ↔ environment_ready env.
Proof. apply validate_Ok. Qed.

Lemma supported_provider p :
  p ∈ supported_providers
  ↔ p = "openai" ∨ p = "anthropic" ∨ p = "azure_ai_foundry".
Proof.
  unfold supported_providers. rewrite !elem_of_cons, elem_of_nil. tauto.
Qed.

Lemma create_chat_client_Err c :
  is_ok (_create_chat_client c) = false
  ↔ llm_provider c ∉ supported_providers.
Proof.
  rewrite supported_provider. unfold _create_chat_client.
  destruct (String.eqb_spec (llm_provider c) "openai");
    [simpl; split; [done|tauto]|].
  destruct (String.eqb_spec (llm_provider c) "anthropic");
    [simpl; split; [done|tauto]|].
  destruct (String.eqb_spec (llm_provider c) "azure_ai_foundry");
    [simpl; split; [done|tauto]|].
  simpl. split; [tauto|done].
Qed.

Lemma display_name_Unknown c :
  get_model_display_name c = "Unknown"
  ↔ llm_provider c ∉ supported_providers.
Proof.
  rewrite supported_provider. unfold get_model_display_name.
  destruct (String.eqb_spec (llm_provider c) "openai");
    [simpl; split; [discriminate|tauto]|].
  destruct (String.eqb_spec (llm_provider c) "anthropic");
    [simpl; split; [discriminate|tauto]|].
  destruct (String.eqb_spec (llm_provider c) "azure_ai_foundry");
    [simpl; split; [discriminate|tauto]|].
  split; [tauto|done].
Qed.

(** X11: the three places that branch on the provider agree on which
    providers exist: [Agent._create_chat_client] raises its [ValueError]
    exactly for the providers [get_model_display_name] shows as "Unknown",
    which are exactly those outside [openai], [anthropic] and
    [azure_ai_foundry]; [validate] rejects every one of them. *)
Theorem provider_dispatch_agrees c :
  (is_ok (_create_chat_client c) = false
   ↔ llm_provider c ∉ supported_providers)
  ∧ (get_model_display_name c = "Unknown"
     ↔ llm_provider c ∉ supported_providers)
  ∧ (llm_provider c ∉ supported_providers →
     validate c
     = Err (ValueError
              ("Unknown LLM provider: " ++ llm_provider c
               ++ ". Supported providers: openai, anthropic, azure_ai_foundry"))).
Proof.
  split; [apply create_chat_client_Err|].
  split; [apply display_name_Unknown|].
  rewrite supported_provider. intros Hp. unfold validate.
  destruct (String.eqb_spec (llm_provider c) "openai"); [tauto|].
  destruct (String.eqb_spec (llm_provider c) "anthropic"); [tauto|].
  by destruct (String.eqb_spec (llm_provider c) "azure_ai_foundry");
    [tauto|].
Qed.

Lemma validated_client c :
  validate c = Ok () →
  ∃ client, _create_chat_client c = Ok client
            ∧ has_credentials client = true.
Proof.
  intros Hv. apply validate_Ok in Hv.
  unfold _create_chat_client.
  destruct Hv as [[Hp Hk]|[[Hp Hk]|(Hp & He & Hd)]]; rewrite Hp; simpl;
    eexists; (split; [reflexivity|]); simpl; by rewrite ?Hk, ?He, ?Hd.
Qed.

(** X12: a configuration [validate] accepts always gets its chat client:
    [Agent._create_chat_client] does not raise, and the client it builds is
    given credentials that are neither [None] nor empty. *)
Theorem validated_config_gets_client c :
  validate c = Ok () →
  ∃ client, _create_chat_client c = Ok client
            ∧ has_credentials client = true
            ∧ get_model_display_name c ≠ "Unknown".
Proof.
  intros Hv. destruct (validated_client c Hv) as (client & Hc & Hcred).
  exists client. split; [done|]. split; [done|].
  rewrite display_name_Unknown. intros Hno.
  apply create_chat_client_Err in Hno. by rewrite Hc in Hno.
Qed.

End ConfigBehaviour.

(** ** Code points *)

Section TextProperties.
Import Text.

Lemma append_cons c (a b : string) : String c a +:+ b = String c (a +:+ b).
Proof. reflexivity. Qed.

Lemma text_len_append (a b : string) :
  text_len (a +:+ b) = (text_len a + text_len b)%nat.
Proof.
  induction a as [|c a IH]; [done|]. rewrite append_cons. simpl.
  rewrite IH. by destruct (is_continuation c).
Qed.

Lemma text_take_drop n (s : string) : text_take n s +:+ text_drop n s = s.
Proof.
  revert n. induction s as [|c s IH]; intros n; [done|]. simpl.
  destruct (is_continuation c).
  - by rewrite append_cons, IH.
  - destruct n as [|n]; [done|]. by rewrite append_cons, IH.
Qed.

Lemma text_len_take n (s : string) :
  text_len (text_take n s) = (n `min` text_len s)%nat.
Proof.
  revert n. induction s as [|c s IH]; intros n; simpl; [lia|].
  destruct (is_continuation c) eqn:Hc; simpl; rewrite ?Hc.
  - apply IH.
  - destruct n as [|n]; simpl; rewrite ?Hc, ?IH; lia.
Qed.

Lemma text_len_drop n (s : string) :
  text_len (text_drop n s) = (text_len s - n)%nat.
Proof.
  revert n. induction s as [|c s IH]; intros n; simpl; [lia|].
  destruct (is_continuation c) eqn:Hc.
  - apply IH.
  - destruct n as [|n]; simpl; rewrite ?Hc, ?IH; lia.
Qed.

Lemma text_len_last n (s : string) : (text_len (text_last n s) ≤ n)%nat.
Proof. unfold text_last. rewrite text_len_drop. lia. Qed.

End TextProperties.

Section CliBehaviour.
Import Config AgentClient Cli Text.
Variable home : string.
Variable expanduser : string → string.

Lemma run_health_check_result (env : Env) :
  (run_health_check home expanduser env).1
  = match validate (from_env home expanduser env) with
    | Ok _ => Ok ()
    | Err _ => Err (Exit 1)
    | Abort signal => Abort signal
    end.
Proof.
  unfold run_health_check.
  destruct (validate _) as [[]|[]|?]; reflexivity.
Qed.


(** *** The credential line *)

Lemma last_chars_length n s : (text_len (last_chars n s) ≤ n)%nat.
Proof. apply text_len_last. Qed.

Lemma not_empty_truthy s : s ≠ "" → truthy (Some s) = true.
Proof.
  intros Hs. simpl. by destruct (String.eqb_spec s "").
Qed.

Lemma from_env_openai_key (env : Env) k :
  from_env home expanduser (<["OPENAI_API_KEY" := k]> env)
  = let c := from_env home expanduser env in
    {| llm_provider := llm_provider c;
       openai_api_key := Some k;
       openai_model := openai_model c;
       anthropic_api_key := anthropic_api_key c;
       anthropic_model := anthropic_model c;
       azure_project_endpoint := azure_project_endpoint c;
       azure_model_deployment := azure_model_deployment c;
       agent_data_dir := agent_data_dir c;
       agent_session_dir := agent_session_dir c |}.
Proof.
  unfold from_env, getenv, getenv_default. simpl.
  rewrite lookup_insert_eq. by rewrite !lookup_insert_ne by done.
Qed.

Lemma from_env_anthropic_key (env : Env) k :
  from_env home expanduser (<["ANTHROPIC_API_KEY" := k]> env)
  = let c := from_env home expanduser env in
    {| llm_provider := llm_provider c;
       openai_api_key := openai_api_key c;
       openai_model := openai_model c;
       anthropic_api_key := Some k;
       anthropic_model := anthropic_model c;
       azure_project_endpoint := azure_project_endpoint c;
       azure_model_deployment := azure_model_deployment c;
       agent_data_dir := agent_data_dir c;
       agent_session_dir := agent_session_dir c |}.
Proof.
  unfold from_env, getenv, getenv_default. simpl.
  rewrite lookup_insert_eq. by rewrite !lookup_insert_ne by done.
Qed.

Lemma show_configuration_openai_key (env : Env) k1 k2 :
  k1 ≠ "" → k2 ≠ "" → last_chars 6 k1 = last_chars 6 k2 →
  show_configuration home expanduser (<["OPENAI_API_KEY" := k1]> env)
  = show_configuration home expanduser (<["OPENAI_API_KEY" := k2]> env).
Proof.
  intros H1 H2 Hlast. unfold show_configuration.
  rewrite !from_env_openai_key. cbv zeta.
  unfold credential_lines, get_model_display_name.
  cbn [llm_provider openai_api_key openai_model anthropic_api_key
       anthropic_model azure_project_endpoint azure_model_deployment
       agent_data_dir agent_session_dir default from_option id].
  by rewrite (not_empty_truthy _ H1), (not_empty_truthy _ H2), Hlast.
Qed.

Lemma show_configuration_anthropic_key (env : Env) k1 k2 :
  k1 ≠ "" → k2 ≠ "" → last_chars 6 k1 = last_chars 6 k2 →
  show_configuration home expanduser (<["ANTHROPIC_API_KEY" := k1]> env)
  = show_configuration home expanduser (<["ANTHROPIC_API_KEY" := k2]> env).
Proof.
  intros H1 H2 Hlast. unfold show_configuration.
  rewrite !from_env_anthropic_key. cbv zeta.
  unfold credential_lines, get_model_display_name.
  cbn [llm_provider openai_api_key openai_model anthropic_api_key
       anthropic_model azure_project_endpoint azure_model_deployment
       agent_data_dir agent_session_dir default from_option id].
  by rewrite (not_empty_truthy _ H1), (not_empty_truthy _ H2), Hlast.
Qed.

(** X14: [show_configuration] gives away at most the last six characters of
    an API key, a character being a code point: two environments that differ
    only in the value of [OPENAI_API_KEY] (or of [ANTHROPIC_API_KEY]), both
    values non-empty and ending in the same six characters, print the same
    lines; and the part of a key that is printed has at most six
    characters. *)
Theorem show_configuration_masks_keys (env : Env) var k1 k2 :
  var = "OPENAI_API_KEY" ∨ var = "ANTHROPIC_API_KEY" →
  k1 ≠ "" → k2 ≠ "" →
  last_chars 6 k1 = last_chars 6 k2 →
  show_configuration home expanduser (<[var := k1]> env)
  = show_configuration home expanduser (<[var := k2]> env)
  ∧ (text_len (last_chars 6 k1) ≤ 6)%nat.
Proof.
  intros [-> | ->] H1 H2 Hlast; (split; [|apply last_chars_length]).
  - by apply show_configuration_openai_key.
  - by apply show_configuration_anthropic_key.
Qed.

End CliBehaviour.

Section CliPromptBehaviour.
Import Config AgentClient Cli.
Variable home : string.
Variable expanduser : string → string.
Variable run_stream : chat_client → string → list string * ending.

Lemma run_single_prompt_invalid (env : Env) prompt e :
  validate (from_env home expanduser env) = Err e →
  (run_single_prompt home expanduser run_stream env prompt).1 = Err (Exit 1)
  ∧ ∀ other_stream,
      run_single_prompt home expanduser other_stream env prompt
      = run_single_prompt home expanduser run_stream env prompt.
Proof.
  intros Hv. unfold run_single_prompt. rewrite Hv. by destruct e.
Qed.

Lemma run_single_prompt_valid (env : Env) prompt client chunks how :
  validate (from_env home expanduser env) = Ok () →
  _create_chat_client (from_env home expanduser env) = Ok client →
  run_stream client prompt = (chunks, how) →
  ∃ tail,
    (run_single_prompt home expanduser run_stream env prompt).2
    = (["User: " +:+ prompt; "Agent: "] ++ chunks ++ tail)%list
    ∧ ((run_single_prompt home expanduser run_stream env prompt).1 = Ok ()
       ↔ how = Finished)
    ∧ ((run_single_prompt home expanduser run_stream env prompt).1
       = Err (Exit 130) ↔ how = Interrupted)
    ∧ ((run_single_prompt home expanduser run_stream env prompt).1
       = Err (Exit 1) ↔ ∃ e, how = Failed e).
Proof.
  intros Hv Hc Hs. unfold run_single_prompt. rewrite Hv, Hc, Hs.
  destruct how as [| |[]]; simpl; eexists;
    (split; [reflexivity|]); repeat split; try discriminate; eauto.
  all: by intros [? ?].
Qed.


Lemma run_single_prompt_status (env : Env) prompt :
  ((run_single_prompt home expanduser run_stream env prompt).1 = Ok ()
   ∨ (run_single_prompt home expanduser run_stream env prompt).1
     = Err (Exit 1)
   ∨ (run_single_prompt home expanduser run_stream env prompt).1
     = Err (Exit 130))
  ∧ ((run_single_prompt home expanduser run_stream env prompt).1
     = Err (Exit 130) → environment_ready env).
Proof.
  destruct (validate_raises_ValueError (from_env home expanduser env))
    as [Hv|[msg Hv]].
  - destruct (validated_client _ Hv) as (client & Hc & _).
    destruct (run_stream client prompt) as [chunks how] eqn:Hs.
    destruct (run_single_prompt_valid env prompt client chunks how Hv Hc Hs)
      as (tail & _ & Hok & Hint & Hfail).
    split; [|intros _; by apply (validate_from_env home expanduser)].
    destruct how as [| |e].
    + left. by apply Hok.
    + right. right. by apply Hint.
    + right. left. apply Hfail. by exists e.
  - destruct (run_single_prompt_invalid env prompt _ Hv) as [Hr _].
    rewrite Hr. split; [auto|discriminate].
Qed.


End CliPromptBehaviour.

Section CliExamples.
Import Config AgentClient Cli CliExamples.

Lemma validated_config_gets_client_witness :
  ∃ client,
    _create_chat_client (from_env "/home/agent" id anthropic_env) = Ok client
    ∧ has_credentials client = true.
Proof.
  destruct (validated_config_gets_client
              (from_env "/home/agent" id anthropic_env) eq_refl)
    as (client & Hc & Hcred & _).
  by exists client.
Defined.

Lemma show_configuration_masks_keys_witness :
  show_configuration "/home/agent" id
    (<["OPENAI_API_KEY" := "sk-first-secret-ABCDEF"]> ∅)
  = show_configuration "/home/agent" id
      (<["OPENAI_API_KEY" := "sk-other-ABCDEF"]> ∅)
  ∧ " • API Key: ****ABCDEF"
    ∈ (show_configuration "/home/agent" id
         (<["OPENAI_API_KEY" := "sk-first-secret-ABCDEF"]> ∅)).2.
Proof.
  split.
  - by apply (show_configuration_masks_keys "/home/agent" id ∅
                "OPENAI_API_KEY" "sk-first-secret-ABCDEF" "sk-other-ABCDEF");
      [left| | |].
  - vm_compute. do 4 apply list_elem_of_further. apply list_elem_of_here.
Defined.



End CliExamples.

(** * Editing the settings file *)

Section EditorBehaviour.
Import Config Editor.
Variable which : string → bool.
Variable file_exists : string → bool.
Variable spawn : list string → spawned.

Lemma truthy_Some o : truthy o = true → ∃ s, o = Some s ∧ s ≠ "".
Proof.
  destruct o as [s|]; simpl; [|discriminate].
  destruct (String.eqb_spec s ""); [discriminate|]. eauto.
Qed.

Lemma truthy_false o : truthy o = false → o = None ∨ o = Some "".
Proof.
  destruct o as [s|]; simpl; [|auto].
  destruct (String.eqb_spec s ""); [subst; auto|discriminate].
Qed.

(** X17: [detect_editor] prefers [EDITOR], then [VISUAL], an empty value
    counting as unset, then the first of code, vim, nano and vi that is
    installed; it finds no editor exactly when both variables are unset or
    empty and none of the four is installed, and the editor it returns is
    never the empty string. *)
Theorem detect_editor_preference (env : Env) :
  (∀ e, getenv env "EDITOR" = Some e → e ≠ "" →
        detect_editor which env = Some e)
  ∧ (∀ v, truthy (getenv env "EDITOR") = false →
          getenv env "VISUAL" = Some v → v ≠ "" →
          detect_editor which env = Some v)
  ∧ (truthy (getenv env "EDITOR") = false →
     truthy (getenv env "VISUAL") = false →
     detect_editor which env = List.find which common_editors)
  ∧ (detect_editor which env = None
     ↔ truthy (getenv env "EDITOR") = false
       ∧ truthy (getenv env "VISUAL") = false
       ∧ Forall (λ e, which e = false) common_editors)
  ∧ detect_editor which env ≠ Some "".
Proof.
  unfold detect_editor. split; [|split; [|split; [|split]]].
  - intros e He Hne. rewrite He. by rewrite (not_empty_truthy e Hne).
  - intros v -> Hv Hne. rewrite Hv. by rewrite (not_empty_truthy v Hne).
  - by intros -> ->.
  - destruct (truthy (getenv env "EDITOR")) eqn:HE.
    { apply truthy_Some in HE as (e & -> & _). split; [discriminate|].
      by intros [? _]. }
    destruct (truthy (getenv env "VISUAL")) eqn:HV.
    { apply truthy_Some in HV as (e & -> & _). split; [discriminate|].
      by intros (_ & ? & _). }
    split.
    + intros Hnone. split; [done|]. split; [done|].
      apply Forall_forall. intros e He%list_elem_of_In.
      pose proof (find_none _ _ Hnone e He) as Hw. exact Hw.
    + intros (_ & _ & Hall). unfold common_editors in *.
      apply Forall_cons in Hall as [H1 Hall].
      apply Forall_cons in Hall as [H2 Hall].
      apply Forall_cons in Hall as [H3 Hall].
      apply Forall_cons in Hall as [H4 _].
      simpl. by rewrite H1, H2, H3, H4.
  - destruct (truthy (getenv env "EDITOR")) eqn:HE.
    { apply truthy_Some in HE as (e & -> & Hne). congruence. }
    destruct (truthy (getenv env "VISUAL")) eqn:HV.
    { apply truthy_Some in HV as (e & -> & Hne). congruence. }
    intros Hf. apply find_some in Hf as [Hin _].
    unfold common_editors in Hin. simpl in Hin.
    destruct Hin as [?|[?|[?|[?|[]]]]]; discriminate.
Qed.

Lemma open_in_editor_never_false (env : Env) file_path wait :
  open_in_editor which file_exists spawn env file_path wait ≠ Returns false.
Proof.
  unfold open_in_editor.
  destruct (detect_editor which env) as [editor|]; [|discriminate].
  destruct (file_exists file_path); simpl; [|discriminate].
  destruct (spawn _) as [code| |e]; try discriminate.
  destruct (Z.eqb code 0) eqn:Hc; [rewrite ?Hc|]; discriminate.
Qed.

(** X18: [open_in_editor] never returns [False]: it returns [True], when an
    editor is found, the file exists and the editor exits with code 0, or it
    raises.  Without an editor or without the file it raises [EditorError]
    before anything is started; and [wait] changes the command line of
    VS Code only. *)
Theorem open_in_editor_outcomes (env : Env) file_path wait :
  open_in_editor which file_exists spawn env file_path wait ≠ Returns false
  ∧ (open_in_editor which file_exists spawn env file_path wait = Returns true
     ↔ ∃ editor, detect_editor which env = Some editor
                 ∧ file_exists file_path = true
                 ∧ spawn (editor_args editor wait file_path) = Exited 0)
  ∧ (detect_editor which env = None ∨ file_exists file_path = false →
     ∃ e, ∀ other_spawn,
       open_in_editor which file_exists other_spawn env file_path wait
       = RaisesEditorError e)
  ∧ (∀ editor, detect_editor which env = Some editor → editor ≠ "code" →
       open_in_editor which file_exists spawn env file_path true
       = open_in_editor which file_exists spawn env file_path false).
Proof.
  split; [apply open_in_editor_never_false|].
  unfold open_in_editor. split; [|split].
  - destruct (detect_editor which env) as [editor|].
    2:{ split; [discriminate|]. by intros (? & ? & _). }
    destruct (file_exists file_path); simpl.
    2:{ split; [discriminate|]. by intros (? & _ & ? & _). }
    destruct (spawn _) as [code| |e] eqn:Hs.
    + destruct (Z.eqb_spec code 0) as [->|Hc].
      * split; [|done]. intros _. by exists editor.
      * split; [discriminate|]. intros (ed & [= <-] & _ & Hs').
        rewrite Hs in Hs'. congruence.
    + split; [discriminate|]. intros (ed & [= <-] & _ & Hs').
      rewrite Hs in Hs'. discriminate.
    + split; [discriminate|]. intros (ed & [= <-] & _ & Hs').
      rewrite Hs in Hs'. discriminate.
  - intros [-> | Hf]; [by eexists|].
    destruct (detect_editor which env); [|by eexists].
    rewrite Hf. by eexists.
  - intros editor -> Hne. unfold editor_args.
    by destruct (String.eqb_spec editor "code").
Qed.

Context {Settings : Type}.
Variable load_config : string → result Settings.
Variable validate_config : Settings → result (list string).

Lemma rejected_verdict e : (rejected e).1 = false ∧ (rejected e).2 ≠ [].
Proof. by destruct e. Qed.

Lemma validate_after_edit_valid file_path :
  validate_after_edit load_config validate_config file_path = Ok (true, [])
  ↔ ∃ settings, load_config file_path = Ok settings
                ∧ validate_config settings = Ok [].
Proof.
  unfold validate_after_edit.
  destruct (load_config file_path) as [settings|e|signal].
  - destruct (validate_config settings) as [[|m ms]|e|signal] eqn:Hv.
    + split; [|done]. intros _. by exists settings.
    + split; [discriminate|]. intros (s' & [= <-] & Hv'). congruence.
    + split; [by destruct e|]. intros (s' & [= <-] & Hv'). congruence.
    + split; [discriminate|]. intros (s' & [= <-] & Hv'). congruence.
  - split; [by destruct e|]. by intros (? & ? & _).
  - split; [discriminate|]. by intros (? & ? & _).
Qed.

Lemma validate_after_edit_consistent file_path valid messages :
  validate_after_edit load_config validate_config file_path
  = Ok (valid, messages) →
  (valid = true ↔ messages = [])
  ∧ (valid = true → messages = [] →
     validate_after_edit load_config validate_config file_path
     = Ok (true, [])).
Proof.
  unfold validate_after_edit.
  destruct (load_config file_path) as [settings|e|signal]; [| |done].
  - destruct (validate_config settings) as [[|m ms]|e|signal]; simpl;
      [| | |done].
    + by intros [= <- <-].
    + intros [= <- <-]. split; [done|]. discriminate.
    + destruct (rejected e) as [v ms] eqn:Hrej. intros [= <- <-].
      destruct (rejected_verdict e) as [Hf Hm]. rewrite Hrej in Hf, Hm.
      simpl in Hf, Hm. subst v. split; [done|]. discriminate.
  - destruct (rejected e) as [v ms] eqn:Hrej. intros [= <- <-].
    destruct (rejected_verdict e) as [Hf Hm]. rewrite Hrej in Hf, Hm.
    simpl in Hf, Hm. subst v. split; [done|]. discriminate.
Qed.

(** X19: the verdict of [validate_after_edit] is consistent: the file is
    reported valid exactly when the list of messages is empty, which is
    exactly when it loads and [validate_config] finds nothing.  No
    [Exception] leaves it: a [ConfigurationError] becomes its message, and
    only what is no [Exception] passes.  [edit_and_validate] gives that
    verdict only after the editor was opened and returned, and otherwise
    raises what [open_in_editor] raised. *)
Theorem validate_after_edit_verdict (env : Env) file_path :
  (∀ valid messages,
     validate_after_edit load_config validate_config file_path
     = Ok (valid, messages) →
     (valid = true ↔ messages = [])
     ∧ (valid = true
        ↔ ∃ settings, load_config file_path = Ok settings
                      ∧ validate_config settings = Ok []))
  ∧ ((∃ settings, load_config file_path = Ok settings
                  ∧ validate_config settings = Ok [])
     → validate_after_edit load_config validate_config file_path
       = Ok (true, []))
  ∧ (∀ msg, load_config file_path = Err (ConfigurationError msg) →
       validate_after_edit load_config validate_config file_path
       = Ok (false, [msg]))
  ∧ (∀ e, validate_after_edit load_config validate_config file_path ≠ Err e)
  ∧ (∀ signal,
       validate_after_edit load_config validate_config file_path
       = Abort signal
       ↔ load_config file_path = Abort signal
         ∨ ∃ settings, load_config file_path = Ok settings
                       ∧ validate_config settings = Abort signal)
  ∧ (∀ verdict,
       edit_and_validate which file_exists spawn load_config validate_config
         env file_path = Returns verdict
       ↔ open_in_editor which file_exists spawn env file_path true
         = Returns true
         ∧ validate_after_edit load_config validate_config file_path
           = Ok verdict)
  ∧ (∀ e,
       open_in_editor which file_exists spawn env file_path true
       = RaisesEditorError e →
       edit_and_validate which file_exists spawn load_config validate_config
         env file_path = RaisesEditorError e)
  ∧ (∀ e,
       open_in_editor which file_exists spawn env file_path true
       = Raises e →
       edit_and_validate which file_exists spawn load_config validate_config
         env file_path = Raises e).
Proof.
  split; [|split; [|split; [|split; [|split; [|split; [|split]]]]]].
  - intros valid messages Hv.
    destruct (validate_after_edit_consistent _ _ _ Hv) as [Hiff Hval].
    split; [done|]. rewrite <- validate_after_edit_valid. split.
    + intros ->. apply Hval; [done|]. by apply Hiff.
    + rewrite Hv. by intros [= -> _].
  - apply validate_after_edit_valid.
  - intros msg Hl. unfold validate_after_edit. by rewrite Hl.
  - intros e. unfold validate_after_edit.
    destruct (load_config file_path) as [settings|e'|signal]; [|done|done].
    destruct (validate_config settings) as [[|m ms]|e'|signal]; done.
  - intros signal. unfold validate_after_edit.
    destruct (load_config file_path) as [settings|e'|signal'] eqn:Hl.
    + destruct (validate_config settings) as [[|m ms]|e'|signal'] eqn:Hv.
      * split; [discriminate|]. intros [?|(s' & [= <-] & Hv')]; congruence.
      * split; [discriminate|]. intros [?|(s' & [= <-] & Hv')]; congruence.
      * split; [discriminate|]. intros [?|(s' & [= <-] & Hv')]; congruence.
      * split.
        -- intros [= <-]. right. by exists settings.
        -- intros [?|(s' & [= <-] & Hv')]; congruence.
    + split; [discriminate|]. intros [?|(s' & ? & _)]; congruence.
    + split; [intros [= <-]; by left|].
      intros [?|(s' & ? & _)]; congruence.
  - intros verdict. unfold edit_and_validate.
    pose proof (open_in_editor_never_false env file_path true) as Hnf.
    destruct (open_in_editor which file_exists spawn env file_path true)
      as [[]| | |] eqn:Ho.
    + destruct (validate_after_edit _ _ _) as [v|e|signal].
      * split; [by intros [= <-]|]. by intros [_ [= <-]].
      * split; [discriminate|]. by intros [_ ?].
      * split; [discriminate|]. by intros [_ ?].
    + done.
    + split; [discriminate|]. by intros [? _].
    + split; [discriminate|]. by intros [? _].
    + split; [discriminate|]. by intros [? _].
  - intros e Ho. unfold edit_and_validate. by rewrite Ho.
  - intros e Ho. unfold edit_and_validate. by rewrite Ho.
Qed.

End EditorBehaviour.

(** * Memory configuration *)

Section Mem0Behaviour.
Import Config (truthy).
Import Mem0.

Lemma or_else_truthy a k :
  k ≠ "" → ∃ k', or_else a (Some k) = Some k' ∧ k' ≠ "".
Proof.
  intros Hk. unfold or_else. destruct (truthy a) eqn:Ha.
  - apply truthy_Some in Ha as (s & -> & Hs). eauto.
  - eauto.
Qed.

Ltac in_list :=
  repeat first [apply list_elem_of_here | apply list_elem_of_further].

Ltac not_in_list :=
  let Hin := fresh "Hin" in
  intros Hin;
  repeat (apply elem_of_cons in Hin as [Hin|Hin]; [congruence|]);
  by apply elem_of_nil in Hin.

Ltac by_provider c :=
  unfold extract_llm_config;
  destruct (String.eqb_spec (llm_provider c) "openai") as [?|?];
  [|destruct (String.eqb_spec (llm_provider c) "anthropic") as [?|?];
    [|destruct (String.eqb_spec (llm_provider c) "azure") as [?|?];
      [|destruct (String.eqb_spec (llm_provider c) "gemini") as [?|?];
        [|destruct (String.eqb_spec (llm_provider c) "local") as [?|?]]]]];
  simpl.

Lemma extract_provider c :
  provider (extract_llm_config c).1
  ∈ ["openai"; "anthropic"; "azure_openai"; "gemini"].
Proof. by_provider c; in_list. Qed.

Lemma extract_entries c :
  is_Some (entry "model" (config (extract_llm_config c).1))
  ∧ is_Some (entry "api_key" (config (extract_llm_config c).1)).
Proof. by_provider c; split; eauto. Qed.

Lemma extract_openai c :
  llm_provider c ∉ ["anthropic"; "azure"; "gemini"] →
  provider (extract_llm_config c).1 = "openai".
Proof.
  by_provider c; intros Hno; try done; exfalso; apply Hno;
    match goal with H : llm_provider _ = _ |- _ => rewrite H end; in_list.
Qed.

Lemma extract_api_key c :
  llm_provider c ∉ ["openai"; "anthropic"; "azure"; "gemini"] →
  ∃ key, entry "api_key" (config (extract_llm_config c).1) = Some (Some key)
         ∧ key ≠ "".
Proof.
  by_provider c; intros Hno.
  1-4: exfalso; apply Hno;
    match goal with H : llm_provider _ = _ |- _ => rewrite H end; in_list.
  - by exists "not-needed".
  - destruct (or_else_truthy (openai_api_key c) "not-needed")
      as (k & -> & Hk); [done|]. by exists k.
Qed.

Lemma extract_warning c :
  is_Some (extract_llm_config c).2
  ↔ llm_provider c ∉ ["openai"; "anthropic"; "azure"; "gemini"; "local"].
Proof.
  by_provider c.
  1-5: split; [by intros [? ?]|]; intros Hno; exfalso; apply Hno;
    match goal with H : llm_provider _ = _ |- _ => rewrite H end; in_list.
  split; [intros _; not_in_list|eauto].
Qed.

(** X20: [extract_llm_config] hands mem0 one of four providers and always a
    model and an API-key entry.  [local] and every provider it does not
    know are mapped to [openai], and for them the API key is never missing:
    it is ["not-needed"] unless, for an unknown provider, an OpenAI key is
    set.  A warning is logged exactly for the providers outside [openai],
    [anthropic], [azure], [gemini] and [local]. *)
Theorem extract_llm_config_providers (c : MemoryConfig) :
  provider (extract_llm_config c).1
  ∈ ["openai"; "anthropic"; "azure_openai"; "gemini"]
  ∧ is_Some (entry "model" (config (extract_llm_config c).1))
  ∧ is_Some (entry "api_key" (config (extract_llm_config c).1))
  ∧ (llm_provider c ∉ ["anthropic"; "azure"; "gemini"] →
     provider (extract_llm_config c).1 = "openai")
  ∧ (llm_provider c ∉ ["openai"; "anthropic"; "azure"; "gemini"] →
     ∃ key, entry "api_key" (config (extract_llm_config c).1)
            = Some (Some key) ∧ key ≠ "")
  ∧ (is_Some (extract_llm_config c).2
     ↔ llm_provider c ∉ ["openai"; "anthropic"; "azure"; "gemini"; "local"]).
Proof.
  split; [apply extract_provider|].
  split; [apply extract_entries|]. split; [apply extract_entries|].
  split; [apply extract_openai|]. split; [apply extract_api_key|].
  apply extract_warning.
Qed.

Variable home : Path.
Context {Memory : Type}.
Variable from_config : mem0_config → result Memory.

Lemma parent_joinpath p part : parent (joinpath p part) = p.
Proof.
  destruct p as [a ps]. unfold parent, joinpath. simpl.
  by rewrite removelast_last.
Qed.

Lemma storage_path_default c :
  mem0_storage_path c = None →
  ∃ dir, get_storage_path home c = joinpath dir "chroma_db".
Proof.
  intros Hp. unfold get_storage_path. rewrite Hp.
  destruct (memory_dir c) as [d|]; [by exists d|].
  destruct (agent_data_dir c) as [d|]; by eexists.
Qed.

Lemma cloud_mode_store c :
  (∃ key org, store (build_config home c) = CloudStore key org)
  ↔ truthy (mem0_api_key c) = true ∧ truthy (mem0_org_id c) = true.
Proof.
  unfold build_config, is_cloud_mode.
  destruct (truthy (mem0_api_key c)), (truthy (mem0_org_id c)); simpl.
  - split; [done|]. intros _. by eexists _, _.
  - split; [|by intros [_ ?]]. by intros (? & ? & ?).
  - split; [|by intros [? _]]. by intros (? & ? & ?).
  - split; [|by intros [? _]]. by intros (? & ? & ?).
Qed.

(** X21: [create_memory_instance] hands mem0 the mem0.ai store exactly when
    both the mem0 API key and the organisation id are set and not empty.
    Without the mem0 package it raises before anything is built, whatever
    [Memory.from_config] would do.  In cloud mode no directory is made; in
    local mode the store is the Chroma collection ["agent_memories"] at
    [get_storage_path], exactly the parent of that path is made, and unless
    a storage path is configured the path is a directory joined with
    [chroma_db], that directory being the one made.  An [Exception] of
    [Memory.from_config] is always re-raised as a [ValueError] that carries
    its message; what is no [Exception] passes. *)
Theorem create_memory_instance_modes installed (c : MemoryConfig) :
  ((∃ key org, store (build_config home c) = CloudStore key org)
   ↔ truthy (mem0_api_key c) = true ∧ truthy (mem0_org_id c) = true)
  ∧ (installed = false →
     ∃ e, ∀ other_config : mem0_config → result Memory,
       create_memory_instance home installed other_config c = (Err e, []))
  ∧ (installed = true →
     truthy (mem0_api_key c) = true → truthy (mem0_org_id c) = true →
     store (build_config home c)
     = CloudStore (mem0_api_key c) (mem0_org_id c)
     ∧ (create_memory_instance home installed from_config c).2 = [])
  ∧ (installed = true →
     truthy (mem0_api_key c) = false ∨ truthy (mem0_org_id c) = false →
     store (build_config home c)
     = ChromaStore (path_str (get_storage_path home c)) "agent_memories"
     ∧ (create_memory_instance home installed from_config c).2
       = [parent (get_storage_path home c)]
     ∧ (mem0_storage_path c = None →
        ∃ dir,
          get_storage_path home c = joinpath dir "chroma_db"
          ∧ (create_memory_instance home installed from_config c).2
            = [dir]
          ∧ last (parts (get_storage_path home c)) = Some "chroma_db"))
  ∧ (installed = true →
     (∀ memory, from_config (build_config home c) = Ok memory →
        (create_memory_instance home installed from_config c).1
        = Ok memory)
     ∧ (∀ e, from_config (build_config home c) = Err e →
        (create_memory_instance home installed from_config c).1
        = Err (ValueError
                 ("Failed to initialize mem0 Memory: " +:+ exn_str e)))
     ∧ (∀ signal, from_config (build_config home c) = Abort signal →
        (create_memory_instance home installed from_config c).1
        = Abort signal)).
Proof.
  split; [apply cloud_mode_store|]. split; [|split; [|split]].
  - intros ->. by eexists.
  - intros -> Hk Ho. unfold build_config, create_memory_instance,
      is_cloud_mode. rewrite Hk, Ho. simpl.
    split; [done|]. by destruct (from_config _).
  - intros -> Hno.
    assert (is_cloud_mode c = false) as Hc.
    { unfold is_cloud_mode. destruct Hno as [-> | ->]; [done|].
      apply andb_false_r. }
    assert ((create_memory_instance home true from_config c).2
            = [parent (get_storage_path home c)]) as Hmade.
    { unfold create_memory_instance. rewrite Hc. simpl.
      by destruct (from_config _). }
    split; [unfold build_config; by rewrite Hc|]. split; [done|].
    intros Hp. destruct (storage_path_default c Hp) as [dir Hdir].
    exists dir. split; [done|]. rewrite Hmade, Hdir, parent_joinpath.
    split; [done|]. unfold joinpath. simpl. apply last_snoc.
  - intros ->. unfold create_memory_instance. simpl.
    repeat split; intros ? ->; done.
Qed.

End Mem0Behaviour.

(** ** The session helpers *)

Section SessionBehaviour.
Import Config Session Text.

(** X22: the preview [pick_session] prints of a first message is never
    longer than 50 characters, a character being a code point.  A message
    of at most 50 characters is shown as it is, and only such a message is;
    a longer one is cut to its first 47 characters, followed by three
    dots. *)
Theorem preview_bounded (first_msg : string) :
  (text_len (preview first_msg) ≤ 50)%nat
  ∧ (preview first_msg = first_msg ↔ (text_len first_msg ≤ 50)%nat)
  ∧ ((50 < text_len first_msg)%nat →
     ∃ head tail,
       first_msg = head +:+ tail ∧ text_len head = 47%nat
       ∧ preview first_msg = head +:+ "...").
Proof.
  unfold preview.
  destruct (50 <? text_len first_msg)%nat eqn:Hlen.
  - apply Nat.ltb_lt in Hlen.
    assert (text_len (text_take 47 first_msg) = 47%nat) as Hl
      by (rewrite text_len_take; lia).
    assert (text_len (text_take 47 first_msg +:+ "...") = 50%nat) as Hcut
      by (rewrite text_len_append, Hl; reflexivity).
    split; [lia|]. split.
    + split; [|lia]. intros Heq. rewrite Heq in Hcut. lia.
    + intros _. exists (text_take 47 first_msg), (text_drop 47 first_msg).
      by rewrite text_take_drop.
  - apply Nat.ltb_ge in Hlen. split; [done|]. split; [done|]. lia.
Qed.

Section Picking.
Variable time_ago : string → string.
Variable prompt_async : string → attempt string.
Variable int_of : string → option Z.

Lemma pick_session_picks (sessions : list SessionInfo) picked :
  (pick_session time_ago prompt_async int_of sessions).1
  = Done (Some picked)
  ↔ ∃ choice k sess,
      prompt_async (selection_prompt sessions) = Done choice
      ∧ int_of choice = Some (Z.of_nat k + 1)%Z
      ∧ sessions !! k = Some sess ∧ name sess = picked.
Proof.
  split.
  - destruct sessions as [|s0 rest]; [done|].
    unfold pick_session. remember (s0 :: rest) as sessions eqn:Hs.
    destruct (prompt_async _) as [choice|r] eqn:Hask.
    + destruct (int_of choice) as [n|] eqn:Hint; [|done].
      destruct ((1 <=? n)%Z && (n <=? Z.of_nat (List.length sessions))%Z)
        eqn:Hrange; [|done].
      apply andb_true_iff in Hrange as [?%Z.leb_le ?%Z.leb_le].
      destruct (sessions !! Z.to_nat (n - 1)) as [sess|] eqn:Hk; [|done].
      simpl. intros [= <-].
      exists choice, (Z.to_nat (n - 1)), sess.
      repeat split; [|done]. rewrite Hint. f_equal. lia.
    + by destruct r as [| | |[]].
  - intros (choice & k & sess & Hask & Hint & Hk & <-).
    assert (k < List.length sessions)%nat by by eapply lookup_lt_Some.
    destruct sessions as [|s0 rest]; [done|].
    unfold pick_session. remember (s0 :: rest) as sessions eqn:Hs.
    rewrite Hask, Hint.
    replace ((1 <=? Z.of_nat k + 1)%Z
             && (Z.of_nat k + 1 <=? Z.of_nat (List.length sessions))%Z)
      with true
      by (symmetry; apply andb_true_iff; split; apply Z.leb_le; lia).
    replace (Z.to_nat (Z.of_nat k + 1 - 1)) with k by lia.
    by rewrite Hk.
Qed.

(** X23: [pick_session] returns the name of the [n]-th session listed
    exactly when the prompt returns a text that reads as an integer [n]
    between 1 and the number of sessions.  The index it uses is always in
    range, so the only exceptions that leave it are those of the prompt
    other than [EOFError], [KeyboardInterrupt] and [ValueError]; and
    without sessions it returns nothing whatever the prompt would give. *)
Theorem pick_session_selection (sessions : list SessionInfo) :
  let ask := prompt_async (selection_prompt sessions) in
  (∀ picked,
     (pick_session time_ago prompt_async int_of sessions).1
     = Done (Some picked)
     ↔ ∃ choice k sess,
         ask = Done choice ∧ int_of choice = Some (Z.of_nat k + 1)%Z
         ∧ sessions !! k = Some sess ∧ name sess = picked)
  ∧ (∀ r,
       (pick_session time_ago prompt_async int_of sessions).1 = Throws r →
       ask = Throws r ∧ r ≠ KeyboardInterrupt
       ∧ (∀ msg, r ≠ EOFError msg) ∧ (∀ msg, r ≠ Other (ValueError msg)))
  ∧ (sessions = [] →
     ∀ other_prompt : string → attempt string,
       pick_session time_ago other_prompt int_of sessions
       = (Done None, ["No saved sessions available"])).
Proof.
  intros ask. subst ask. split; [apply pick_session_picks|]. split.
  - intros r.
    destruct sessions as [|s0 rest]; [done|].
    unfold pick_session. remember (s0 :: rest) as sessions eqn:Hs.
    destruct (prompt_async _) as [choice|r'] eqn:Hask.
    + destruct (int_of choice) as [n|] eqn:Hint; [|done].
      destruct ((1 <=? n)%Z && (n <=? Z.of_nat (List.length sessions))%Z)
        eqn:Hrange; [|done].
      apply andb_true_iff in Hrange as [?%Z.leb_le ?%Z.leb_le].
      destruct (lookup_lt_is_Some_2 sessions (Z.to_nat (n - 1))) as [sess Hk];
        [lia|].
      by rewrite Hk.
    + destruct r' as [| | |[]]; simpl; try done; by intros [= <-].
  - by intros ->.
Qed.

End Picking.
End SessionBehaviour.

Section RestoringBehaviour.
Import Config Session Commands.
Context {Store Thread : Type}.
Variable time_ago : string → string.
Variable prompt_async : string → attempt string.
Variable int_of : string → option Z.
Variable strip lower : string → string.
Variable load_thread : string → attempt (option Thread * option string).
Variable agent_run : string → option Thread → attempt unit.
Variable delete_session : string → Store → attempt unit * Store.

Lemma restore_session_context_count session_name quiet thread summary count :
  (restore_session_context load_thread agent_run session_name quiet).1
  = Done (thread, summary, count) →
  (count = 1%nat ∧ load_thread session_name = Done (thread, summary)
   ∧ truthy summary = true
   ∧ agent_run (default "" summary) thread = Done ())
  ∨ (count = 0%nat ∧ load_thread session_name = Done (thread, summary)
     ∧ truthy summary = false)
  ∨ (count = 0%nat ∧ thread = None ∧ summary = None
     ∧ ((∃ r, load_thread session_name = Throws r)
        ∨ ∃ loaded text r,
            load_thread session_name = Done (loaded, Some text)
            ∧ agent_run text loaded = Throws r)).
Proof.
  unfold restore_session_context.
  destruct (load_thread session_name) as [[loaded text]|r] eqn:Hload.
  - destruct (truthy text) eqn:Htext.
    + destruct (agent_run _ loaded) as [[]|r] eqn:Hrun.
      * intros [= <- <- <-]. by left.
      * destruct text as [text|]; [|done].
        destruct r; simpl; try done; intros [= <- <- <-];
          right; right; repeat split; right;
          eexists loaded, text, _; (split; [done|apply Hrun]).
    + intros [= <- <- <-]. right. by left.
  - destruct r; simpl; try done; intros [= <- <- <-];
      right; right; repeat split; left; by eexists.
Qed.

Lemma restore_session_context_raises session_name quiet r :
  (restore_session_context load_thread agent_run session_name quiet).1
  = Throws r →
  r = KeyboardInterrupt.
Proof.
  unfold restore_session_context.
  destruct (load_thread session_name) as [[loaded text]|r'].
  - destruct (truthy text); [|done].
    destruct (agent_run _ loaded) as [[]|r']; [done|].
    destruct r'; simpl; try done. by intros [= <-].
  - destruct r'; simpl; try done. by intros [= <-].
Qed.


(** X25: [handle_continue_command] resumes what was picked, and only that:
    when a session with a name that is not empty is picked, loads with a
    summary that is not empty and is replayed, the command returns the
    thread loaded and the message count 1; and a count of 1 is returned in
    that case only, for a session that was listed: in every other case that
    returns, the count is 0, and nothing is resumed when nothing is picked.
    A session whose name is the empty string cannot be resumed: picking it
    returns [(None, 0)] without loading anything. *)
Theorem handle_continue_command_resumes (sessions : list SessionInfo) :
  (∀ picked thread summary,
     (pick_session time_ago prompt_async int_of sessions).1
     = Done (Some picked) →
     picked ≠ "" →
     load_thread picked = Done (thread, Some summary) →
     summary ≠ "" →
     agent_run summary thread = Done () →
     (handle_continue_command time_ago prompt_async int_of load_thread
        agent_run sessions).1 = Done (thread, 1%nat))
  ∧ ((pick_session time_ago prompt_async int_of sessions).1 = Done None →
     (handle_continue_command time_ago prompt_async int_of load_thread
        agent_run sessions).1 = Done (None, 0%nat))
  ∧ (∀ thread count,
     (handle_continue_command time_ago prompt_async int_of load_thread
        agent_run sessions).1 = Done (thread, count) →
     (count = 0%nat ∨ count = 1%nat)
     ∧ (count = 1%nat →
        ∃ sess summary,
          sess ∈ sessions ∧ name sess ≠ ""
          ∧ (pick_session time_ago prompt_async int_of sessions).1
            = Done (Some (name sess))
          ∧ load_thread (name sess) = Done (thread, Some summary)
          ∧ summary ≠ ""
          ∧ agent_run summary thread = Done ()))
  ∧ ((pick_session time_ago prompt_async int_of sessions).1
     = Done (Some "") →
     ∀ (other_load : string → attempt (option Thread * option string)),
       (handle_continue_command time_ago prompt_async int_of other_load
          agent_run sessions).1 = Done (None, 0%nat)).
Proof.
  split; [|split].
  { intros picked thread summary Hpick Hne Hl Hs Hrun.
    unfold handle_continue_command.
    destruct (pick_session _ _ _ sessions) as [r out]. simpl in Hpick.
    subst r. rewrite (not_empty_truthy picked Hne). simpl.
    unfold restore_session_context. rewrite Hl.
    rewrite (not_empty_truthy summary Hs). simpl. by rewrite Hrun. }
  { intros Hpick. unfold handle_continue_command.
    destruct (pick_session _ _ _ sessions) as [r out]. simpl in Hpick.
    by subst r. }
  split.
  - intros thread count. unfold handle_continue_command.
    destruct (pick_session _ _ _ sessions) as [[picked|r] out] eqn:Hpick;
      [|done].
    destruct (truthy picked) eqn:Hname.
    + destruct picked as [picked|]; [|done].
      apply truthy_Some in Hname as Hne.
      destruct (restore_session_context _ _ _ _) as [[[[t s] c]|r] out']
        eqn:Hrestore; [|done].
      simpl. intros [= <- <-].
      assert ((restore_session_context load_thread agent_run
                 (default "" (Some picked)) false).1 = Done (t, s, c))
        as Hr by by rewrite Hrestore.
      apply restore_session_context_count in Hr
        as [(-> & Hl & Ht & Hrun)|[(-> & Hl & Ht)|(-> & -> & -> & Hfail)]].
      * split; [by right|]. intros _.
        destruct s as [summary|]; [|done].
        assert ((pick_session time_ago prompt_async int_of sessions).1
                = Done (Some picked)) as Hp by by rewrite Hpick.
        apply pick_session_picks in Hp
          as (choice & k & sess & _ & _ & Hk & <-).
        destruct Hne as (? & [= <-] & Hne).
        apply truthy_Some in Ht as (? & [= <-] & Ht).
        exists sess, summary.
        split; [by eapply list_elem_of_lookup_2|]. by repeat split.
      * split; [by left|done].
      * split; [by left|done].
    + simpl. intros [= <- <-]. split; [by left|done].
  - intros Hpick other_load. unfold handle_continue_command.
    destruct (pick_session _ _ _ sessions) as [picked out].
    simpl in Hpick. by rewrite Hpick.
Qed.

End RestoringBehaviour.

Section PurgeBehaviour.
Import Config Session Commands.
Context {Store : Type}.
Variable prompt_async : string → attempt string.
Variable strip lower : string → string.
Variable delete_session : string → Store → attempt unit * Store.

Lemma delete_all_counts (sessions : list SessionInfo) deleted store :
  match delete_all delete_session sessions deleted store with
  | (Some count, out, _) =>
      (count + List.length out = deleted + List.length sessions)%nat
  | (None, out, _) =>
      (List.length out < List.length sessions)%nat
      ∧ ∃ name store', (delete_session name store').1 = Throws KeyboardInterrupt
  end.
Proof.
  revert deleted store.
  induction sessions as [|sess rest IH]; intros deleted store; simpl.
  - lia.
  - destruct (delete_session (name sess) store) as [[[]|r] store'] eqn:Hd.
    + specialize (IH (S deleted) store').
      destruct (delete_all _ rest _ _) as [[[count|] out] store''].
      * lia.
      * destruct IH as [? ?]. split; [lia|done].
    + destruct (is_exception r) eqn:Hr.
      * specialize (IH deleted store').
        destruct (delete_all _ rest _ _) as [[[count|] out] store''].
        -- simpl. lia.
        -- destruct IH as [? ?]. split; [simpl; lia|done].
      * split; [simpl; lia|]. exists (name sess), store.
        rewrite Hd. by destruct r.
Qed.

Lemma delete_all_successes (sessions : list SessionInfo) deleted store :
  (∀ name store', (delete_session name store').1 = Done ()) →
  ∃ store'',
    delete_all delete_session sessions deleted store
    = (Some (deleted + List.length sessions)%nat, [], store'').
Proof.
  intros Hok. revert deleted store.
  induction sessions as [|sess rest IH]; intros deleted store; simpl.
  - exists store. do 2 f_equal. f_equal. lia.
  - specialize (Hok (name sess) store).
    destruct (delete_session (name sess) store) as [[[]|r] store']; [|done].
    destruct (IH (S deleted) store') as [store'' ->].
    exists store''. do 2 f_equal. f_equal. lia.
Qed.

(** X26: [handle_purge_command] deletes nothing unless the answer, stripped
    and in lower case, is [y]: otherwise the saved sessions stay as they
    are.  Once confirmed, a failed deletion does not stop the loop: the
    number reported as deleted plus the number of failures reported is the
    number of sessions, and it is the number of sessions when no deletion
    fails.  Only a [KeyboardInterrupt] ends the loop early, and the command
    then prints "Cancelled" and returns; it raises only what the prompt
    raises, [EOFError] and [KeyboardInterrupt] apart. *)
Theorem handle_purge_command_counts (sessions : list SessionInfo) store :
  let run :=
    handle_purge_command prompt_async strip lower delete_session sessions
      store in
  let warning :=
    "This will delete ALL " +:+ pretty (List.length sessions)
    +:+ " saved sessions." in
  ((∀ confirm, prompt_async "Continue? (y/n): " = Done confirm →
      lower (strip confirm) ≠ "y") →
   run.2 = store)
  ∧ (run.1.1 = Done ()
     ∨ ∃ r, prompt_async "Continue? (y/n): " = Throws r
            ∧ run.1.1 = Throws r ∧ is_exception r = true
            ∧ ∀ msg, r ≠ EOFError msg)
  ∧ (∀ confirm, sessions ≠ [] →
       prompt_async "Continue? (y/n): " = Done confirm →
       lower (strip confirm) = "y" →
       ∃ failed,
         (List.length failed ≤ List.length sessions)%nat
         ∧ ((∃ deleted,
               run.1.2
               = (warning :: failed
                  ++ ["Deleted " +:+ pretty deleted +:+ " sessions"])%list
               ∧ (deleted + List.length failed
                  = List.length sessions)%nat)
            ∨ (run.1.2 = (warning :: failed ++ ["Cancelled"])%list
               ∧ (List.length failed < List.length sessions)%nat
               ∧ ∃ name store',
                   (delete_session name store').1
                   = Throws KeyboardInterrupt)))
  ∧ (∀ confirm, sessions ≠ [] →
       prompt_async "Continue? (y/n): " = Done confirm →
       lower (strip confirm) = "y" →
       (∀ name store', (delete_session name store').1 = Done ()) →
       run.1.2
       = [warning;
          "Deleted " +:+ pretty (List.length sessions) +:+ " sessions"]).
Proof.
  intros run warning. subst run warning.
  split; [|split; [|split]].
  - intros Hno. destruct sessions as [|s0 rest]; [done|].
    unfold handle_purge_command. remember (s0 :: rest) as l eqn:Hl.
    destruct (prompt_async _) as [confirm|r] eqn:Hask.
    + specialize (Hno confirm eq_refl).
      destruct (String.eqb_spec (lower (strip confirm)) "y"); done.
    + by destruct r.
  - destruct sessions as [|s0 rest]; [by left|].
    unfold handle_purge_command. remember (s0 :: rest) as l eqn:Hl.
    destruct (prompt_async _) as [confirm|r] eqn:Hask.
    + left. destruct (String.eqb _ _); [|done].
      by destruct (delete_all _ _ _ _) as [[[count|] out] store'].
    + destruct r; [by left| |by left|]; right; by eexists.
  - intros confirm Hne Hask Hy.
    destruct sessions as [|s0 rest]; [done|].
    unfold handle_purge_command. remember (s0 :: rest) as l eqn:Hl.
    rewrite Hask, Hy. simpl String.eqb. cbv iota.
    pose proof (delete_all_counts l 0 store) as Hcount.
    destruct (delete_all _ _ _ _) as [[[count|] out] store'].
    + exists out. split; [lia|]. left. exists count. split; [done|lia].
    + destruct Hcount as [? ?]. exists out. split; [lia|]. by right.
  - intros confirm Hne Hask Hy Hok.
    destruct sessions as [|s0 rest]; [done|].
    unfold handle_purge_command. remember (s0 :: rest) as l eqn:Hl.
    rewrite Hask, Hy. simpl String.eqb. cbv iota.
    destruct (delete_all_successes l 0 store Hok) as [store' ->].
    done.
Qed.

End PurgeBehaviour.

Section SavingBehaviour.
Import Config Session.
Context {Store Thread : Type}.
Variable home : string.
Variable timestamp : string.
Variable strip : string → string.
Variable writable readable : string → bool.
Variable save_thread :
  option Thread → string → string → option (list message) → Store →
  attempt unit * Store.

(** X27: [auto_save_session] saves only a session that has messages, and
    no [Exception] leaves it.  The marker of the last session is written
    only after the thread was saved, under the name it was saved with, so
    that [get_last_session] then gives that name, stripped, when the marker
    can be written and read; when saving fails the marker stays as it was.
    In quiet mode, or without a console, nothing is printed. *)
Theorem auto_save_session_marker thread message_count quiet messages console
    (store : Store) (files : gmap string string) :
  let run :=
    auto_save_session home timestamp writable save_thread thread
      message_count quiet messages console store files in
  let save :=
    save_thread thread timestamp "Auto-saved session" messages store in
  ((message_count ≤ 0)%Z →
   run = {| ended := Done (); printed := [];
            threads := store; markers := files |})
  ∧ (ended run = Done () ∨ ended run = Throws KeyboardInterrupt)
  ∧ (quiet = true ∨ console = false → printed run = [])
  ∧ (markers run ≠ files →
     (0 < message_count)%Z ∧ save.1 = Done ()
     ∧ markers run = <[last_session_file home := timestamp]> files)
  ∧ ((0 < message_count)%Z → save.1 = Done () →
     threads run = save.2
     ∧ (writable (last_session_file home) = true →
        readable (last_session_file home) = true →
        get_last_session home strip readable (markers run)
        = Some (strip timestamp)))
  ∧ ((0 < message_count)%Z → save.1 ≠ Done () →
     markers run = files ∧ threads run = save.2).
Proof.
  intros run save. subst run save. unfold auto_save_session.
  destruct (0 <? message_count)%Z eqn:Hcount.
  - apply Z.ltb_lt in Hcount.
    destruct (save_thread _ _ _ _ _) as [[[]|r] store'] eqn:Hsave.
    + simpl. split; [lia|]. split; [by left|]. split.
      { intros [->| ->]; [done|]. by rewrite andb_false_r. }
      split.
      { unfold _save_last_session.
        destruct (writable _); [done|]. by intros []. }
      split; [|done]. intros _ _. split; [done|].
      intros Hw Hr. unfold get_last_session, _save_last_session.
      by rewrite Hw, lookup_insert_eq, Hr.
    + destruct (is_exception r) eqn:Hr; simpl.
      * split; [lia|]. split; [by left|]. split.
        { intros [->| ->]; [done|]. by rewrite andb_false_r. }
        split; [by intros []|]. split; [done|]. done.
      * split; [lia|]. split; [right; by destruct r|].
        split; [done|]. split; [by intros []|]. split; [done|]. done.
  - apply Z.ltb_ge in Hcount. simpl.
    split; [done|]. split; [by left|]. split; [done|].
    split; [by intros []|]. split; intros; lia.
Qed.

Lemma track_conversation_lookup (messages : list message) user_input r :
  track_conversation messages user_input r !! List.length messages
  = Some (mkMessage "user" user_input)
  ∧ track_conversation messages user_input r !! S (List.length messages)
    = Some (mkMessage "assistant"
              match r with WithText text => text | Plain str => str end).
Proof.
  unfold track_conversation. rewrite <- app_assoc. split.
  - rewrite lookup_app_r by lia. by rewrite Nat.sub_diag.
  - rewrite lookup_app_r by lia.
    by replace (S (List.length messages) - List.length messages)%nat
      with 1%nat by lia.
Qed.

(** X28: [track_conversation] only appends: after any number of exchanges
    the messages tracked before are still there, unchanged and in place,
    two messages were added per exchange, and the added messages alternate
    between the user's input and the assistant's text, in the order of the
    exchanges. *)
Theorem track_conversation_alternates (messages : list message)
    (exchanges : list (string * response)) :
  let tracked :=
    foldl (λ messages exchange,
             track_conversation messages exchange.1 exchange.2)
      messages exchanges in
  List.length tracked
  = (List.length messages + 2 * List.length exchanges)%nat
  ∧ take (List.length messages) tracked = messages
  ∧ ∀ i user_input r,
      exchanges !! i = Some (user_input, r) →
      tracked !! (List.length messages + 2 * i)%nat
      = Some (mkMessage "user" user_input)
      ∧ tracked !! (List.length messages + 2 * i + 1)%nat
        = Some (mkMessage "assistant"
                  match r with WithText text => text | Plain str => str end).
Proof.
  intros tracked. subst tracked. revert messages.
  induction exchanges as [|[u r0] rest IH]; intros messages.
  - simpl. split; [lia|]. split; [by rewrite firstn_all|]. by intros i ? ? ?.
  - simpl foldl.
    destruct (IH (track_conversation messages u r0)) as (Hlen & Hpre & Hnew).
    assert (List.length (track_conversation messages u r0)
            = (List.length messages + 2)%nat) as Htl.
    { unfold track_conversation. rewrite !length_app. simpl. lia. }
    assert (∀ j, (j < List.length messages + 2)%nat →
                 foldl (λ messages exchange,
                          track_conversation messages exchange.1 exchange.2)
                   (track_conversation messages u r0) rest !! j
                 = track_conversation messages u r0 !! j) as Hold.
    { intros j Hj. rewrite <- Hpre at 2.
      rewrite lookup_take_lt; [done|lia]. }
    split; [simpl; lia|]. split.
    + apply list_eq. intros j.
      destruct (decide (j < List.length messages)%nat) as [Hj|Hj].
      * rewrite lookup_take_lt by done. rewrite Hold by lia.
        unfold track_conversation. rewrite <- app_assoc.
        by rewrite lookup_app_l.
      * rewrite lookup_take_ge by lia. symmetry.
        apply lookup_ge_None. lia.
    + intros [|i] user_input r Hi.
      * simpl in Hi. injection Hi as <- <-.
        replace (List.length messages + 2 * 0)%nat
          with (List.length messages) by lia.
        replace (List.length messages + 1)%nat
          with (S (List.length messages)) by lia.
        rewrite !Hold by lia. apply track_conversation_lookup.
      * simpl in Hi. destruct (Hnew i user_input r Hi) as [Hu Ha].
        rewrite Htl in Hu, Ha.
        split.
        -- rewrite <- Hu. f_equal. lia.
        -- rewrite <- Ha. f_equal. lia.
Qed.

End SavingBehaviour.

(** ** The provider setups *)

Section ProviderSetupBehaviour.
Import Config Session ProviderSetup.

Lemma set_if_found_truthy key x (credentials : dict) :
  truthy x = true →
  set_if_found key x credentials
  = set_item key (Str (default "" x)) credentials.
Proof. intros Hx. destruct x as [s|]; [|done]. simpl in *. by rewrite Hx. Qed.

Lemma set_if_found_falsy key x (credentials : dict) :
  truthy x = false → set_if_found key x credentials = credentials.
Proof. intros Hx. destruct x as [s|]; [|done]. simpl in *. by rewrite Hx. Qed.

Section Foundry.
Import FoundrySetup.
Variable ask : string → option string → attempt string.

(** X29: the Foundry setup takes the environment all or nothing.  When
    [AZURE_PROJECT_ENDPOINT] and [AZURE_MODEL_DEPLOYMENT] are both set and
    not empty, [configure] asks nothing and returns exactly what
    [detect_credentials] found, enabled.  When either is missing, the user
    is asked for both and the configuration holds the two answers: a value
    the environment does give is not used.  The credentials handed to
    [prompt_user] never matter, and a configuration always has the three
    keys [project_endpoint], [model_deployment] and [enabled]. *)
Theorem foundry_configure_all_or_nothing (env : Env) :
  let complete :=
    truthy (getenv env "AZURE_PROJECT_ENDPOINT")
    && truthy (getenv env "AZURE_MODEL_DEPLOYMENT") in
  (complete = true →
   ∀ other_ask : string → option string → attempt string,
     (configure other_ask env).1
     = Done (detect_credentials env ++ [("enabled", Bool true)])%list)
  ∧ (complete = false →
     (∀ endpoint deployment,
        ask "Enter your Azure AI Foundry project endpoint" None
        = Done endpoint →
        ask "Enter your model deployment name" None = Done deployment →
        configure ask env
        = (Done [("project_endpoint", Str endpoint);
                 ("model_deployment", Str deployment);
                 ("enabled", Bool true)], []))
     ∧ (∀ r,
          ask "Enter your Azure AI Foundry project endpoint" None = Throws r
          ∨ ask "Enter your model deployment name" None = Throws r
            ∧ (∃ endpoint,
                 ask "Enter your Azure AI Foundry project endpoint" None
                 = Done endpoint) →
          configure ask env = (Throws r, [])))
  ∧ (∀ detected, prompt_user ask env detected = configure ask env)
  ∧ (∀ d, (configure ask env).1 = Done d →
       keys d = ["project_endpoint"; "model_deployment"; "enabled"]
       ∧ get_item "enabled" d = Some (Bool true)).
Proof.
  intros complete. subst complete. unfold configure, prompt_user.
  split; [|split; [|split]].
  - intros Hc other_ask. rewrite Hc. simpl.
    apply andb_true_iff in Hc as [He Hd]. unfold detect_credentials.
    by rewrite !set_if_found_truthy.
  - intros Hc. rewrite Hc. split.
    + by intros endpoint deployment -> ->.
    + intros r [->|[-> [endpoint ->]]]; done.
  - done.
  - intros d.
    destruct (truthy _ && truthy _).
    + simpl. by intros [= <-].
    + destruct (ask "Enter your Azure AI Foundry project endpoint" None)
        as [endpoint|]; [|done].
      destruct (ask "Enter your model deployment name" None)
        as [deployment|]; [|done].
      simpl. by intros [= <-].
Qed.

End Foundry.

Section Gemini.
Import GeminiSetup.
Variable lower : string → string.
Variable ask : string → option string → attempt string.
Variable confirm : string → bool → attempt bool.

Lemma with_model_Done build out d :
  (with_model ask build out).1 = Done d →
  ∃ model,
    ask model_prompt (Some "gemini-2.0-flash-exp") = Done model
    ∧ d = build model.
Proof.
  unfold with_model. destruct (ask _ _) as [model|]; [|done].
  simpl. intros [= <-]. by exists model.
Qed.

Lemma gemini_prompt_user_shape (env : Env) detected d :
  (prompt_user lower ask confirm env detected).1 = Done d →
  get_item "enabled" d = Some (Bool true)
  ∧ (∃ model, get_item "model" d = Some (Str model))
  ∧ ((keys d = vertex_keys ∧ get_item "use_vertexai" d = Some (Bool true)
      ∧ get_item "api_key" d = None)
     ∨ (keys d = api_key_keys ∧ get_item "use_vertexai" d = None)).
Proof.
  unfold prompt_user.
  destruct (use_vertex lower env && truthy (getenv env "GEMINI_PROJECT_ID")).
  { intros (model & _ & ->)%with_model_Done.
    split; [done|]. split; [by exists model|]. by left. }
  destruct (truthy (getenv env "GEMINI_API_KEY")).
  { intros (model & _ & ->)%with_model_Done.
    split; [done|]. split; [by exists model|]. by right. }
  destruct (confirm _ _) as [[]|]; [| |done].
  - destruct (ask "Enter your GCP project ID" None) as [project_id|];
      [|done].
    destruct (ask "Enter your GCP location" _) as [location|]; [|done].
    intros (model & _ & ->)%with_model_Done.
    split; [done|]. split; [by exists model|]. by left.
  - destruct (ask "Enter your Gemini API key" None) as [api_key|]; [|done].
    intros (model & _ & ->)%with_model_Done.
    split; [done|]. split; [by exists model|]. by right.
Qed.

(** X30: a configuration the Gemini setup returns is enabled, names a
    model, and is either a Vertex AI configuration (project and location,
    no API key) or an API-key configuration, never a mix.  The environment
    selects Vertex AI only when [GEMINI_USE_VERTEXAI] is [true] and
    [GEMINI_PROJECT_ID] is set and not empty: the project is then the
    environment's, the location is the environment's or [us-central1], and
    a [GEMINI_API_KEY] that is set is left out.  With the flag but without
    a project, [detect_credentials] still reports [use_vertexai] while
    [configure] returns the API-key configuration of [GEMINI_API_KEY].
    When every prompt is answered, [configure] returns. *)
Theorem gemini_configure_shape (env : Env) :
  (∀ detected d,
     (prompt_user lower ask confirm env detected).1 = Done d →
     get_item "enabled" d = Some (Bool true)
     ∧ (∃ model, get_item "model" d = Some (Str model))
     ∧ ((keys d = vertex_keys ∧ get_item "use_vertexai" d = Some (Bool true)
         ∧ get_item "api_key" d = None)
        ∨ (keys d = api_key_keys ∧ get_item "use_vertexai" d = None)))
  ∧ (∀ d project,
       use_vertex lower env = true →
       getenv env "GEMINI_PROJECT_ID" = Some project → project ≠ "" →
       (configure lower ask confirm env).1 = Done d →
       keys d = vertex_keys
       ∧ get_item "project_id" d = Some (Str project)
       ∧ get_item "location" d
         = Some (Str (or_default (getenv env "GEMINI_LOCATION")
                        "us-central1"))
       ∧ get_item "api_key" d = None)
  ∧ (∀ d key,
       use_vertex lower env = true →
       truthy (getenv env "GEMINI_PROJECT_ID") = false →
       getenv env "GEMINI_API_KEY" = Some key → key ≠ "" →
       (configure lower ask confirm env).1 = Done d →
       get_item "use_vertexai" (detect_credentials lower env)
       = Some (Bool true)
       ∧ keys d = api_key_keys
       ∧ get_item "api_key" d = Some (Str key))
  ∧ ((∀ prompt fallback, ∃ answer, ask prompt fallback = Done answer) →
     (∀ prompt fallback, ∃ answer, confirm prompt fallback = Done answer) →
     ∃ d, (configure lower ask confirm env).1 = Done d).
Proof.
  split; [intros detected d; apply gemini_prompt_user_shape|].
  split; [|split].
  - intros d project Hv Hp Hne. unfold configure, prompt_user.
    rewrite Hv, Hp, (not_empty_truthy project Hne). simpl andb. cbv iota.
    by intros (model & _ & ->)%with_model_Done.
  - intros d key Hv Hp Hk Hne. unfold configure, prompt_user.
    rewrite Hv, Hp, Hk, (not_empty_truthy key Hne). simpl andb. cbv iota.
    intros (model & _ & ->)%with_model_Done.
    split; [|done]. unfold detect_credentials. rewrite Hv, Hk.
    rewrite (set_if_found_falsy "project_id") by done.
    rewrite (set_if_found_truthy "api_key") by by apply not_empty_truthy.
    destruct (getenv env "GEMINI_LOCATION") as [l|],
      (getenv env "GEMINI_MODEL") as [m|]; simpl;
      repeat (case_match; simpl); done.
  - intros Hask Hconfirm. unfold configure, prompt_user, with_model.
    destruct (Hask model_prompt (Some "gemini-2.0-flash-exp")) as [model ->].
    destruct (use_vertex lower env && truthy _); [by eexists|].
    destruct (truthy (getenv env "GEMINI_API_KEY")); [by eexists|].
    destruct (Hconfirm vertex_prompt false)
      as [[] ->].
    + destruct (Hask "Enter your GCP project ID" None) as [? ->].
      destruct (Hask "Enter your GCP location" (Some "us-central1"))
        as [? ->].
      by eexists.
    + destruct (Hask "Enter your Gemini API key" None) as [? ->].
      by eexists.
Qed.

End Gemini.
End ProviderSetupBehaviour.
